(** * CIFAR-10 classification service: a shallow embedding and its properties

    The repository wraps a pretrained ResNet20 behind two Flask applications
    ([backend/app.py], the persistence variant, and [api/index.py], the
    serverless variant) and a stand-alone script ([main.py]).  This file
    embeds their request handlers as Rocq functions and proves the properties
    the specification states about them.

    Conventions.
    - A Python expression that may raise evaluates to a [result]: a value or
      an exception.  Only [Exception] subclasses are modelled, since those are
      what [except Exception] catches.
    - Python [float] is IEEE binary64 and a [torch.float32] tensor entry is
      IEEE binary32; both are [spec_float] with the operations of
      [SpecFloat] at the matching precision.
    - Pillow, the pretrained network and the ZIP encoder are external: they
      are interfaces (type classes), so every theorem holds for every
      implementation of them.  [Stub] gives small implementations on which
      the handlers can be run.
    - In the handlers a call of Pillow is a function of its arguments.
      [Run] gives the preprocessing a second time, with calls that read and
      change the state of the process, to compare two runs of it. *)

From Stdlib Require Import ZArith Lia List String Ascii Strings.Byte.
From Stdlib Require Import Floats.SpecFloat.
From stdpp Require Import gmap strings list fin_maps.

Open Scope string_scope.
Open Scope Z_scope.

(* ===================================================================== *)
(** * Python values *)
(* ===================================================================== *)

(** An exception instance: its class name and [str(e)]. *)
Record exn := Exception { exc_class : string; exc_str : string }.

(** Outcome of evaluating an expression. *)
Inductive result (A : Type) : Type :=
| Ok (a : A)
| Raise (e : exn).
Arguments Ok {A} a.
Arguments Raise {A} e.

Definition result_bind {A B} (r : result A) (k : A -> result B) : result B :=
  match r with
  | Ok a => k a
  | Raise e => Raise e
  end.

(** [l[i]] on a Python list: a negative index counts from the end, and an
    index outside [-len(l) .. len(l)-1] raises [IndexError]. *)
Definition list_getitem {A} (l : list A) (i : Z) : result A :=
  let n := Z.of_nat (length l) in
  let j := if i <? 0 then i + n else i in
  if (j <? 0) || (n <=? j) then
    Raise (Exception "IndexError" "list index out of range")
  else
    match nth_error l (Z.to_nat j) with
    | Some x => Ok x
    | None => Raise (Exception "IndexError" "list index out of range")
    end.

(* ===================================================================== *)
(** * Floating point *)
(* ===================================================================== *)

(** Python [float]: IEEE binary64. *)
Module F64.
Definition prec : Z := 53.
Definition emax : Z := 1024.
Definition of_Z (n : Z) : spec_float := binary_normalize prec emax n 0 false.
Definition div : spec_float -> spec_float -> spec_float := SFdiv prec emax.
Definition mul : spec_float -> spec_float -> spec_float := SFmul prec emax.

(** The decimal literal [digits]e-[scale], as the parser rounds it.  Both
    [digits] and [10^scale] are exact in binary64 for the literals of this
    program, so one correctly rounded division gives the nearest double. *)
Definition literal (digits : Z) (scale : Z) : spec_float :=
  div (of_Z digits) (of_Z (10 ^ scale)).
End F64.

(** [torch.float32]: IEEE binary32. *)
Module F32.
Definition prec : Z := 24.
Definition emax : Z := 128.
Definition of_Z (n : Z) : spec_float := binary_normalize prec emax n 0 false.
Definition of_byte (b : byte) : spec_float := of_Z (Z.of_N (Byte.to_N b)).
Definition sub : spec_float -> spec_float -> spec_float := SFsub prec emax.
Definition div : spec_float -> spec_float -> spec_float := SFdiv prec emax.
Definition leb : spec_float -> spec_float -> bool := SFleb.
Definition eqb : spec_float -> spec_float -> bool := SFeqb.

(** Rounding a double to single precision ([torch.as_tensor(.., dtype=float32)]). *)
Definition of_float64 (x : spec_float) : spec_float :=
  match x with
  | S754_finite s m e => binary_normalize prec emax (if s then Z.neg m else Z.pos m) e s
  | _ => x
  end.

Definition zero : spec_float := S754_zero false.
Definition one : spec_float := of_Z 1.
End F32.

(** A [C x H x W] tensor of [float32]. *)
Abbreviation Tensor3 := (list (list (list spec_float))).

(** [tensor.unsqueeze(0)]: a batch of one. *)
Definition unsqueeze0 (t : Tensor3) : list Tensor3 := [t].

(* ===================================================================== *)
(** * Pillow *)
(* ===================================================================== *)

(** The part of Pillow the program uses.  An [Image] is a decoded picture:
    [Image_open] stands for [Image.open(io.BytesIO(b))] together with the
    loading of the pixel data that Pillow defers to first use (a truncated
    file raises there, inside the same [try] block).  [Image_getband im c x y]
    is band [c] of [im.getpixel((x, y))] for the 8-bit modes. *)
Class PIL := {
  Image : Type;
  Image_open : list byte -> result Image;
  Image_mode : Image -> string;
  Image_size : Image -> nat * nat;
  Image_bands : Image -> nat;
  Image_getband : Image -> nat -> nat -> nat -> byte;
  Image_convert : Image -> string -> result Image;
  Image_resize : Image -> nat * nat -> Image;
  (** [convert(mode)] returns an image of that mode. *)
  convert_mode : forall im m im', Image_convert im m = Ok im' -> Image_mode im' = m;
  (** An RGB image has three bands. *)
  RGB_bands : forall im, Image_mode im = "RGB" -> Image_bands im = 3%nat;
  (** [resize(size)] returns an image of that size, in the same mode. *)
  resize_size : forall im sz, Image_size (Image_resize im sz) = sz;
  resize_mode : forall im sz, Image_mode (Image_resize im sz) = Image_mode im;
  (** [resize] to the image's own size returns a copy. *)
  resize_same : forall im, Image_resize im (Image_size im) = im
}.

(* ===================================================================== *)
(** * torchvision.transforms *)
(* ===================================================================== *)

Module transforms.
Section WithPIL.
Context `{pil : PIL}.

(** [transforms.Resize((h, w))]: Pillow's size is [(width, height)]. *)
Definition Resize (size : nat * nat) (pic : Image) : Image :=
  Image_resize pic (snd size, fst size).

(** [transforms.ToTensor()] on an 8-bit image: bands first, each byte
    converted to [float32] and divided by 255. *)
Definition ToTensor (pic : Image) : Tensor3 :=
  let '(w, h) := Image_size pic in
  map (fun c =>
    map (fun y =>
      map (fun x => F32.div (F32.of_byte (Image_getband pic c x y)) (F32.of_Z 255))
          (seq 0 w))
        (seq 0 h))
      (seq 0 (Image_bands pic)).

(** One channel of [tensor.sub_(mean).div_(std)]. *)
Definition normalize_channel (ch : list (list spec_float)) (ms : spec_float * spec_float)
  : list (list spec_float) :=
  map (map (fun v => F32.div (F32.sub v (fst ms)) (snd ms))) ch.

(** [transforms.Normalize(mean, std)]: the constants become [float32]
    tensors; a zero in [std] raises [ValueError]; the in-place broadcast
    needs as many channels as constants. *)
Definition Normalize (mean std : list spec_float) (tensor : Tensor3) : result Tensor3 :=
  let mean := map F32.of_float64 mean in
  let std := map F32.of_float64 std in
  if existsb (fun s => F32.eqb s F32.zero) std then
    Raise (Exception "ValueError" "std evaluated to zero, leading to division by zero.")
  else if (length tensor =? length mean)%nat && (length tensor =? length std)%nat then
    Ok (zip_with normalize_channel tensor (zip mean std))
  else
    Raise (Exception "RuntimeError" "The size of tensor a must match the size of tensor b").
End WithPIL.
End transforms.

(** The ten labels; the three programs spell the same list. *)
Definition CIFAR10_CLASSES : list string :=
  [ "airplane"; "automobile"; "bird"; "cat"; "deer";
    "dog"; "frog"; "horse"; "ship"; "truck" ].

(** [mean=[0.4914, 0.4822, 0.4465]], shared by the three pipelines. *)
Definition cifar_mean : list spec_float :=
  [ F64.literal 4914 4; F64.literal 4822 4; F64.literal 4465 4 ].

(** [std=[0.2023, 0.1994, 0.2010]] of [backend/app.py] and [api/index.py]. *)
Definition service_std : list spec_float :=
  [ F64.literal 2023 4; F64.literal 1994 4; F64.literal 2010 4 ].

(** [(0.2470, 0.2435, 0.2616)] of [main.py]. *)
Definition script_std : list spec_float :=
  [ F64.literal 2470 4; F64.literal 2435 4; F64.literal 2616 4 ].

(* ===================================================================== *)
(** * State and exceptions *)
(* ===================================================================== *)

(** A computation over a mutable state [S] that returns or raises.  The
    state survives a raise: what a statement wrote before it failed stays
    written. *)
Definition M (S A : Type) : Type := S -> result A * S.

Definition ret {S A} (a : A) : M S A := fun s => (Ok a, s).

Definition bind {S A B} (m : M S A) (k : A -> M S B) : M S B :=
  fun s =>
    match m s with
    | (Ok a, s') => k a s'
    | (Raise e, s') => (Raise e, s')
    end.

(** A pure expression inside a stateful block. *)
Definition lift {S A} (r : result A) : M S A := fun s => (r, s).

(** The state as it is now. *)
Definition get_state {S} : M S S := fun s => (Ok s, s).

(** [try: body / except Exception as e: handler(e)]. *)
Definition try_except {S A} (body : M S A) (handler : exn -> M S A) : M S A :=
  fun s =>
    match body s with
    | (Ok a, s') => (Ok a, s')
    | (Raise e, s') => handler e s'
    end.

Notation "x <- c ;; k" := (bind c (fun x => k))
  (at level 10, c at level 99, k at level 200, only parsing).

(* ===================================================================== *)
(** * The file system and [os] *)
(* ===================================================================== *)

(** Directories and regular files, keyed by their canonical absolute path
    (the list of names from the root).  Permissions, links and device
    errors are outside the model. *)
Inductive entry :=
| File (data : list byte)
| Dir.

Record filesystem := {
  entries : gmap (list string) entry;
  cwd : list string
}.

Module os.

Definition startswith_sep (p : string) : bool :=
  match p with
  | String c _ => Ascii.eqb c "/"
  | EmptyString => false
  end.

Fixpoint endswith_sep (p : string) : bool :=
  match p with
  | EmptyString => false
  | String c EmptyString => Ascii.eqb c "/"
  | String _ p' => endswith_sep p'
  end.

(** [os.path.join(a, b)] of [posixpath]. *)
Definition path_join (a b : string) : string :=
  if startswith_sep b then b
  else if String.eqb a "" || endswith_sep a then a +:+ b
  else a +:+ "/" +:+ b.

(** The components of a path: the text between separators. *)
Fixpoint split_sep (p : string) : list string :=
  match p with
  | EmptyString => [EmptyString]
  | String c p' =>
      if Ascii.eqb c "/" then EmptyString :: split_sep p'
      else match split_sep p' with
           | seg :: rest => String c seg :: rest
           | [] => [String c EmptyString]
           end
  end.

(** Walking the components from a directory, as the kernel resolves a
    path: every step needs the current entry to be a directory; an empty
    component and [.] stay, [..] goes to the parent (the root is its own
    parent).  The result is the canonical path of an existing entry. *)
Fixpoint walk_components (m : gmap (list string) entry) (cur : list string)
    (comps : list string) : option (list string) :=
  match comps with
  | [] => match m !! cur with Some _ => Some cur | None => None end
  | c :: rest =>
      match m !! cur with
      | Some Dir =>
          if String.eqb c "" || String.eqb c "." then walk_components m cur rest
          else if String.eqb c ".." then walk_components m (removelast cur) rest
          else walk_components m (cur ++ [c])%list rest
      | _ => None
      end
  end.

Definition resolve (fs : filesystem) (p : string) : option (list string) :=
  if String.eqb p "" then None
  else walk_components (entries fs) (if startswith_sep p then [] else cwd fs) (split_sep p).

Definition stat (fs : filesystem) (p : string) : option entry :=
  match resolve fs p with
  | Some k => entries fs !! k
  | None => None
  end.

(** [os.path.exists(p)] *)
Definition path_exists (fs : filesystem) (p : string) : bool :=
  match stat fs p with Some _ => true | None => false end.

(** [os.path.isdir(p)] *)
Definition path_isdir (fs : filesystem) (p : string) : bool :=
  match stat fs p with Some Dir => true | _ => false end.

(** [child_name k p = Some n] when [p] is the entry named [n] directly
    under [k]. *)
Fixpoint child_name (k p : list string) : option string :=
  match k, p with
  | [], [n] => Some n
  | a :: k', b :: p' => if String.eqb a b then child_name k' p' else None
  | _, _ => None
  end.

(** The entries directly under the directory at [k]. *)
Definition children (fs : filesystem) (k : list string) : list (string * entry) :=
  omap (fun pe => match child_name k (fst pe) with
                  | Some n => Some (n, snd pe)
                  | None => None
                  end)
       (map_to_list (entries fs)).

(** [os.listdir(p)]: the names under a directory, in the order the file
    system keeps them. *)
Definition listdir (fs : filesystem) (p : string) : result (list string) :=
  match resolve fs p with
  | Some k =>
      match entries fs !! k with
      | Some Dir => Ok (map fst (children fs k))
      | _ => Raise (Exception "NotADirectoryError" p)
      end
  | None => Raise (Exception "FileNotFoundError" p)
  end.

(** [strip_prefix k p = Some rel] when [p = k ++ rel]. *)
Fixpoint strip_prefix (k p : list string) : option (list string) :=
  match k, p with
  | [], rel => Some rel
  | a :: k', b :: p' => if String.eqb a b then strip_prefix k' p' else None
  | _ :: _, [] => None
  end.

Definition is_dir (e : entry) : bool := match e with Dir => true | File _ => false end.

(** [os.walk(top)]: one triple [(root, dirs, files)] per directory at or
    below [top]; errors are ignored, so a [top] that is no directory yields
    nothing. *)
Definition walk (fs : filesystem) (top : string) : list (string * list string * list string) :=
  match resolve fs top with
  | Some k =>
      omap (fun pe =>
              match snd pe, strip_prefix k (fst pe) with
              | Dir, Some rel =>
                  let kids := children fs (fst pe) in
                  Some (foldl path_join top rel,
                        map fst (filter (fun ne => is_dir (snd ne) = true) kids),
                        map fst (filter (fun ne => is_dir (snd ne) = false) kids))
              | _, _ => None
              end)
           (map_to_list (entries fs))
  | None => []
  end.

(** Reading a regular file. *)
Definition read_file (fs : filesystem) (p : string) : result (list byte) :=
  match stat fs p with
  | Some (File data) => Ok data
  | Some Dir => Raise (Exception "IsADirectoryError" p)
  | None => Raise (Exception "FileNotFoundError" p)
  end.

(** The canonical path a file at [p] would have: the directory part must
    resolve to a directory and the last component must be a name. *)
Definition resolve_new (fs : filesystem) (p : string) : option (list string) :=
  let comps := split_sep p in
  match last comps with
  | Some n =>
      if String.eqb n "" || String.eqb n "." || String.eqb n ".." then None
      else
        match walk_components (entries fs) (if startswith_sep p then [] else cwd fs)
                              (removelast comps) with
        | Some k => match entries fs !! k with
                    | Some Dir => Some (k ++ [n])%list
                    | _ => None
                    end
        | None => None
        end
  | None => None
  end.

(** [open(p, 'wb')] followed by writing [data] and closing: creates the
    file or replaces its contents. *)
Definition write_file (p : string) (data : list byte) : M filesystem unit :=
  fun fs =>
    match resolve_new fs p with
    | Some k =>
        match entries fs !! k with
        | Some Dir => (Raise (Exception "IsADirectoryError" p), fs)
        | _ => (Ok tt, {| entries := <[k := File data]> (entries fs); cwd := cwd fs |})
        end
    | None => (Raise (Exception "FileNotFoundError" p), fs)
    end.

(** Lexical normalisation ([os.path.normpath]) of absolute components. *)
Definition normpath_components (comps : list string) : list string :=
  foldl (fun acc c =>
           if String.eqb c "" || String.eqb c "." then acc
           else if String.eqb c ".." then removelast acc
           else (acc ++ [c])%list)
        [] comps.

Definition abspath_components (fs : filesystem) (p : string) : list string :=
  normpath_components (if startswith_sep p then split_sep p else (cwd fs ++ split_sep p)%list).

Fixpoint common_prefix_length (a b : list string) : nat :=
  match a, b with
  | x :: a', y :: b' => if String.eqb x y then S (common_prefix_length a' b') else O
  | _, _ => O
  end.

(** [os.path.relpath(path, start)] *)
Definition path_relpath (fs : filesystem) (path start : string) : string :=
  let start_list := abspath_components fs start in
  let path_list := abspath_components fs path in
  let i := common_prefix_length start_list path_list in
  match (repeat ".." (length start_list - i) ++ drop i path_list)%list with
  | [] => "."
  | c :: rel => foldl path_join c rel
  end.

End os.

(* ===================================================================== *)
(** * The classifier and the other external parts *)
(* ===================================================================== *)

(** The pretrained network, as [torch] presents it.  [Hub] is whatever
    [torch.hub.load] depends on and changes (the network, the download
    cache).  [torch_max_item output] is [torch.max(output, 1)[1].item()],
    [softmax0 output] is [softmax(output[0], dim=0)] and [Probs_item p i] is
    [p[i].item()]: any of them may raise. *)
Class Torch := {
  Model : Type;
  Output : Type;
  Probs : Type;
  Hub : Type;
  torch_hub_load : Hub -> result Model * Hub;
  Model_eval : Model -> Model;
  Model_call : Model -> list Tensor3 -> result Output;
  torch_max_item : Output -> result Z;
  softmax0 : Output -> result Probs;
  Probs_item : Probs -> Z -> result spec_float
}.

(** What the program asks of its host besides Pillow and torch:
    [os.makedirs(p, exist_ok=True)] and [image.save(p)], which may change
    the file system in any way and fail for any reason; [round(x, n)]; and
    the bytes of a ZIP archive with the given members. *)
Class Host `{pil : PIL} := {
  os_makedirs : string -> M filesystem unit;
  Image_save : Image -> string -> M filesystem unit;
  round_ndigits : spec_float -> Z -> spec_float;
  ZipFile_bytes : list (string * list byte) -> list byte
}.

(* ===================================================================== *)
(** * Requests and responses *)
(* ===================================================================== *)

(** An uploaded file part.  [file.read()] returns the bytes of the part;
    the views call it outside any [try]. *)
Module FileStorage.
Record t := { filename : string; stream : list byte }.
Definition read (file : t) : list byte := stream file.
End FileStorage.

(** [request.files]: a multi-dict from field names to file parts. *)
Record request := { files : gmap string (list FileStorage.t) }.

(** The dict [predict_image] returns.  An absent key is [None]. *)
Record ClassificationResult := {
  filename : string;
  class : string;
  confidence : option spec_float;
  error : option string;
  saved_path : option string
}.

(** The dict [predict] returns. *)
Record BatchResult := {
  results : list ClassificationResult;
  session_id : option string;
  class_counts : gmap string nat;
  total_images : nat
}.

Inductive body :=
| JsonError (msg : string)
| JsonBatch (b : BatchResult)
| JsonSessions (sessions : list string)
| Attachment (download_name : string) (data : list byte).

Record response := { status : nat; payload : body }.

(** [jsonify(x), code] *)
Definition jsonify (x : body) (code : nat) : response := {| status := code; payload := x |}.

(** The error entry both [predict_image] functions build in their handler. *)
Definition error_result (filename : string) (e : exn) : ClassificationResult :=
  {| filename := filename; class := "error"; confidence := None;
     error := Some (exc_str e); saved_path := None |}.

(** [class_counts[c] = class_counts.get(c, 0) + 1] *)
Definition count_class (c : string) (class_counts : gmap string nat) : gmap string nat :=
  <[c := (default 0 (class_counts !! c) + 1)%nat]> class_counts.

(** The body of [for file in files:], the same text in both [predict]
    views up to the arguments of [predict_image]. *)
Fixpoint predict_loop {S} (predict_image : list byte -> string -> M S ClassificationResult)
    (files : list FileStorage.t)
    (results : list ClassificationResult) (class_counts : gmap string nat)
  : M S (list ClassificationResult * gmap string nat) :=
  match files with
  | [] => ret (results, class_counts)
  | file :: files' =>
      if String.eqb (FileStorage.filename file) "" then
        predict_loop predict_image files' results class_counts
      else
        let image_bytes := FileStorage.read file in
        result <- predict_image image_bytes (FileStorage.filename file) ;;
        let results := (results ++ [result])%list in
        let class_counts :=
          if negb (String.eqb (class result) "error")
          then count_class (class result) class_counts
          else class_counts in
        predict_loop predict_image files' results class_counts
  end.

(** The first statements of both [predict_image] functions:
    [image = Image.open(io.BytesIO(image_bytes))] and
    [if image.mode != 'RGB': image = image.convert('RGB')]. *)
Definition opened_rgb `{pil : PIL} (image_bytes : list byte) : result Image :=
  result_bind (Image_open image_bytes) (fun image =>
    if negb (String.eqb (Image_mode image) "RGB")
    then Image_convert image "RGB" else Ok image).

(* ===================================================================== *)
(** * backend/app.py *)
(* ===================================================================== *)

Module backend_app.
Section WithHost.
Context `{pil : PIL} {host : Host} {torch : Torch}.
(** The module-level [model], loaded when the module is imported. *)
Context (model : Model).

Definition OUTPUT_DIR : string := "classified_images".

Definition transform (pic : Image) : result Tensor3 :=
  transforms.Normalize cifar_mean service_std
    (transforms.ToTensor (transforms.Resize (32%nat, 32%nat) pic)).

(** The statements of [predict_image] up to [transform(image)]. *)
Definition input_tensor (image_bytes : list byte) : result (Image * Tensor3) :=
  result_bind (opened_rgb image_bytes) (fun image =>
  result_bind (transform image) (fun input_tensor =>
  Ok (image, input_tensor))).

(** The [try] block of [predict_image]. *)
Definition classify (image_bytes : list byte) (filename session_id : string)
  : M filesystem ClassificationResult :=
  it <- lift (input_tensor image_bytes) ;;
  let image := fst it in
  let input_batch := unsqueeze0 (snd it) in
  output <- lift (Model_call model input_batch) ;;
  predicted_idx <- lift (torch_max_item output) ;;
  predicted_class <- lift (list_getitem CIFAR10_CLASSES predicted_idx) ;;
  let session_dir := os.path_join OUTPUT_DIR session_id in
  let class_dir := os.path_join session_dir predicted_class in
  _ <- os_makedirs class_dir ;;
  let save_path := os.path_join class_dir filename in
  _ <- Image_save image save_path ;;
  ret {| filename := filename; class := predicted_class; confidence := None;
         error := None; saved_path := Some save_path |}.

Definition predict_image (image_bytes : list byte) (filename session_id : string)
  : M filesystem ClassificationResult :=
  try_except (classify image_bytes filename session_id)
             (fun e => ret (error_result filename e)).

(** [now] is what [datetime.now().strftime("%Y%m%d_%H%M%S")] returns when
    the view runs. *)
Definition predict (now : string) (req : request) : M filesystem response :=
  match files req !! "images" with
  | None => ret (jsonify (JsonError "No images provided") 400)
  | Some files =>
      if (length files =? 0)%nat then ret (jsonify (JsonError "No images provided") 400)
      else
        let session_id := now in
        rc <- predict_loop (fun b f => predict_image b f session_id) files [] ∅ ;;
        ret (jsonify (JsonBatch {| results := fst rc;
                                   session_id := Some session_id;
                                   class_counts := snd rc;
                                   total_images := length (fst rc) |}) 200)
  end.

(** The members [download] adds to the archive: every file below the
    session directory, under its path relative to it. *)
Definition archive_members (fs : filesystem) (session_dir : string)
  : result (list (string * list byte)) :=
  foldr (fun fp acc =>
           result_bind (os.read_file fs fp) (fun data =>
           result_bind acc (fun members =>
           Ok ((os.path_relpath fs fp session_dir, data) :: members))))
        (Ok [])
        (flat_map (fun rdf => map (fun file => os.path_join (fst (fst rdf)) file) (snd rdf))
                  (os.walk fs session_dir)).

(** [zipfile.ZipFile(zip_path, 'w')] creates the file, or empties it, when
    it is opened; the archive is complete when the [with] block is left.  An
    exception that leaves the view makes Flask answer 500.  [send_file]
    reads the archive back; Flask resolves its relative path against the
    root of the application, taken here to be the working directory (the
    service is started in the directory of [app.py]). *)
Definition download (session_id : string) : M filesystem response :=
  fs <- get_state ;;
  let session_dir := os.path_join OUTPUT_DIR session_id in
  if negb (os.path_exists fs session_dir) then
    ret (jsonify (JsonError "Session not found") 404)
  else
    let zip_filename := "classified_images_" +:+ session_id +:+ ".zip" in
    let zip_path := os.path_join OUTPUT_DIR zip_filename in
    _ <- os.write_file zip_path [] ;;
    fs1 <- get_state ;;
    members <- lift (archive_members fs1 session_dir) ;;
    _ <- os.write_file zip_path (ZipFile_bytes members) ;;
    fs2 <- get_state ;;
    data <- lift (os.read_file fs2 zip_path) ;;
    ret (jsonify (Attachment zip_filename data) 200).

Definition list_sessions : M filesystem response :=
  fs <- get_state ;;
  if os.path_exists fs OUTPUT_DIR then
    ds <- lift (os.listdir fs OUTPUT_DIR) ;;
    ret (jsonify (JsonSessions
           (filter (fun d => os.path_isdir fs (os.path_join OUTPUT_DIR d) = true) ds))
           200)
  else
    ret (jsonify (JsonSessions []) 200).

End WithHost.
End backend_app.

(* ===================================================================== *)
(** * api/index.py *)
(* ===================================================================== *)

Module api_index.
Section WithHost.
Context `{pil : PIL} {host : Host} {torch : Torch}.

(** The process state of one serverless instance: the global [_model],
    what [torch.hub.load] works on, and a count of the calls of
    [torch.hub.load] made so far (a ghost: the program does not read it). *)
Record state := {
  _model : option Model;
  hub : Hub;
  loads : nat
}.

(** [get_model()], run without interruption. *)
Definition get_model : M state Model :=
  fun s =>
    match _model s with
    | None =>
        match torch_hub_load (hub s) with
        | (Ok m, h) =>
            let m := Model_eval m in
            (Ok m, {| _model := Some m; hub := h; loads := S (loads s) |})
        | (Raise e, h) =>
            (Raise e, {| _model := None; hub := h; loads := S (loads s) |})
        end
    | Some m => (Ok m, s)
    end.

(** ** [get_model()] under threads

    The interpreter may switch threads between any two of these steps of
    one call: the test [_model is None]; the call of [torch.hub.load]; the
    assignment to the global; [_model.eval()]; and [return _model], which
    reads the global again. *)
Inductive pc :=
| AtCheck
| AtLoad
| AtStore (m : Model)
| AtEval
| AtReturn
| Returned (r : result (option Model)).

Definition step (p : pc) (s : state) : pc * state :=
  match p with
  | AtCheck =>
      match _model s with
      | None => (AtLoad, s)
      | Some _ => (AtReturn, s)
      end
  | AtLoad =>
      match torch_hub_load (hub s) with
      | (Ok m, h) => (AtStore m, {| _model := _model s; hub := h; loads := S (loads s) |})
      | (Raise e, h) =>
          (Returned (Raise e), {| _model := _model s; hub := h; loads := S (loads s) |})
      end
  | AtStore m => (AtEval, {| _model := Some m; hub := hub s; loads := loads s |})
  | AtEval =>
      (AtReturn, {| _model := option_map Model_eval (_model s); hub := hub s; loads := loads s |})
  | AtReturn => (Returned (Ok (_model s)), s)
  | Returned r => (Returned r, s)
  end.

(** Threads by position, with the shared state. *)
Definition config : Type := list pc * state.

(** Thread [i] takes one step. *)
Definition step_thread (c : config) (i : nat) : config :=
  match fst c !! i with
  | Some p => let ps := step p (snd c) in (<[i := fst ps]> (fst c), snd ps)
  | None => c
  end.

(** The threads take steps in the order of the schedule. *)
Definition run (schedule : list nat) (c : config) : config :=
  foldl step_thread c schedule.

Definition transform (pic : Image) : result Tensor3 :=
  transforms.Normalize cifar_mean service_std
    (transforms.ToTensor (transforms.Resize (32%nat, 32%nat) pic)).

(** The statements of [predict_image] up to [transform(image)]. *)
Definition input_tensor (image_bytes : list byte) : result (Image * Tensor3) :=
  result_bind (opened_rgb image_bytes) (fun image =>
  result_bind (transform image) (fun input_tensor =>
  Ok (image, input_tensor))).

(** The [try] block of [predict_image]. *)
Definition classify (image_bytes : list byte) (filename : string)
  : M state ClassificationResult :=
  it <- lift (input_tensor image_bytes) ;;
  let input_batch := unsqueeze0 (snd it) in
  model <- get_model ;;
  output <- lift (Model_call model input_batch) ;;
  probabilities <- lift (softmax0 output) ;;
  predicted_idx <- lift (torch_max_item output) ;;
  predicted_class <- lift (list_getitem CIFAR10_CLASSES predicted_idx) ;;
  confidence <- lift (Probs_item probabilities predicted_idx) ;;
  ret {| filename := filename; class := predicted_class;
         confidence := Some (round_ndigits (F64.mul confidence (F64.of_Z 100)) 2);
         error := None; saved_path := None |}.

Definition predict_image (image_bytes : list byte) (filename : string)
  : M state ClassificationResult :=
  try_except (classify image_bytes filename)
             (fun e => ret (error_result filename e)).

Definition predict (req : request) : M state response :=
  match files req !! "images" with
  | None => ret (jsonify (JsonError "No images provided") 400)
  | Some files =>
      if (length files =? 0)%nat then ret (jsonify (JsonError "No images provided") 400)
      else
        rc <- predict_loop predict_image files [] ∅ ;;
        ret (jsonify (JsonBatch {| results := fst rc;
                                   session_id := None;
                                   class_counts := snd rc;
                                   total_images := length (fst rc) |}) 200)
  end.

End WithHost.
End api_index.

(* ===================================================================== *)
(** * main.py *)
(* ===================================================================== *)

Module main_script.
Section WithPIL.
Context `{pil : PIL}.

Definition transform (pic : Image) : result Tensor3 :=
  transforms.Normalize cifar_mean script_std
    (transforms.ToTensor (transforms.Resize (32%nat, 32%nat) pic)).

Definition labels : list string :=
  [ "airplane"; "automobile"; "bird"; "cat"; "deer";
    "dog"; "frog"; "horse"; "ship"; "truck" ].

End WithPIL.
End main_script.

(* ===================================================================== *)
(** * Preprocessing as a run of the process *)
(* ===================================================================== *)

(** In the handlers above a call of Pillow is a function of its
    arguments, so that running it twice cannot give two results.  Here a call
    is what it is in a running process: it may read and change [Lib], the
    state of the libraries (Pillow's plugin registry and caches, the random
    generator of [torch] that the random transforms of torchvision draw from,
    the clock), and its result may depend on it.  [call_resize] may raise:
    Pillow loads the pixels of a file when they are first used.  [ToTensor]
    and [Normalize] are the [float32] arithmetic of [transforms]. *)
Class Calls `{pil : PIL} := {
  Lib : Type;
  call_open : list byte -> M Lib Image;
  call_convert : Image -> string -> M Lib Image;
  call_resize : Image -> nat * nat -> M Lib Image
}.

Module Run.
Section WithCalls.
Context `{pil : PIL} {calls : Calls}.

(** [transforms.Resize((h, w))] *)
Definition Resize (size : nat * nat) (pic : Image) : M Lib Image :=
  call_resize pic (snd size, fst size).

(** [transform(image)]: [Compose] calls [Resize((32, 32))], [ToTensor()] and
    [Normalize(mean, std)] in this order, the same text in [backend/app.py]
    and [api/index.py]. *)
Definition transform (pic : Image) : M Lib Tensor3 :=
  resized <- Resize (32%nat, 32%nat) pic ;;
  lift (transforms.Normalize cifar_mean service_std (transforms.ToTensor resized)).

(** The statements of both [predict_image] functions up to
    [transform(image)]. *)
Definition input_tensor (image_bytes : list byte) : M Lib (Image * Tensor3) :=
  image <- call_open image_bytes ;;
  image <- (if negb (String.eqb (Image_mode image) "RGB")
            then call_convert image "RGB" else ret image) ;;
  input_tensor <- transform image ;;
  ret (image, input_tensor).

End WithCalls.
End Run.

(* ===================================================================== *)
(** * Small implementations of the external parts *)
(* ===================================================================== *)

(** Test doubles: pictures of one colour in a three-byte-header format, a
    classifier that looks at one tensor entry, and a host whose
    [makedirs] and [save] act on the modelled file system.  The theorems
    about the handlers hold for every implementation of the interfaces;
    these make the handlers runnable on concrete inputs. *)
Module Stub.

Inductive image :=
| Gray (size : nat * nat) (l : byte)
| Rgb (size : nat * nat) (r g b : byte)
| Rgba (size : nat * nat) (r g b a : byte).

Definition mode (im : image) : string :=
  match im with
  | Gray _ _ => "L"
  | Rgb _ _ _ _ => "RGB"
  | Rgba _ _ _ _ _ => "RGBA"
  end.

Definition size (im : image) : nat * nat :=
  match im with
  | Gray sz _ | Rgb sz _ _ _ | Rgba sz _ _ _ _ => sz
  end.

Definition fill (im : image) : list byte :=
  match im with
  | Gray _ l => [l]
  | Rgb _ r g b => [r; g; b]
  | Rgba _ r g b a => [r; g; b; a]
  end.

Definition bands (im : image) : nat := length (fill im).

Definition getband (im : image) (c x y : nat) : byte := nth c (fill im) x00.

Definition convert (im : image) (m : string) : result image :=
  if String.eqb m "RGB" then
    Ok match im with
       | Gray sz l => Rgb sz l l l
       | Rgb sz r g b => Rgb sz r g b
       | Rgba sz r g b _ => Rgb sz r g b
       end
  else Raise (Exception "ValueError" "conversion not supported").

Definition resize (im : image) (sz : nat * nat) : image :=
  match im with
  | Gray _ l => Gray sz l
  | Rgb _ r g b => Rgb sz r g b
  | Rgba _ r g b a => Rgba sz r g b a
  end.

Definition dim (b : byte) : nat := N.to_nat (Byte.to_N b).

(** The format: a tag for the mode, the width, the height, the colour. *)
Definition decode (data : list byte) : result image :=
  match data with
  | [x01; w; h; l] => Ok (Gray (dim w, dim h) l)
  | [x03; w; h; r; g; b] => Ok (Rgb (dim w, dim h) r g b)
  | [x04; w; h; r; g; b; a] => Ok (Rgba (dim w, dim h) r g b a)
  | _ => Raise (Exception "UnidentifiedImageError" "cannot identify image file")
  end.

Definition encode (im : image) : list byte :=
  let wh := size im in
  let header b := [b; default x00 (Byte.of_N (N.of_nat (fst wh)));
                      default x00 (Byte.of_N (N.of_nat (snd wh)))] in
  match im with
  | Gray _ _ => header x01
  | Rgb _ _ _ _ => header x03
  | Rgba _ _ _ _ _ => header x04
  end ++ fill im.

#[export, refine] Instance pil : PIL := {|
  Image := image;
  Image_open := decode;
  Image_mode := mode;
  Image_size := size;
  Image_bands := bands;
  Image_getband := getband;
  Image_convert := convert;
  Image_resize := resize
|}.
Proof.
  - intros im m im'. unfold convert.
    destruct (String.eqb_spec m "RGB") as [->|]; [|discriminate].
    intros [= <-]. now destruct im.
  - intros im. now destruct im.
  - intros im sz. now destruct im.
  - intros im sz. now destruct im.
  - intros im. now destruct im.
Defined.

(** A classifier that answers from the first entry of the first channel:
    index 3 when it is negative, index 5 otherwise.  A model is the number
    of the load that produced it. *)
#[export] Instance torch : Torch := {|
  Model := nat;
  Output := spec_float;
  Probs := spec_float;
  Hub := nat;
  torch_hub_load := fun h => (Ok h, S h);
  Model_eval := fun m => m;
  Model_call := fun _ batch =>
    match batch with
    | [((v :: _) :: _) :: _] => Ok v
    | _ => Raise (Exception "RuntimeError" "expected a batch of one image")
    end;
  torch_max_item := fun v => Ok (if SFltb v F32.zero then 3 else 5);
  softmax0 := fun _ => Ok (F64.literal 9 1);
  Probs_item := fun p _ => Ok p
|}.

(** [mkdir -p] on the modelled file system. *)
Fixpoint mkdirs (m : gmap (list string) entry) (cur : list string) (comps : list string)
  : result (gmap (list string) entry) :=
  match comps with
  | [] => Ok m
  | c :: rest =>
      if String.eqb c "" || String.eqb c "." then mkdirs m cur rest
      else if String.eqb c ".." then mkdirs m (removelast cur) rest
      else
        let k := (cur ++ [c])%list in
        match m !! k with
        | Some Dir => mkdirs m k rest
        | Some (File _) => Raise (Exception "FileExistsError" c)
        | None => mkdirs (<[k := Dir]> m) k rest
        end
  end.

Definition makedirs (p : string) : M filesystem unit :=
  fun fs =>
    match mkdirs (entries fs) (if os.startswith_sep p then [] else cwd fs) (os.split_sep p) with
    | Ok m => (Ok tt, {| entries := m; cwd := cwd fs |})
    | Raise e => (Raise e, fs)
    end.

#[export] Instance host : Host := {|
  os_makedirs := makedirs;
  Image_save := fun im p => os.write_file p (encode im);
  round_ndigits := fun x _ => x;
  ZipFile_bytes := fun members => flat_map snd members
|}.

(** A working directory that holds only the output directory. *)
Definition fresh : filesystem :=
  {| entries := <[ ["classified_images"] := Dir ]> (<[ [] := Dir ]> ∅); cwd := [] |}.

(** A 32 x 32 black RGB picture and a 2 x 2 white one, as uploaded bytes. *)
Definition black32 : list byte := [x03; x20; x20; x00; x00; x00].
Definition white2 : list byte := [x03; x02; x02; xff; xff; xff].

(** An upload of four parts: bytes that are no picture, a part without a
    file name, and the two pictures. *)
Definition uploaded : list FileStorage.t :=
  [ {| FileStorage.filename := "junk.txt"; FileStorage.stream := [x00] |};
    {| FileStorage.filename := ""; FileStorage.stream := black32 |};
    {| FileStorage.filename := "cat.jpg"; FileStorage.stream := black32 |};
    {| FileStorage.filename := "dog.png"; FileStorage.stream := white2 |} ].

Definition upload : request := {| files := <["images" := uploaded]> ∅ |}.

(** The time of the upload, as [strftime] formats it. *)
Definition now : string := "20240101_120000".

(** The file system after the upload has been classified, and after its
    archive has been downloaded once. *)
Definition classified : filesystem :=
  snd (backend_app.predict (host := host) (torch := torch) 0%nat now upload fresh).

Definition served : filesystem :=
  snd (backend_app.download (host := host) now classified).

(** A serverless instance that has not loaded the model yet. *)
Definition cold : api_index.state :=
  {| api_index._model := None; api_index.hub := 0%nat; api_index.loads := 0%nat |}.

End Stub.

(* ===================================================================== *)
(** * Vocabulary of the specification *)
(* ===================================================================== *)

(** [labelOf(index)]: the lookup [CIFAR10_CLASSES[index]] the handlers do. *)
Definition labelOf (index : Z) : result string := list_getitem CIFAR10_CLASSES index.

(** Entry [(c, y, x)] of a tensor. *)
Definition tensor_get (t : Tensor3) (c y x : nat) : option spec_float :=
  match t !! c with
  | Some ch => match ch !! y with
               | Some row => row !! x
               | None => None
               end
  | None => None
  end.

(** Whether a tensor has shape [C x H x W]. *)
Definition has_shape (t : Tensor3) (C H W : nat) : Prop :=
  length t = C /\ Forall (fun ch => length ch = H /\ Forall (fun row => length row = W) ch) t.

(** A channel value scaled to the unit interval, as [ToTensor] does it. *)
Definition scaled (b : byte) : spec_float := F32.div (F32.of_byte b) (F32.of_Z 255).

(** [(v - mean[c]) / std[c]] in single precision, the constants taken from
    the given lists of doubles. *)
Definition affine (mean std : list spec_float) (c : nat) (v : spec_float) : spec_float :=
  F32.div (F32.sub v (F32.of_float64 (nth c mean F32.zero)))
          (F32.of_float64 (nth c std F32.zero)).

(** The [3 x 32 x 32] tensor that is [(0 - mean[c]) / std[c]] throughout
    channel [c]. *)
Definition zero_image_tensor (mean std : list spec_float) : Tensor3 :=
  map (fun c => repeat (repeat (affine mean std c F32.zero) 32) 32) (seq 0 3).

(** What [Normalize] returns when it does not raise. *)
Definition normalized (mean std : list spec_float) (t : Tensor3) : Tensor3 :=
  zip_with transforms.normalize_channel t
           (zip (map F32.of_float64 mean) (map F32.of_float64 std)).

(** What the specification says of a pipeline on an RGB picture: the
    picture is resized to 32 x 32, every channel value is scaled into the
    unit interval, and entry [(c, y, x)] of the result is
    [(scaled - mean[c]) / std[c]]. *)
Definition pipeline_spec `{pil : PIL} (transform : Image -> result Tensor3)
    (mean std : list spec_float) (pic : Image) : Prop :=
  let resized := Image_resize pic (32%nat, 32%nat) in
  Image_size resized = (32%nat, 32%nat) /\
  exists t,
    transform pic = Ok t /\ has_shape t 3 32 32 /\
    forall c y x, (c < 3)%nat -> (y < 32)%nat -> (x < 32)%nat ->
      let v := scaled (Image_getband resized c x y) in
      F32.leb F32.zero v = true /\ F32.leb v F32.one = true /\
      tensor_get t c y x = Some (affine mean std c v).

(** The two forms of a classification result. *)
Definition is_success (r : ClassificationResult) : Prop :=
  class r <> "error" /\ error r = None.

Definition is_failure (r : ClassificationResult) : Prop :=
  class r = "error" /\ is_Some (error r).

(** A result is in exactly one of the two forms. *)
Definition one_form (r : ClassificationResult) : Prop :=
  (is_success r /\ ~ is_failure r) \/ (is_failure r /\ ~ is_success r).

(** The failure form as the specification words it: class ["error"] and an
    [error] field populated, that is, holding a message. *)
Definition populated_failure (r : ClassificationResult) : Prop :=
  class r = "error" /\ exists msg, error r = Some msg /\ msg <> "".

(** The failure form as the handler builds it for the exception [e]: class
    ["error"] and [str(e)] in the [error] field. *)
Definition failure_of (e : exn) (r : ClassificationResult) : Prop :=
  class r = "error" /\ error r = Some (exc_str e).

(** The form of the result [r] that [predict_image] returns, by the outcome
    of its [try] block: what the block returned, a success; or the error
    entry of the exception it raised. *)
Definition form_by (outcome : result ClassificationResult) (r : ClassificationResult)
  : Prop :=
  match outcome with
  | Ok returned => r = returned /\ is_success r /\ ~ is_failure r
  | Raise e => failure_of e r /\ is_failure r /\ ~ is_success r
  end.

(** [sum(class_counts.values())] *)
Definition values_sum (class_counts : gmap string nat) : nat :=
  map_fold (fun _ n acc => (n + acc)%nat) 0%nat class_counts.

(** The dict the loop of [predict] has built once it has appended the
    results [rs], starting from [class_counts]. *)
Definition tally (rs : list ClassificationResult) (class_counts : gmap string nat)
  : gmap string nat :=
  fold_left (fun counts r =>
               if negb (String.eqb (class r) "error")
               then count_class (class r) counts else counts)
            rs class_counts.

(** The parts of an upload that have a file name. *)
Definition named (files : list FileStorage.t) : list FileStorage.t :=
  filter (fun file => FileStorage.filename file <> "") files.

(** A name a directory entry can have. *)
Fixpoint contains_sep (s : string) : bool :=
  match s with
  | EmptyString => false
  | String c s' => Ascii.eqb c "/" || contains_sep s'
  end.

Definition valid_name (n : string) : bool :=
  negb (String.eqb n "") && negb (String.eqb n ".") && negb (String.eqb n "..")
  && negb (contains_sep n).

(** The canonical path of the output directory. *)
Definition output_root (fs : filesystem) : list string :=
  (cwd fs ++ [backend_app.OUTPUT_DIR])%list.

(** [n] names a directory directly under the output directory. *)
Definition is_session (fs : filesystem) (n : string) : Prop :=
  entries fs !! (output_root fs ++ [n])%list = Some Dir.

(** Two file systems with the same directories. *)
Definition same_dirs (fs fs' : filesystem) : Prop :=
  cwd fs = cwd fs' /\
  forall p, entries fs !! p = Some Dir <-> entries fs' !! p = Some Dir.

(** Every path of the file system is made of entry names. *)
Definition wf (fs : filesystem) : Prop :=
  map_Forall (fun k _ => Forall (fun n => valid_name n = true) k) (entries fs).

(** The ways the [try] block of [backend/app.py] fails, stage by stage:
    [backend_fails model b f sid fs e fs'] when, started in [fs] on the
    bytes [b], some statement raises [e] and leaves the file system [fs']. *)
Inductive backend_fails `{pil : PIL} {host : Host} {torch : Torch} (model : Model)
    (image_bytes : list byte) (filename session_id : string) (fs : filesystem)
  : exn -> filesystem -> Prop :=
| decode_fails e :
    Image_open image_bytes = Raise e ->
    backend_fails model image_bytes filename session_id fs e fs
| convert_fails image e :
    Image_open image_bytes = Ok image -> Image_mode image <> "RGB" ->
    Image_convert image "RGB" = Raise e ->
    backend_fails model image_bytes filename session_id fs e fs
| transform_fails image e :
    opened_rgb image_bytes = Ok image ->
    backend_app.transform image = Raise e ->
    backend_fails model image_bytes filename session_id fs e fs
| inference_fails image input_tensor e :
    backend_app.input_tensor image_bytes = Ok (image, input_tensor) ->
    Model_call model (unsqueeze0 input_tensor) = Raise e ->
    backend_fails model image_bytes filename session_id fs e fs
| argmax_fails image input_tensor output e :
    backend_app.input_tensor image_bytes = Ok (image, input_tensor) ->
    Model_call model (unsqueeze0 input_tensor) = Ok output ->
    torch_max_item output = Raise e ->
    backend_fails model image_bytes filename session_id fs e fs
| label_fails image input_tensor output predicted_idx e :
    backend_app.input_tensor image_bytes = Ok (image, input_tensor) ->
    Model_call model (unsqueeze0 input_tensor) = Ok output ->
    torch_max_item output = Ok predicted_idx ->
    labelOf predicted_idx = Raise e ->
    backend_fails model image_bytes filename session_id fs e fs
| makedirs_fails image input_tensor output predicted_idx predicted_class e fs' :
    backend_app.input_tensor image_bytes = Ok (image, input_tensor) ->
    Model_call model (unsqueeze0 input_tensor) = Ok output ->
    torch_max_item output = Ok predicted_idx ->
    labelOf predicted_idx = Ok predicted_class ->
    os_makedirs (os.path_join (os.path_join backend_app.OUTPUT_DIR session_id)
                              predicted_class) fs = (Raise e, fs') ->
    backend_fails model image_bytes filename session_id fs e fs'
| save_fails image input_tensor output predicted_idx predicted_class fs1 e fs' :
    backend_app.input_tensor image_bytes = Ok (image, input_tensor) ->
    Model_call model (unsqueeze0 input_tensor) = Ok output ->
    torch_max_item output = Ok predicted_idx ->
    labelOf predicted_idx = Ok predicted_class ->
    os_makedirs (os.path_join (os.path_join backend_app.OUTPUT_DIR session_id)
                              predicted_class) fs = (Ok tt, fs1) ->
    Image_save image
      (os.path_join (os.path_join (os.path_join backend_app.OUTPUT_DIR session_id)
                                  predicted_class) filename) fs1 = (Raise e, fs') ->
    backend_fails model image_bytes filename session_id fs e fs'.

(** The same for [api/index.py], which has no persistence step but loads
    the model on first use. *)
Inductive api_fails `{pil : PIL} {host : Host} {torch : Torch}
    (image_bytes : list byte) (filename : string) (s : api_index.state)
  : exn -> api_index.state -> Prop :=
| api_decode_fails e :
    Image_open image_bytes = Raise e ->
    api_fails image_bytes filename s e s
| api_convert_fails image e :
    Image_open image_bytes = Ok image -> Image_mode image <> "RGB" ->
    Image_convert image "RGB" = Raise e ->
    api_fails image_bytes filename s e s
| api_transform_fails image e :
    opened_rgb image_bytes = Ok image ->
    api_index.transform image = Raise e ->
    api_fails image_bytes filename s e s
| api_load_fails image input_tensor e s' :
    api_index.input_tensor image_bytes = Ok (image, input_tensor) ->
    api_index.get_model s = (Raise e, s') ->
    api_fails image_bytes filename s e s'
| api_inference_fails image input_tensor model s' e :
    api_index.input_tensor image_bytes = Ok (image, input_tensor) ->
    api_index.get_model s = (Ok model, s') ->
    Model_call model (unsqueeze0 input_tensor) = Raise e ->
    api_fails image_bytes filename s e s'
| api_softmax_fails image input_tensor model s' output e :
    api_index.input_tensor image_bytes = Ok (image, input_tensor) ->
    api_index.get_model s = (Ok model, s') ->
    Model_call model (unsqueeze0 input_tensor) = Ok output ->
    softmax0 output = Raise e ->
    api_fails image_bytes filename s e s'
| api_argmax_fails image input_tensor model s' output probabilities e :
    api_index.input_tensor image_bytes = Ok (image, input_tensor) ->
    api_index.get_model s = (Ok model, s') ->
    Model_call model (unsqueeze0 input_tensor) = Ok output ->
    softmax0 output = Ok probabilities ->
    torch_max_item output = Raise e ->
    api_fails image_bytes filename s e s'
| api_label_fails image input_tensor model s' output probabilities predicted_idx e :
    api_index.input_tensor image_bytes = Ok (image, input_tensor) ->
    api_index.get_model s = (Ok model, s') ->
    Model_call model (unsqueeze0 input_tensor) = Ok output ->
    softmax0 output = Ok probabilities ->
    torch_max_item output = Ok predicted_idx ->
    labelOf predicted_idx = Raise e ->
    api_fails image_bytes filename s e s'
| api_confidence_fails image input_tensor model s' output probabilities predicted_idx
                       predicted_class e :
    api_index.input_tensor image_bytes = Ok (image, input_tensor) ->
    api_index.get_model s = (Ok model, s') ->
    Model_call model (unsqueeze0 input_tensor) = Ok output ->
    softmax0 output = Ok probabilities ->
    torch_max_item output = Ok predicted_idx ->
    labelOf predicted_idx = Ok predicted_class ->
    Probs_item probabilities predicted_idx = Raise e ->
    api_fails image_bytes filename s e s'.

(** ** An exception without a message *)

(** A classifier whose forward pass runs out of memory: CPython raises
    [MemoryError()] without arguments, and [str(MemoryError())] is the empty
    string. *)
Definition out_of_memory : Torch := {|
  Model := unit;
  Output := unit;
  Probs := unit;
  Hub := unit;
  torch_hub_load := fun h => (Ok tt, h);
  Model_eval := fun m => m;
  Model_call := fun _ _ => Raise (Exception "MemoryError" "");
  torch_max_item := fun _ => Ok 0;
  softmax0 := fun _ => Ok tt;
  Probs_item := fun _ _ => Ok (F64.of_Z 1)
|}.

(** ** Two runs of the preprocessing *)



(** The calls are those of the interface [PIL]. *)
Definition calls_of `{pil : PIL} (calls : Calls) : Prop :=
  (forall b s, fst (call_open b s) = Image_open b) /\
  (forall im m s, fst (call_convert im m s) = Image_convert im m) /\
  (forall im sz s, fst (call_resize im sz s) = Ok (Image_resize im sz)).


(** A process whose decoder works every other time; its state counts the
    calls of the decoder. *)
Definition flaky_calls `{pil : PIL} : Calls := {|
  Lib := nat;
  call_open := fun b n =>
    (if Nat.even n then Image_open b
     else Raise (Exception "OSError" "image file is truncated"), S n);
  call_convert := fun im m n => (Image_convert im m, n);
  call_resize := fun im sz n => (Ok (Image_resize im sz), n)
|}.

(** ** Further vocabulary *)

(** A request without a file part under [images]. *)
Definition no_images (req : request) : Prop :=
  files req !! "images" = None \/ files req !! "images" = Some [].

(** The number of results of class [c]. *)
Definition class_count (c : string) (rs : list ClassificationResult) : nat :=
  length (filter (fun r => class r = c) rs).

(** A thread that is about to call [torch.hub.load], or may still decide
    to. *)
Definition may_load `{torch : Torch} (p : api_index.pc) : nat :=
  match p with
  | api_index.AtCheck | api_index.AtLoad => 1
  | _ => 0
  end.

(** What a call of [get_model()] must not do: return [None]. *)
Definition returned_model `{torch : Torch} (p : api_index.pc) : Prop :=
  match p with
  | api_index.Returned (Ok None) => False
  | _ => True
  end.

(** Where a thread stands, against the global: past the assignment the
    global is set, and nothing but a model or an exception is returned. *)
Definition pc_ok `{torch : Torch} (s : api_index.state) (p : api_index.pc) : Prop :=
  match p with
  | api_index.AtEval | api_index.AtReturn => is_Some (api_index._model s)
  | api_index.Returned (Ok None) => False
  | _ => True
  end.

(** Where a thread can stand when the global was set from the start: it
    only reads it. *)
Definition pc_warm `{torch : Torch} (s : api_index.state) (p : api_index.pc) : Prop :=
  p = api_index.AtCheck \/ p = api_index.AtReturn \/
  p = api_index.Returned (Ok (api_index._model s)).

(** [fs'] has every entry of [fs], directories as directories, and the
    same working directory. *)
Definition grows (fs fs' : filesystem) : Prop :=
  cwd fs = cwd fs' /\
  (forall p, entries fs !! p = Some Dir -> entries fs' !! p = Some Dir) /\
  (forall p, is_Some (entries fs !! p) -> is_Some (entries fs' !! p)).

(** A file system that holds one session of two pictures, as [predict]
    leaves it, and the same after the session has been downloaded. *)
Definition stored_session : filesystem :=
  {| entries :=
       list_to_map
         [ ([], Dir);
           (["classified_images"], Dir);
           (["classified_images"; "20240101_120000"], Dir);
           (["classified_images"; "20240101_120000"; "cat"], Dir);
           (["classified_images"; "20240101_120000"; "cat"; "cat.jpg"], File Stub.black32);
           (["classified_images"; "20240101_120000"; "dog"], Dir);
           (["classified_images"; "20240101_120000"; "dog"; "dog.png"], File Stub.white2) ];
     cwd := [] |}.

Definition archived_session : filesystem :=
  {| entries :=
       <[ ["classified_images"; "classified_images_20240101_120000.zip"]
          := File (Stub.black32 ++ Stub.white2) ]> (entries stored_session);
     cwd := [] |}.

(** Every entry but the root lies in a directory. *)
Definition closed (fs : filesystem) : Prop :=
  forall k n e, entries fs !! (k ++ [n])%list = Some e -> entries fs !! k = Some Dir.

(** The files strictly below the entry at [k], each under the names that
    lead to it from there, joined by separators. *)
Definition file_below (fs : filesystem) (k : list string) (name : string) (data : list byte)
  : Prop :=
  exists rel, rel <> [] /\ entries fs !! (k ++ rel)%list = Some (File data) /\
              name = String.concat "/" rel.

(** A host whose [os.makedirs] and [image.save] act on the modelled file
    system: [makedirs] as [mkdir -p] does; [save] by writing some encoding
    of the picture at the path, unless it raises and leaves the file system
    as it was. *)
Definition posix_host `{pil : PIL} (host : Host) : Prop :=
  (forall p fs, os_makedirs p fs = Stub.makedirs p fs) /\
  (forall im p fs,
     (exists data, Image_save im p fs = os.write_file p data fs) \/
     (exists e, Image_save im p fs = (Raise e, fs))).

(** What the loop of [predict] in [backend/app.py] keeps while it stores
    the pictures of the session [now], started in [fs]: the file system stays
    well formed and closed, the archive path of the session holds no
    directory unless it did, and for every result so far that is no error
    entry the session directory is there, with the picture under its class
    and file name if that is a plain name. *)
Definition session_stored (fs : filesystem) (now : string)
    (fs' : filesystem) (rs : list ClassificationResult) : Prop :=
  wf fs' /\ closed fs' /\ cwd fs' = cwd fs /\ entries fs' !! cwd fs = Some Dir /\
  (entries fs !! (output_root fs ++ ["classified_images_" +:+ now +:+ ".zip"])%list
     <> Some Dir ->
   entries fs' !! (output_root fs ++ ["classified_images_" +:+ now +:+ ".zip"])%list
     <> Some Dir) /\
  forall r, r ∈ rs -> class r <> "error" ->
    entries fs' !! (output_root fs ++ [now])%list = Some Dir /\
    (valid_name (filename r) = true ->
     exists d, entries fs' !! (output_root fs ++ [now; class r; filename r])%list
               = Some (File d)).

(* ===================================================================== *)
(** * Properties *)
(* ===================================================================== *)

(** ** The label table *)

Lemma list_getitem_nonneg {A} (l : list A) (i : Z) (x : A) :
  0 <= i -> nth_error l (Z.to_nat i) = Some x -> list_getitem l i = Ok x.
Proof.
  intros Hi Hx. unfold list_getitem.
  assert (Hlt : (Z.to_nat i < length l)%nat) by (apply nth_error_Some; congruence).
  destruct (Z.ltb_spec i 0) as [|_]; [lia|].
  destruct (Z.ltb_spec i 0) as [|_]; [lia|].
  destruct (Z.leb_spec (Z.of_nat (length l)) i) as [|_]; [lia|].
  cbn [orb]. now rewrite Hx.
Qed.

Lemma list_getitem_negative {A} (l : list A) (i : Z) (x : A) :
  - Z.of_nat (length l) <= i < 0 ->
  nth_error l (Z.to_nat (i + Z.of_nat (length l))) = Some x ->
  list_getitem l i = Ok x.
Proof.
  intros Hi Hx. unfold list_getitem.
  destruct (Z.ltb_spec i 0) as [_|]; [|lia].
  destruct (Z.ltb_spec (i + Z.of_nat (length l)) 0) as [|_]; [lia|].
  destruct (Z.leb_spec (Z.of_nat (length l)) (i + Z.of_nat (length l))) as [|_]; [lia|].
  cbn [orb]. now rewrite Hx.
Qed.

Lemma list_getitem_out_of_range {A} (l : list A) (i : Z) :
  i < - Z.of_nat (length l) \/ Z.of_nat (length l) <= i ->
  list_getitem l i = Raise (Exception "IndexError" "list index out of range").
Proof.
  intros Hi. unfold list_getitem.
  destruct (Z.ltb_spec i 0) as [Hneg|Hpos].
  - destruct (Z.ltb_spec (i + Z.of_nat (length l)) 0) as [|]; [reflexivity|lia].
  - destruct (Z.ltb_spec i 0) as [|_]; [lia|].
    destruct (Z.leb_spec (Z.of_nat (length l)) i) as [_|]; [reflexivity|lia].
Qed.

Lemma list_getitem_In {A} (l : list A) (i : Z) (x : A) :
  list_getitem l i = Ok x -> In x l.
Proof.
  unfold list_getitem.
  destruct (_ || _); [discriminate|].
  destruct (nth_error l _) eqn:E; [|discriminate].
  intros [= <-]. eapply nth_error_In, E.
Qed.

Lemma label_not_error (s : string) : In s CIFAR10_CLASSES -> s <> "error".
Proof.
  unfold CIFAR10_CLASSES. cbn [In]. intros Hs ->.
  repeat destruct Hs as [Hs|Hs]; try discriminate Hs. exact Hs.
Qed.

(** C7, as the program has it: [labelOf] returns a class name for every
    index from -10 to 9, a negative index [i] naming entry [i + 10], and
    raises [IndexError] for every other integer. *)
Theorem labelOf_range (i : Z) :
  (-10 <= i <= 9 ->
     exists s, labelOf i = Ok s /\ In s CIFAR10_CLASSES /\
               nth_error CIFAR10_CLASSES (Z.to_nat (i mod 10)) = Some s) /\
  (i < -10 \/ 9 < i ->
     labelOf i = Raise (Exception "IndexError" "list index out of range")).
Proof.
  split.
  - intros Hi.
    assert (Hm : (Z.to_nat (i mod 10) < length CIFAR10_CLASSES)%nat).
    { cbn [length CIFAR10_CLASSES]. pose proof (Z.mod_pos_bound i 10). lia. }
    destruct (nth_error CIFAR10_CLASSES (Z.to_nat (i mod 10))) as [s|] eqn:E;
      [|apply nth_error_None in E; lia].
    exists s. split; [|split; [eapply nth_error_In, E | reflexivity]].
    unfold labelOf. destruct (Z.lt_ge_cases i 0) as [Hneg|Hpos].
    + apply list_getitem_negative; cbn [length CIFAR10_CLASSES]; [lia|].
      replace (i + Z.of_nat 10) with (i mod 10); [exact E|].
      symmetry. apply Z.mod_unique with (q := -1); lia.
    + apply list_getitem_nonneg; [lia|].
      rewrite Z.mod_small in E by lia. exact E.
  - intros Hi. apply list_getitem_out_of_range. cbn [length CIFAR10_CLASSES]. lia.
Qed.

Lemma labelOf_range_witness :
  (exists s, labelOf (-3) = Ok s /\ In s CIFAR10_CLASSES /\
             nth_error CIFAR10_CLASSES (Z.to_nat (-3 mod 10)) = Some s) /\
  labelOf 10 = Raise (Exception "IndexError" "list index out of range").
Proof.
  split.
  - apply (proj1 (labelOf_range (-3))). lia.
  - apply (proj2 (labelOf_range 10)). lia.
Defined.

(** C7, as the specification words it, fails at index -1: it lies outside
    0..9 and the lookup returns the last label. *)
Lemma labelOf_minus_one :
  ~ (0 <= -1 <= 9) /\ labelOf (-1) = Ok "truck".
Proof. split; [lia | reflexivity]. Qed.

(** ** The preprocessing pipeline *)

Lemma scaled_unit_interval (b : byte) :
  F32.leb F32.zero (scaled b) = true /\ F32.leb (scaled b) F32.one = true.
Proof. destruct b; vm_compute; split; reflexivity. Qed.

Lemma map_fmap {A B} (f : A -> B) (l : list A) : map f l = f <$> l.
Proof. reflexivity. Qed.

Lemma map_const_repeat {A B} (f : A -> B) (v : B) (l : list A) :
  (forall a, In a l -> f a = v) -> map f l = repeat v (length l).
Proof.
  induction l as [|a l IH]; intros Hf; [reflexivity|].
  cbn [map length repeat]. rewrite Hf by (left; reflexivity).
  rewrite IH; [reflexivity|]. intros a' Ha'. apply Hf. now right.
Qed.

Section Preprocessing.
Context `{pil : PIL}.

Lemma ToTensor_length (pic : Image) :
  length (transforms.ToTensor pic) = Image_bands pic.
Proof.
  unfold transforms.ToTensor. destruct (Image_size pic) as [w h].
  now rewrite length_map, length_seq.
Qed.

Lemma ToTensor_get (pic : Image) (c y x : nat) :
  (c < Image_bands pic)%nat -> (x < fst (Image_size pic))%nat ->
  (y < snd (Image_size pic))%nat ->
  tensor_get (transforms.ToTensor pic) c y x = Some (scaled (Image_getband pic c x y)).
Proof.
  intros Hc Hx Hy. unfold tensor_get, transforms.ToTensor.
  destruct (Image_size pic) as [w h]. cbn [fst snd] in Hx, Hy.
  rewrite map_fmap, list_lookup_fmap, lookup_seq_lt by exact Hc.
  cbn [fmap option_fmap option_map].
  rewrite map_fmap, list_lookup_fmap, lookup_seq_lt by exact Hy.
  cbn [fmap option_fmap option_map].
  rewrite map_fmap, list_lookup_fmap, lookup_seq_lt by exact Hx. reflexivity.
Qed.

Lemma ToTensor_shape (pic : Image) :
  has_shape (transforms.ToTensor pic) (Image_bands pic)
            (snd (Image_size pic)) (fst (Image_size pic)).
Proof.
  split; [apply ToTensor_length|].
  unfold transforms.ToTensor. destruct (Image_size pic) as [w h]. cbn [fst snd].
  apply Forall_forall. intros ch Hch. apply list_elem_of_In, in_map_iff in Hch.
  destruct Hch as (c & <- & _). split; [now rewrite length_map, length_seq|].
  apply Forall_forall. intros row Hrow. apply list_elem_of_In, in_map_iff in Hrow.
  destruct Hrow as (y & <- & _). now rewrite length_map, length_seq.
Qed.

Lemma Normalize_three (mean std : list spec_float) (t : Tensor3) :
  length mean = 3%nat -> length std = 3%nat -> length t = 3%nat ->
  existsb (fun s => F32.eqb s F32.zero) (map F32.of_float64 std) = false ->
  transforms.Normalize mean std t = Ok (normalized mean std t).
Proof.
  intros Hm Hs Ht Hz. unfold transforms.Normalize. rewrite Hz.
  rewrite !length_map, Hm, Hs, Ht. reflexivity.
Qed.

Lemma normalized_get (mean std : list spec_float) (t : Tensor3) (c y x : nat) (v : spec_float) :
  (c < length mean)%nat -> (c < length std)%nat ->
  tensor_get t c y x = Some v ->
  tensor_get (normalized mean std t) c y x = Some (affine mean std c v).
Proof.
  intros Hm Hs. unfold tensor_get, normalized.
  destruct (t !! c) as [ch|] eqn:Ec; [|discriminate].
  destruct (ch !! y) as [row|] eqn:Ey; [|discriminate]. intros Ex.
  rewrite lookup_zip_with, Ec. cbn [mbind option_bind].
  rewrite lookup_zip_with, !map_fmap, !list_lookup_fmap.
  destruct (lookup_lt_is_Some_2 mean c Hm) as [m Em].
  destruct (lookup_lt_is_Some_2 std c Hs) as [s Es].
  rewrite Em, Es. cbn [fmap option_fmap option_map mbind option_bind].
  unfold transforms.normalize_channel. cbn [fst snd].
  rewrite map_fmap, list_lookup_fmap, Ey. cbn [fmap option_fmap option_map].
  rewrite map_fmap, list_lookup_fmap, Ex. cbn [fmap option_fmap option_map].
  unfold affine. f_equal. f_equal; [f_equal|]; f_equal; symmetry.
  - apply nth_lookup_Some with (d := F32.zero) in Em. exact Em.
  - apply nth_lookup_Some with (d := F32.zero) in Es. exact Es.
Qed.

Lemma normalized_shape (mean std : list spec_float) (t : Tensor3) (h w : nat) :
  length mean = 3%nat -> length std = 3%nat ->
  has_shape t 3 h w -> has_shape (normalized mean std t) 3 h w.
Proof.
  intros Hm Hs [Ht Hall]. unfold normalized. split.
  - rewrite length_zip_with, length_zip, !length_map. lia.
  - apply Forall_forall. intros ch Hch.
    apply list_elem_of_lookup in Hch. destruct Hch as [c Hc].
    apply lookup_zip_with_Some in Hc. destruct Hc as (ch0 & ms & -> & Hch0 & _).
    rewrite Forall_forall in Hall.
    destruct (Hall ch0) as [Hlen Hrows]; [eapply list_elem_of_lookup_2, Hch0|].
    unfold transforms.normalize_channel. split; [now rewrite length_map|].
    apply Forall_forall. intros row Hrow. apply list_elem_of_In, in_map_iff in Hrow.
    destruct Hrow as (row0 & <- & Hrow0). rewrite length_map.
    rewrite Forall_forall in Hrows. apply Hrows, list_elem_of_In, Hrow0.
Qed.

Lemma pipeline_correct (mean std : list spec_float) (pic : Image) :
  length mean = 3%nat -> length std = 3%nat ->
  existsb (fun s => F32.eqb s F32.zero) (map F32.of_float64 std) = false ->
  Image_mode pic = "RGB" ->
  pipeline_spec
    (fun pic => transforms.Normalize mean std
                  (transforms.ToTensor (transforms.Resize (32%nat, 32%nat) pic)))
    mean std pic.
Proof.
  intros Hm Hs Hz Hrgb. unfold pipeline_spec, transforms.Resize. cbn [fst snd].
  set (resized := Image_resize pic (32%nat, 32%nat)).
  assert (Hsize : Image_size resized = (32%nat, 32%nat)) by apply resize_size.
  assert (Hbands : Image_bands resized = 3%nat).
  { apply RGB_bands. unfold resized. now rewrite resize_mode. }
  split; [exact Hsize|].
  exists (normalized mean std (transforms.ToTensor resized)). split; [|split].
  - apply Normalize_three; try assumption. now rewrite ToTensor_length.
  - apply normalized_shape; try assumption.
    pose proof (ToTensor_shape resized) as Hsh.
    now rewrite Hbands, Hsize in Hsh.
  - intros c y x Hc Hy Hx. cbv zeta.
    destruct (scaled_unit_interval (Image_getband resized c x y)) as [H0 H1].
    split; [exact H0|]. split; [exact H1|].
    apply normalized_get; [lia | lia |].
    apply ToTensor_get; rewrite ?Hbands, ?Hsize; cbn [fst snd]; assumption.
Qed.

Lemma pipeline_zero_image (mean std : list spec_float) (pic : Image) :
  length mean = 3%nat -> length std = 3%nat ->
  existsb (fun s => F32.eqb s F32.zero) (map F32.of_float64 std) = false ->
  Image_mode pic = "RGB" -> Image_size pic = (32%nat, 32%nat) ->
  (forall c x y, (c < 3)%nat -> (x < 32)%nat -> (y < 32)%nat ->
                 Image_getband pic c x y = x00) ->
  transforms.Normalize mean std
    (transforms.ToTensor (transforms.Resize (32%nat, 32%nat) pic))
  = Ok (zero_image_tensor mean std).
Proof.
  intros Hm Hs Hz Hrgb Hsize Hzero. unfold transforms.Resize. cbn [fst snd].
  rewrite <- Hsize, resize_same.
  rewrite Normalize_three; try assumption;
    [|now rewrite ToTensor_length, RGB_bands].
  f_equal. unfold transforms.ToTensor. rewrite Hsize, RGB_bands by exact Hrgb.
  rewrite (map_const_repeat _ (repeat (repeat F32.zero 32) 32)).
  2:{ intros c Hc%in_seq.
      rewrite (map_const_repeat _ (repeat F32.zero 32)); [now rewrite length_seq|].
      intros y Hy%in_seq. rewrite (map_const_repeat _ F32.zero); [now rewrite length_seq|].
      intros x Hx%in_seq. rewrite Hzero by lia. reflexivity. }
  rewrite length_seq.
  destruct mean as [|m0 [|m1 [|m2 [|]]]]; try discriminate Hm.
  destruct std as [|s0 [|s1 [|s2 [|]]]]; try discriminate Hs.
  reflexivity.
Qed.

(** What [opened_rgb] returns is an RGB picture. *)
Lemma opened_rgb_mode b image : opened_rgb b = Ok image -> Image_mode image = "RGB".
Proof.
  unfold opened_rgb. destruct (Image_open b) as [im|]; [|discriminate].
  cbn [result_bind]. destruct (String.eqb_spec (Image_mode im) "RGB") as [E|E]; cbn [negb].
  - now intros [= <-].
  - apply convert_mode.
Qed.

End Preprocessing.

Lemma service_std_nonzero :
  existsb (fun s => F32.eqb s F32.zero) (map F32.of_float64 service_std) = false.
Proof. vm_compute. reflexivity. Qed.

Lemma script_std_nonzero :
  existsb (fun s => F32.eqb s F32.zero) (map F32.of_float64 script_std) = false.
Proof. vm_compute. reflexivity. Qed.


(** C6, as the programs have it: on every RGB picture (which is what the
    handlers and the script pass to [transform]) the pipelines of
    [backend/app.py] and [api/index.py] resize to 32 x 32, scale every
    channel value into [0, 1] and return [(scaled - mean[c]) / std[c]] with
    mean = [0.4914, 0.4822, 0.4465] and std = [0.2023, 0.1994, 0.2010]; the
    pipeline of [main.py] does the same with std = [0.2470, 0.2435, 0.2616];
    and a black 32 x 32 RGB picture gives the constant tensor
    [(0 - mean[c]) / std[c]] of the pipeline's own constants. *)
Theorem transform_pipelines `{pil : PIL} (pic : Image) :
  Image_mode pic = "RGB" ->
  pipeline_spec backend_app.transform cifar_mean service_std pic /\
  pipeline_spec api_index.transform cifar_mean service_std pic /\
  pipeline_spec main_script.transform cifar_mean script_std pic /\
  (Image_size pic = (32%nat, 32%nat) ->
   (forall c x y, (c < 3)%nat -> (x < 32)%nat -> (y < 32)%nat ->
                  Image_getband pic c x y = x00) ->
   backend_app.transform pic = Ok (zero_image_tensor cifar_mean service_std) /\
   api_index.transform pic = Ok (zero_image_tensor cifar_mean service_std) /\
   main_script.transform pic = Ok (zero_image_tensor cifar_mean script_std)).
Proof.
  intros Hrgb.
  pose proof service_std_nonzero as Hz1. pose proof script_std_nonzero as Hz2.
  split; [|split; [|split]].
  1-3: apply pipeline_correct; auto.
  intros Hsize Hzero.
  unfold backend_app.transform, api_index.transform, main_script.transform.
  split; [|split]; apply pipeline_zero_image; auto.
Qed.

Lemma transform_pipelines_witness :
  let pic := Stub.Rgb (32%nat, 32%nat) x00 x00 x00 in
  pipeline_spec (pil := Stub.pil) backend_app.transform cifar_mean service_std pic /\
  backend_app.transform (pil := Stub.pil) pic = Ok (zero_image_tensor cifar_mean service_std).
Proof.
  cbv zeta.
  pose proof (transform_pipelines (pil := Stub.pil)
                (Stub.Rgb (32%nat, 32%nat) x00 x00 x00) eq_refl) as (Hb & _ & _ & Hzero).
  split; [exact Hb|].
  apply Hzero; [reflexivity|]. intros c x y Hc _ _.
  destruct c as [|[|[|c]]]; [reflexivity..|lia].
Defined.

(** C6, as the specification words it, fails for the pipeline of [main.py]:
    on a black 32 x 32 RGB picture its first entry is
    [(0 - 0.4914) / 0.2470], which is not [(0 - 0.4914) / 0.2023]. *)
Lemma main_script_std_differs :
  let pic := Stub.Rgb (32%nat, 32%nat) x00 x00 x00 in
  exists t,
    main_script.transform (pil := Stub.pil) pic = Ok t /\
    tensor_get t 0 0 0 = Some (affine cifar_mean script_std 0 F32.zero) /\
    affine cifar_mean script_std 0 F32.zero <> affine cifar_mean service_std 0 F32.zero.
Proof.
  cbv zeta. eexists. split; [vm_compute; reflexivity|].
  split; [vm_compute; reflexivity|]. vm_compute. discriminate.
Qed.

(** ** Two runs of the preprocessing *)




Section Runs.
Context `{pil : PIL} {calls : Calls}.



(** A run computes what the handlers' [input_tensor] is defined to be. *)
Lemma run_input_tensor (b : list byte) (s : Lib) :
  calls_of calls ->
  fst (Run.input_tensor b s) = backend_app.input_tensor b /\
  fst (Run.input_tensor b s) = api_index.input_tensor b.
Proof.
  intros (Hopen & Hconvert & Hresize).
  assert (fst (Run.input_tensor b s) = backend_app.input_tensor b) as H; [|now split].
  unfold Run.input_tensor, backend_app.input_tensor, opened_rgb.
  unfold bind at 1. rewrite <- (Hopen b s).
  destruct (call_open b s) as [[image|e] s1]; cbn [fst result_bind]; [|reflexivity].
  unfold bind at 1.
  assert (fst ((if negb (Image_mode image =? "RGB")%string
                then call_convert image "RGB" else ret image) s1)
          = (if negb (Image_mode image =? "RGB")%string
             then Image_convert image "RGB" else Ok image)) as Hc.
  { destruct (negb _); [apply Hconvert|reflexivity]. }
  destruct ((if negb (Image_mode image =? "RGB")%string
             then call_convert image "RGB" else ret image) s1) as [[image'|e] s2];
    cbn [fst] in Hc; rewrite <- Hc; cbn [result_bind]; [|reflexivity].
  unfold Run.transform, Run.Resize, backend_app.transform, transforms.Resize.
  unfold bind at 1. unfold bind at 1. cbn [fst snd].
  specialize (Hresize image' (32%nat, 32%nat) s2).
  destruct (call_resize image' (32%nat, 32%nat) s2) as [[resized|e] s3];
    cbn [fst] in Hresize; [|discriminate].
  injection Hresize as ->. unfold lift.
  destruct (transforms.Normalize _ _ _); reflexivity.
Qed.

End Runs.



(** Without the assumption on the library the runs can differ. *)
Example flaky_runs_differ :
  fst (Run.input_tensor (calls := flaky_calls (pil := Stub.pil)) Stub.black32 0%nat)
  <> fst (Run.input_tensor (calls := flaky_calls (pil := Stub.pil)) Stub.black32
            (snd (Run.input_tensor (calls := flaky_calls (pil := Stub.pil)) Stub.black32 0%nat))).
Proof. vm_compute. discriminate. Qed.

(** ** The batch orchestrator *)

Lemma bind_Ok_inv {S A B} (m : M S A) (k : A -> M S B) s b s' :
  bind m k s = (Ok b, s') -> exists a s1, m s = (Ok a, s1) /\ k a s1 = (Ok b, s').
Proof. unfold bind. destruct (m s) as [[a|e] s1]; [eauto|discriminate]. Qed.

Lemma lift_Ok_inv {S A} (r : result A) (s : S) a s' :
  lift r s = (Ok a, s') -> r = Ok a /\ s' = s.
Proof. unfold lift. now intros [= -> ->]. Qed.

Lemma get_state_inv {S} (s a s' : S) : get_state s = (Ok a, s') -> a = s /\ s' = s.
Proof. unfold get_state. now intros [= -> ->]. Qed.

Lemma bind_get_state {S B} (k : S -> M S B) (s : S) : bind get_state k s = k s s.
Proof. reflexivity. Qed.

Lemma bind_lift_Ok {S A B} (r : result A) (k : A -> M S B) a s :
  r = Ok a -> bind (lift r) k s = k a s.
Proof. now intros ->. Qed.

Lemma bind_lift_Raise {S A B} (r : result A) (k : A -> M S B) e s :
  r = Raise e -> bind (lift r) k s = (Raise e, s).
Proof. now intros ->. Qed.

Lemma bind_Ok {S A B} (m : M S A) (k : A -> M S B) a s s1 :
  m s = (Ok a, s1) -> bind m k s = k a s1.
Proof. unfold bind. now intros ->. Qed.

Lemma bind_Raise {S A B} (m : M S A) (k : A -> M S B) e s s1 :
  m s = (Raise e, s1) -> bind m k s = (Raise e, s1).
Proof. unfold bind. now intros ->. Qed.

Lemma try_except_Raise {S A} (body : M S A) (handler : exn -> M S A) e s s1 :
  body s = (Raise e, s1) -> try_except body handler s = handler e s1.
Proof. unfold try_except. now intros ->. Qed.

Lemma values_sum_count_class (c : string) (m : gmap string nat) :
  values_sum (count_class c m) = S (values_sum m).
Proof.
  unfold values_sum, count_class.
  destruct (m !! c) as [n|] eqn:E; cbn [from_option id].
  - rewrite <- insert_delete_eq.
    rewrite map_fold_insert_L; [|intros; lia|apply lookup_delete_eq].
    rewrite (map_fold_delete_L _ _ c n m); [lia|intros; lia|exact E].
  - rewrite map_fold_insert_L; [lia|intros; lia|exact E].
Qed.

Lemma values_sum_empty : values_sum ∅ = 0%nat.
Proof. apply map_fold_empty. Qed.

Lemma tally_snoc rs r counts :
  tally (rs ++ [r]) counts =
  if negb (String.eqb (class r) "error")
  then count_class (class r) (tally rs counts) else tally rs counts.
Proof. unfold tally. now rewrite fold_left_app. Qed.

(** The counts add up to the number of results that are no error entries. *)
Lemma values_sum_tally rs counts :
  values_sum (tally rs counts) =
  (values_sum counts + length (filter (fun r => class r <> "error") rs))%nat.
Proof.
  revert counts. induction rs as [|r rs IH]; intros counts.
  - cbn. lia.
  - change (tally (r :: rs) counts) with
      (tally rs (if negb (String.eqb (class r) "error")
                 then count_class (class r) counts else counts)).
    rewrite IH, filter_cons.
    destruct (String.eqb_spec (class r) "error") as [E|E]; cbn [negb];
      destruct (decide (class r <> "error")) as [D|D]; try contradiction.
    + lia.
    + rewrite values_sum_count_class. cbn [length]. lia.
Qed.

(** An error entry is never counted: the key ["error"] is never written. *)
Lemma tally_error_key rs counts : tally rs counts !! "error" = counts !! "error".
Proof.
  revert counts. induction rs as [|r rs IH]; intros counts; [reflexivity|].
  change (tally (r :: rs) counts) with
    (tally rs (if negb (String.eqb (class r) "error")
               then count_class (class r) counts else counts)).
  rewrite IH. destruct (String.eqb_spec (class r) "error") as [E|E]; cbn [negb];
    [reflexivity|].
  unfold count_class. now rewrite lookup_insert_ne.
Qed.

Section Loop.
Context {S : Type} (predict_image : list byte -> string -> M S ClassificationResult).
Context (P : ClassificationResult -> Prop).
Hypothesis predict_image_returns :
  forall b f s, exists r s', predict_image b f s = (Ok r, s') /\ filename r = f /\ P r.

(** The loop never raises; it appends one result per named file, in
    order, and counts the classes of those that are no error entries. *)
Lemma predict_loop_spec files : forall results counts s,
  exists rs s',
    predict_loop predict_image files results counts s
      = (Ok ((results ++ rs)%list, tally rs counts), s') /\
    map filename rs = map FileStorage.filename (named files) /\
    Forall P rs /\
    Forall2 (fun file r =>
               exists s0 s1,
                 predict_image (FileStorage.read file) (FileStorage.filename file) s0
                 = (Ok r, s1))
            (named files) rs.
Proof.
  induction files as [|file files IH]; intros results counts s.
  - exists [], s. cbn. rewrite app_nil_r. repeat split; constructor.
  - cbn [predict_loop]. unfold named. rewrite filter_cons.
    destruct (String.eqb_spec (FileStorage.filename file) "") as [E|E];
      destruct (decide (FileStorage.filename file <> "")) as [D|D];
      try contradiction.
    + apply IH.
    + destruct (predict_image_returns (FileStorage.read file)
                  (FileStorage.filename file) s) as (r & s1 & Hr & Hf & HP).
      rewrite (bind_Ok _ _ _ _ _ Hr).
      destruct (IH (results ++ [r])%list
                   (if negb (String.eqb (class r) "error")
                    then count_class (class r) counts else counts) s1)
        as (rs & s' & Hloop & Hnames & Hall & Heach).
      exists (r :: rs), s'. split; [|split; [|split]].
      * rewrite Hloop. now rewrite <- app_assoc.
      * cbn [map]. now rewrite Hf, Hnames.
      * now constructor.
      * constructor; [eauto|exact Heach].
Qed.
End Loop.

Ltac bind_inv H :=
  repeat match type of H with
         | bind _ _ _ = (Ok _, _) =>
             let a := fresh "a" in
             let s1 := fresh "s" in
             let H1 := fresh "Hstep" in
             apply bind_Ok_inv in H as (a & s1 & H1 & H);
             first [ apply get_state_inv in H1 as [-> ->]
                   | apply lift_Ok_inv in H1 as [H1 ->]
                   | idtac ];
             cbv beta zeta in H
         end.

Ltac step_ok H :=
  first [ rewrite (bind_lift_Ok _ _ _ _ H) | rewrite (bind_Ok _ _ _ _ _ H) ];
  cbv beta zeta; cbn [fst snd].

Ltac step_raise H :=
  first [ rewrite (bind_lift_Raise _ _ _ _ H) | rewrite (bind_Raise _ _ _ _ _ H) ];
  reflexivity.

Lemma error_result_one_form f e : one_form (error_result f e).
Proof.
  right. split; [split; [reflexivity|eexists; reflexivity]|].
  intros [Hc _]. now apply Hc.
Qed.

Lemma success_one_form (r : ClassificationResult) :
  In (class r) CIFAR10_CLASSES -> error r = None -> one_form r.
Proof.
  intros Hin Herr. left. pose proof (label_not_error _ Hin) as Hne.
  split; [split; assumption|]. intros [Hc _]. contradiction.
Qed.

Section Handlers.
Context `{pil : PIL} {host : Host} {torch : Torch}.

Lemma opened_rgb_decode_fails b e :
  Image_open b = Raise e -> opened_rgb b = Raise e.
Proof. unfold opened_rgb. now intros ->. Qed.

Lemma opened_rgb_convert_fails b image e :
  Image_open b = Ok image -> Image_mode image <> "RGB" ->
  Image_convert image "RGB" = Raise e -> opened_rgb b = Raise e.
Proof.
  unfold opened_rgb. intros -> Hmode Hconv. cbn [result_bind].
  destruct (String.eqb_spec (Image_mode image) "RGB"); [contradiction|].
  exact Hconv.
Qed.

(** ** [backend/app.py] *)

Lemma backend_input_tensor_fails b e :
  opened_rgb b = Raise e -> backend_app.input_tensor b = Raise e.
Proof. unfold backend_app.input_tensor. now intros ->. Qed.

Lemma backend_transform_fails b image e :
  opened_rgb b = Ok image -> backend_app.transform image = Raise e ->
  backend_app.input_tensor b = Raise e.
Proof. unfold backend_app.input_tensor. intros -> Ht. cbn [result_bind]. now rewrite Ht. Qed.

Lemma backend_classify_fails model b f sid fs e fs' :
  backend_fails model b f sid fs e fs' ->
  backend_app.classify model b f sid fs = (Raise e, fs').
Proof.
  intros Hf. unfold backend_app.classify.
  destruct Hf as [e H1|image e H1 H2 H3|image e H1 H2
                 |image t e H1 H2|image t out e H1 H2 H3
                 |image t out i e H1 H2 H3 H4
                 |image t out i c e fs' H1 H2 H3 H4 H5
                 |image t out i c fs1 e fs' H1 H2 H3 H4 H5 H6].
  - step_raise (backend_input_tensor_fails _ _ (opened_rgb_decode_fails _ _ H1)).
  - step_raise (backend_input_tensor_fails _ _ (opened_rgb_convert_fails _ _ _ H1 H2 H3)).
  - step_raise (backend_transform_fails _ _ _ H1 H2).
  - step_ok H1. step_raise H2.
  - step_ok H1. step_ok H2. step_raise H3.
  - step_ok H1. step_ok H2. step_ok H3. unfold labelOf in H4. step_raise H4.
  - step_ok H1. step_ok H2. step_ok H3. unfold labelOf in H4. step_ok H4.
    step_raise H5.
  - step_ok H1. step_ok H2. step_ok H3. unfold labelOf in H4. step_ok H4.
    step_ok H5. step_raise H6.
Qed.

Lemma backend_failure_reported model b f sid fs e fs' :
  backend_fails model b f sid fs e fs' ->
  backend_app.predict_image model b f sid fs = (Ok (error_result f e), fs').
Proof.
  intros Hf. unfold backend_app.predict_image.
  now rewrite (try_except_Raise _ _ _ _ _ (backend_classify_fails _ _ _ _ _ _ _ Hf)).
Qed.

Lemma backend_classify_success model b f sid fs r fs' :
  backend_app.classify model b f sid fs = (Ok r, fs') ->
  filename r = f /\ In (class r) CIFAR10_CLASSES /\ error r = None /\
  is_Some (saved_path r).
Proof.
  unfold backend_app.classify. intros H. bind_inv H.
  unfold ret in H. injection H as <- <-.
  cbn [filename class error saved_path confidence].
  split; [reflexivity|]. split; [|split; [reflexivity|eexists; reflexivity]].
  eapply list_getitem_In. eassumption.
Qed.

Lemma backend_predict_image_returns model sid b f fs :
  exists r fs',
    backend_app.predict_image model b f sid fs = (Ok r, fs') /\
    filename r = f /\ one_form r.
Proof.
  unfold backend_app.predict_image, try_except.
  destruct (backend_app.classify model b f sid fs) as [[r|e] fs'] eqn:E.
  - exists r, fs'. split; [reflexivity|].
    apply backend_classify_success in E as (Hf & Hin & Herr & _).
    split; [exact Hf|]. now apply success_one_form.
  - exists (error_result f e), fs'. split; [reflexivity|].
    split; [reflexivity|apply error_result_one_form].
Qed.

(** What [predict] answers: 400 without files, and otherwise 200 with one
    result per named file, in order. *)
Lemma backend_predict_spec model now req fs :
  match files req !! "images" with
  | Some (file :: fl) =>
      exists rs fs',
        backend_app.predict model now req fs
          = (Ok (jsonify (JsonBatch {| results := rs;
                                       session_id := Some now;
                                       class_counts := tally rs ∅;
                                       total_images := length rs |}) 200), fs') /\
        map filename rs = map FileStorage.filename (named (file :: fl)) /\
        Forall one_form rs /\
        Forall2 (fun file r =>
                   exists s0 s1,
                     backend_app.predict_image model (FileStorage.read file)
                       (FileStorage.filename file) now s0 = (Ok r, s1))
                (named (file :: fl)) rs
  | _ => backend_app.predict model now req fs
           = (Ok (jsonify (JsonError "No images provided") 400), fs)
  end.
Proof.
  unfold backend_app.predict.
  destruct (files req !! "images") as [[|file fl]|]; try reflexivity.
  cbn [length Nat.eqb]. cbv zeta.
  destruct (predict_loop_spec
              (fun b f => backend_app.predict_image model b f now)
              one_form (backend_predict_image_returns model now)
              (file :: fl) [] ∅ fs) as (rs & fs' & Hloop & Hnames & Hall & Heach).
  exists rs, fs'. split; [|split; [|split]; assumption].
  rewrite (bind_Ok _ _ _ _ _ Hloop). reflexivity.
Qed.

(** ** [api/index.py] *)

Lemma api_input_tensor_fails b e :
  opened_rgb b = Raise e -> api_index.input_tensor b = Raise e.
Proof. unfold api_index.input_tensor. now intros ->. Qed.

Lemma api_transform_fails_input b image e :
  opened_rgb b = Ok image -> api_index.transform image = Raise e ->
  api_index.input_tensor b = Raise e.
Proof. unfold api_index.input_tensor. intros -> Ht. cbn [result_bind]. now rewrite Ht. Qed.

Lemma api_classify_fails b f s e s' :
  api_fails b f s e s' -> api_index.classify b f s = (Raise e, s').
Proof.
  intros Hf. unfold api_index.classify.
  destruct Hf as [e H1|image e H1 H2 H3|image e H1 H2
                 |image t e s' H1 H2|image t m s' e H1 H2 H3
                 |image t m s' out e H1 H2 H3 H4
                 |image t m s' out p e H1 H2 H3 H4 H5
                 |image t m s' out p i e H1 H2 H3 H4 H5 H6
                 |image t m s' out p i c e H1 H2 H3 H4 H5 H6 H7].
  - step_raise (api_input_tensor_fails _ _ (opened_rgb_decode_fails _ _ H1)).
  - step_raise (api_input_tensor_fails _ _ (opened_rgb_convert_fails _ _ _ H1 H2 H3)).
  - step_raise (api_transform_fails_input _ _ _ H1 H2).
  - step_ok H1. step_raise H2.
  - step_ok H1. step_ok H2. step_raise H3.
  - step_ok H1. step_ok H2. step_ok H3. step_raise H4.
  - step_ok H1. step_ok H2. step_ok H3. step_ok H4. step_raise H5.
  - step_ok H1. step_ok H2. step_ok H3. step_ok H4. step_ok H5.
    unfold labelOf in H6. step_raise H6.
  - step_ok H1. step_ok H2. step_ok H3. step_ok H4. step_ok H5.
    unfold labelOf in H6. step_ok H6. step_raise H7.
Qed.

Lemma api_failure_reported b f s e s' :
  api_fails b f s e s' ->
  api_index.predict_image b f s = (Ok (error_result f e), s').
Proof.
  intros Hf. unfold api_index.predict_image.
  now rewrite (try_except_Raise _ _ _ _ _ (api_classify_fails _ _ _ _ _ Hf)).
Qed.

Lemma api_classify_success b f s r s' :
  api_index.classify b f s = (Ok r, s') ->
  filename r = f /\ In (class r) CIFAR10_CLASSES /\ error r = None /\
  is_Some (confidence r).
Proof.
  unfold api_index.classify. intros H. bind_inv H.
  unfold ret in H. injection H as <- <-.
  cbn [filename class error saved_path confidence].
  split; [reflexivity|]. split; [|split; [reflexivity|eexists; reflexivity]].
  eapply list_getitem_In. eassumption.
Qed.

Lemma api_predict_image_returns b f s :
  exists r s',
    api_index.predict_image b f s = (Ok r, s') /\ filename r = f /\ one_form r.
Proof.
  unfold api_index.predict_image, try_except.
  destruct (api_index.classify b f s) as [[r|e] s'] eqn:E.
  - exists r, s'. split; [reflexivity|].
    apply api_classify_success in E as (Hf & Hin & Herr & _).
    split; [exact Hf|]. now apply success_one_form.
  - exists (error_result f e), s'. split; [reflexivity|].
    split; [reflexivity|apply error_result_one_form].
Qed.

Lemma api_predict_spec req s :
  match files req !! "images" with
  | Some (file :: fl) =>
      exists rs s',
        api_index.predict req s
          = (Ok (jsonify (JsonBatch {| results := rs;
                                       session_id := None;
                                       class_counts := tally rs ∅;
                                       total_images := length rs |}) 200), s') /\
        map filename rs = map FileStorage.filename (named (file :: fl)) /\
        Forall one_form rs /\
        Forall2 (fun file r =>
                   exists s0 s1,
                     api_index.predict_image (FileStorage.read file)
                       (FileStorage.filename file) s0 = (Ok r, s1))
                (named (file :: fl)) rs
  | _ => api_index.predict req s
           = (Ok (jsonify (JsonError "No images provided") 400), s)
  end.
Proof.
  unfold api_index.predict.
  destruct (files req !! "images") as [[|file fl]|]; try reflexivity.
  cbn [length Nat.eqb].
  destruct (predict_loop_spec api_index.predict_image one_form
              api_predict_image_returns (file :: fl) [] ∅ s)
    as (rs & s' & Hloop & Hnames & Hall & Heach).
  exists rs, s'. split; [|split; [|split]; assumption].
  rewrite (bind_Ok _ _ _ _ _ Hloop). reflexivity.
Qed.

End Handlers.

(** C1: in both [predict_image] functions a failure of any stage of the
    [try] block (decoding, conversion, preprocessing, model loading,
    inference, label lookup, and in the backend [makedirs] and [save]) gives
    a result with class ["error"] and the message in its [error] field; and
    both [predict] views answer 200 with one result per named file, in the
    order of the upload, each being what [predict_image] returned for that
    file, whatever failed on the way. *)
Theorem per_image_failure_isolated `{pil : PIL} {host : Host} {torch : Torch}
    (model : Model) :
  (forall b f sid fs e fs',
     backend_fails model b f sid fs e fs' ->
     exists r,
       backend_app.predict_image model b f sid fs = (Ok r, fs') /\
       filename r = f /\ class r = "error" /\ error r = Some (exc_str e)) /\
  (forall b f s e s',
     api_fails b f s e s' ->
     exists r,
       api_index.predict_image b f s = (Ok r, s') /\
       filename r = f /\ class r = "error" /\ error r = Some (exc_str e)) /\
  (forall now req fl fs,
     files req !! "images" = Some fl -> fl <> [] ->
     exists batch fs',
       backend_app.predict model now req fs = (Ok (jsonify (JsonBatch batch) 200), fs') /\
       map filename (results batch) = map FileStorage.filename (named fl) /\
       Forall2 (fun file r =>
                  exists s0 s1,
                    backend_app.predict_image model (FileStorage.read file)
                      (FileStorage.filename file) now s0 = (Ok r, s1))
               (named fl) (results batch)) /\
  (forall req fl s,
     files req !! "images" = Some fl -> fl <> [] ->
     exists batch s',
       api_index.predict req s = (Ok (jsonify (JsonBatch batch) 200), s') /\
       map filename (results batch) = map FileStorage.filename (named fl) /\
       Forall2 (fun file r =>
                  exists s0 s1,
                    api_index.predict_image (FileStorage.read file)
                      (FileStorage.filename file) s0 = (Ok r, s1))
               (named fl) (results batch)).
Proof.
  split; [|split; [|split]].
  - intros b f sid fs e fs' Hf. exists (error_result f e).
    split; [now apply backend_failure_reported|]. repeat split.
  - intros b f s e s' Hf. exists (error_result f e).
    split; [now apply api_failure_reported|]. repeat split.
  - intros now req fl fs Hfl Hne. pose proof (backend_predict_spec model now req fs) as Hs.
    rewrite Hfl in Hs. destruct fl as [|file fl]; [contradiction|].
    destruct Hs as (rs & fs' & Hp & Hnames & _ & Heach). eauto.
  - intros req fl s Hfl Hne. pose proof (api_predict_spec req s) as Hs.
    rewrite Hfl in Hs. destruct fl as [|file fl]; [contradiction|].
    destruct Hs as (rs & s' & Hp & Hnames & _ & Heach). eauto.
Qed.

Lemma per_image_failure_isolated_witness :
  (exists r,
     backend_app.predict_image (host := Stub.host) (torch := Stub.torch) 0%nat
       [x00] "junk.txt" "20240101_120000" Stub.fresh = (Ok r, Stub.fresh) /\
     filename r = "junk.txt" /\ class r = "error" /\
     error r = Some "cannot identify image file") /\
  (exists batch fs',
     backend_app.predict (host := Stub.host) (torch := Stub.torch) 0%nat Stub.now
       Stub.upload Stub.fresh = (Ok (jsonify (JsonBatch batch) 200), fs') /\
     map filename (results batch) = ["junk.txt"; "cat.jpg"; "dog.png"] /\
     Forall2 (fun file r =>
                exists s0 s1,
                  backend_app.predict_image (host := Stub.host) (torch := Stub.torch)
                    0%nat (FileStorage.read file) (FileStorage.filename file)
                    Stub.now s0 = (Ok r, s1))
             (named Stub.uploaded) (results batch)).
Proof.
  pose proof (per_image_failure_isolated (host := Stub.host) (torch := Stub.torch) 0%nat)
    as (Hfail & _ & Hbatch & _).
  split.
  - apply (Hfail [x00] "junk.txt" "20240101_120000" Stub.fresh
                 (Exception "UnidentifiedImageError" "cannot identify image file")).
    apply decode_fails. reflexivity.
  - apply (Hbatch Stub.now Stub.upload Stub.uploaded Stub.fresh); [reflexivity|discriminate].
Defined.

(** C2: for every upload with at least one part, both [predict] views skip
    the parts without a file name and answer with one result per named part;
    [total_images] is the number of named parts, which is the length of
    [results]. *)
Theorem total_images_counts_named_files `{pil : PIL} {host : Host} {torch : Torch}
    (model : Model) (req : request) (fl : list FileStorage.t) :
  files req !! "images" = Some fl -> fl <> [] ->
  (forall now fs, exists batch fs',
     backend_app.predict model now req fs = (Ok (jsonify (JsonBatch batch) 200), fs') /\
     map filename (results batch) = map FileStorage.filename (named fl) /\
     total_images batch = length (named fl) /\
     total_images batch = length (results batch)) /\
  (forall s, exists batch s',
     api_index.predict req s = (Ok (jsonify (JsonBatch batch) 200), s') /\
     map filename (results batch) = map FileStorage.filename (named fl) /\
     total_images batch = length (named fl) /\
     total_images batch = length (results batch)).
Proof.
  intros Hfl Hne. destruct fl as [|file fl]; [contradiction|]. split.
  - intros now fs. pose proof (backend_predict_spec model now req fs) as Hs.
    rewrite Hfl in Hs. destruct Hs as (rs & fs' & Hp & Hnames & _).
    eexists _, fs'. split; [exact Hp|]. cbn [results total_images].
    split; [exact Hnames|]. split; [|reflexivity].
    rewrite <- (length_map filename rs), Hnames. apply length_map.
  - intros s. pose proof (api_predict_spec req s) as Hs. rewrite Hfl in Hs.
    destruct Hs as (rs & s' & Hp & Hnames & _).
    eexists _, s'. split; [exact Hp|]. cbn [results total_images].
    split; [exact Hnames|]. split; [|reflexivity].
    rewrite <- (length_map filename rs), Hnames. apply length_map.
Qed.

Lemma total_images_counts_named_files_witness :
  (exists batch fs',
     backend_app.predict (host := Stub.host) (torch := Stub.torch) 0%nat Stub.now
       Stub.upload Stub.fresh = (Ok (jsonify (JsonBatch batch) 200), fs') /\
     map filename (results batch) = map FileStorage.filename (named Stub.uploaded) /\
     total_images batch = length (named Stub.uploaded) /\
     total_images batch = length (results batch)) /\
  length (named Stub.uploaded) = 3%nat.
Proof.
  split; [|reflexivity].
  apply (proj1 (total_images_counts_named_files (host := Stub.host) (torch := Stub.torch)
                  0%nat Stub.upload Stub.uploaded eq_refl ltac:(discriminate))).
Defined.

(** C3: in the answer of both [predict] views the values of [class_counts]
    add up to the number of results whose class is not ["error"]; the key
    ["error"] is never written, and appending a result of class ["error"]
    leaves the counts as they were. *)
Theorem class_counts_sum `{pil : PIL} {host : Host} {torch : Torch}
    (model : Model) (req : request) (fl : list FileStorage.t) :
  files req !! "images" = Some fl -> fl <> [] ->
  (forall now fs, exists batch fs',
     backend_app.predict model now req fs = (Ok (jsonify (JsonBatch batch) 200), fs') /\
     class_counts batch = tally (results batch) ∅ /\
     values_sum (class_counts batch)
       = length (filter (fun r => class r <> "error") (results batch)) /\
     class_counts batch !! "error" = None) /\
  (forall s, exists batch s',
     api_index.predict req s = (Ok (jsonify (JsonBatch batch) 200), s') /\
     class_counts batch = tally (results batch) ∅ /\
     values_sum (class_counts batch)
       = length (filter (fun r => class r <> "error") (results batch)) /\
     class_counts batch !! "error" = None) /\
  (forall rs r counts, class r = "error" -> tally (rs ++ [r]) counts = tally rs counts).
Proof.
  intros Hfl Hne. destruct fl as [|file fl]; [contradiction|]. split; [|split].
  - intros now fs. pose proof (backend_predict_spec model now req fs) as Hs.
    rewrite Hfl in Hs. destruct Hs as (rs & fs' & Hp & _ & _).
    eexists _, fs'. split; [exact Hp|]. cbn [results class_counts].
    split; [reflexivity|]. split.
    + rewrite values_sum_tally, values_sum_empty. reflexivity.
    + rewrite tally_error_key. apply lookup_empty.
  - intros s. pose proof (api_predict_spec req s) as Hs. rewrite Hfl in Hs.
    destruct Hs as (rs & s' & Hp & _ & _).
    eexists _, s'. split; [exact Hp|]. cbn [results class_counts].
    split; [reflexivity|]. split.
    + rewrite values_sum_tally, values_sum_empty. reflexivity.
    + rewrite tally_error_key. apply lookup_empty.
  - intros rs r counts Hr. rewrite tally_snoc, Hr. reflexivity.
Qed.

Lemma class_counts_sum_witness :
  exists batch fs',
    backend_app.predict (host := Stub.host) (torch := Stub.torch) 0%nat Stub.now
      Stub.upload Stub.fresh = (Ok (jsonify (JsonBatch batch) 200), fs') /\
    class_counts batch = tally (results batch) ∅ /\
    values_sum (class_counts batch)
      = length (filter (fun r => class r <> "error") (results batch)) /\
    class_counts batch !! "error" = None.
Proof.
  apply (proj1 (class_counts_sum (host := Stub.host) (torch := Stub.torch)
                  0%nat Stub.upload Stub.uploaded eq_refl ltac:(discriminate))).
Defined.

(** What [predict_image] returns, by the outcome of its [try] block. *)
Lemma form_by_outcome {S} (body : M S ClassificationResult) (f : string) (s : S)
    (r : ClassificationResult) (s' : S) :
  (forall r0 s0, body s = (Ok r0, s0) -> In (class r0) CIFAR10_CLASSES /\ error r0 = None) ->
  try_except body (fun e => ret (error_result f e)) s = (Ok r, s') ->
  s' = snd (body s) /\ form_by (fst (body s)) r.
Proof.
  intros Hok. unfold try_except.
  destruct (body s) as [[r0|e] s0] eqn:E; unfold ret; intros [= <- <-]; cbn [fst snd form_by].
  - destruct (Hok _ _ eq_refl) as [Hin Herr]. pose proof (label_not_error _ Hin) as Hne.
    split; [reflexivity|]. split; [reflexivity|]. split; [split; assumption|].
    intros [Hc _]. contradiction.
  - split; [reflexivity|]. split; [split; reflexivity|].
    split; [split; [reflexivity|eexists; reflexivity]|].
    intros [Hc _]. now apply Hc.
Qed.

Section Forms.
Context `{pil : PIL} {host : Host} {torch : Torch}.

Lemma backend_form_by model b f sid fs r fs' :
  backend_app.predict_image model b f sid fs = (Ok r, fs') ->
  fs' = snd (backend_app.classify model b f sid fs) /\
  form_by (fst (backend_app.classify model b f sid fs)) r.
Proof.
  apply form_by_outcome. intros r0 s0 H.
  apply backend_classify_success in H as (_ & Hin & Herr & _). auto.
Qed.

Lemma api_form_by b f s r s' :
  api_index.predict_image b f s = (Ok r, s') ->
  s' = snd (api_index.classify b f s) /\ form_by (fst (api_index.classify b f s)) r.
Proof.
  apply form_by_outcome. intros r0 s0 H.
  apply api_classify_success in H as (_ & Hin & Herr & _). auto.
Qed.

End Forms.

(** C4 (amended): every result either [predict_image] function returns, and
    so every result in an answer of [predict], is in exactly one of two
    forms, by the outcome of the [try] block.  When the block returns, the
    result is what it returned: its class is not ["error"] and it has no
    [error] field.  When the block raises [e], the class is ["error"] and the
    [error] field holds [str(e)], which is the empty string when [e] carries
    no message.  No result is in both forms. *)
Theorem result_in_one_form `{pil : PIL} {host : Host} {torch : Torch} (model : Model) :
  (forall b f sid fs, exists r,
     backend_app.predict_image model b f sid fs
       = (Ok r, snd (backend_app.classify model b f sid fs)) /\
     form_by (fst (backend_app.classify model b f sid fs)) r) /\
  (forall b f s, exists r,
     api_index.predict_image b f s = (Ok r, snd (api_index.classify b f s)) /\
     form_by (fst (api_index.classify b f s)) r) /\
  (forall now req fs batch fs',
     backend_app.predict model now req fs = (Ok (jsonify (JsonBatch batch) 200), fs') ->
     exists fl,
       files req !! "images" = Some fl /\
       Forall2 (fun file r =>
                  exists s0,
                    form_by (fst (backend_app.classify model (FileStorage.read file)
                                    (FileStorage.filename file) now s0)) r)
               (named fl) (results batch)) /\
  (forall req s batch s',
     api_index.predict req s = (Ok (jsonify (JsonBatch batch) 200), s') ->
     exists fl,
       files req !! "images" = Some fl /\
       Forall2 (fun file r =>
                  exists s0,
                    form_by (fst (api_index.classify (FileStorage.read file)
                                    (FileStorage.filename file) s0)) r)
               (named fl) (results batch)).
Proof.
  split; [|split; [|split]].
  - intros b f sid fs.
    destruct (backend_predict_image_returns model sid b f fs) as (r & fs' & Hr & _).
    exists r. destruct (backend_form_by _ _ _ _ _ _ _ Hr) as [<- Hform]. auto.
  - intros b f s. destruct (api_predict_image_returns b f s) as (r & s' & Hr & _).
    exists r. destruct (api_form_by _ _ _ _ _ Hr) as [<- Hform]. auto.
  - intros now req fs batch fs' Hp. pose proof (backend_predict_spec model now req fs) as Hs.
    destruct (files req !! "images") as [[|file fl]|].
    + rewrite Hs in Hp. discriminate Hp.
    + destruct Hs as (rs & fs1 & Hp' & _ & _ & Heach). rewrite Hp' in Hp.
      unfold jsonify in Hp. injection Hp as <- <-. eexists. split; [reflexivity|].
      cbn [results]. eapply Forall2_impl; [exact Heach|].
      intros part r (s0 & s1 & Hr). exists s0. now apply backend_form_by in Hr.
    + rewrite Hs in Hp. discriminate Hp.
  - intros req s batch s' Hp. pose proof (api_predict_spec req s) as Hs.
    destruct (files req !! "images") as [[|file fl]|].
    + rewrite Hs in Hp. discriminate Hp.
    + destruct Hs as (rs & s1 & Hp' & _ & _ & Heach). rewrite Hp' in Hp.
      unfold jsonify in Hp. injection Hp as <- <-. eexists. split; [reflexivity|].
      cbn [results]. eapply Forall2_impl; [exact Heach|].
      intros part r (s0 & s1' & Hr). exists s0. now apply api_form_by in Hr.
    + rewrite Hs in Hp. discriminate Hp.
Qed.

Lemma result_in_one_form_witness :
  (exists r,
     backend_app.predict_image (host := Stub.host) (torch := Stub.torch) 0%nat
       [x00] "junk.txt" Stub.now Stub.fresh
     = (Ok r, snd (backend_app.classify (host := Stub.host) (torch := Stub.torch) 0%nat
                     [x00] "junk.txt" Stub.now Stub.fresh)) /\
     form_by (fst (backend_app.classify (host := Stub.host) (torch := Stub.torch) 0%nat
                     [x00] "junk.txt" Stub.now Stub.fresh)) r) /\
  exists fl,
    files Stub.upload !! "images" = Some fl /\
    Forall2 (fun file r =>
               exists s0,
                 form_by (fst (backend_app.classify (host := Stub.host) (torch := Stub.torch)
                                 0%nat (FileStorage.read file) (FileStorage.filename file)
                                 Stub.now s0)) r)
            (named fl)
            [ error_result "junk.txt"
                (Exception "UnidentifiedImageError" "cannot identify image file");
              {| filename := "cat.jpg"; class := "cat"; confidence := None;
                 error := None;
                 saved_path := Some "classified_images/20240101_120000/cat/cat.jpg" |};
              {| filename := "dog.png"; class := "dog"; confidence := None;
                 error := None;
                 saved_path := Some "classified_images/20240101_120000/dog/dog.png" |} ].
Proof.
  pose proof (result_in_one_form (host := Stub.host) (torch := Stub.torch) 0%nat)
    as (Himage & _ & Hbatch & _).
  split; [apply Himage|].
  apply (Hbatch Stub.now Stub.upload Stub.fresh
           {| results :=
                [ error_result "junk.txt"
                    (Exception "UnidentifiedImageError" "cannot identify image file");
                  {| filename := "cat.jpg"; class := "cat"; confidence := None;
                     error := None;
                     saved_path := Some "classified_images/20240101_120000/cat/cat.jpg" |};
                  {| filename := "dog.png"; class := "dog"; confidence := None;
                     error := None;
                     saved_path := Some "classified_images/20240101_120000/dog/dog.png" |} ];
              session_id := Some Stub.now;
              class_counts := <["dog" := 1%nat]> (<["cat" := 1%nat]> ∅);
              total_images := 3 |}
           Stub.classified).
  reflexivity.
Defined.

(** The [error] field of an error entry need not hold a message.  A forward
    pass that runs out of memory raises [MemoryError()], whose [str] is
    empty: the result has class ["error"] and the empty string in its
    [error] field, so it is neither a success nor an error entry with a
    populated field. *)
Lemma error_field_empty :
  exists r,
    backend_app.predict_image (host := Stub.host) (torch := out_of_memory) tt
      Stub.black32 "cat.jpg" Stub.now Stub.fresh = (Ok r, Stub.fresh) /\
    class r = "error" /\ error r = Some "" /\
    ~ is_success r /\ ~ populated_failure r.
Proof.
  eexists. split; [reflexivity|]. cbn [class error error_result exc_str].
  split; [reflexivity|]. split; [reflexivity|]. split.
  - intros [Hc _]. now apply Hc.
  - intros (_ & msg & [= <-] & Hne). now apply Hne.
Qed.

(** ** The lazy model handle *)

Section GetModel.
Context `{pil : PIL} {host : Host} {torch : Torch}.

Lemma step_thread_single (p : api_index.pc) (s : api_index.state) :
  api_index.step_thread ([p], s) 0
  = ([fst (api_index.step p s)], snd (api_index.step p s)).
Proof. reflexivity. Qed.

(** One call that is not interrupted takes the five steps of the thread
    model and ends as [get_model] does. *)
Lemma get_model_uninterrupted (s : api_index.state) :
  api_index.run (repeat 0%nat 5) ([api_index.AtCheck], s)
  = ([api_index.Returned
        match fst (api_index.get_model s) with
        | Ok m => Ok (Some m)
        | Raise e => Raise e
        end],
     snd (api_index.get_model s)).
Proof.
  unfold api_index.run, api_index.get_model. cbn [repeat foldl].
  rewrite step_thread_single. cbn [api_index.step].
  destruct (api_index._model s) as [m|] eqn:Em; cbn [fst snd].
  - do 4 (rewrite step_thread_single; cbn [api_index.step fst snd]).
    now rewrite Em.
  - rewrite step_thread_single. cbn [api_index.step].
    destruct (torch_hub_load (api_index.hub s)) as [[m|e] h]; cbn [fst snd].
    + do 3 (rewrite step_thread_single;
            cbn [api_index.step fst snd api_index._model api_index.hub
                 api_index.loads option_map]).
      reflexivity.
    + do 3 (rewrite step_thread_single; cbn [api_index.step fst snd]).
      now rewrite Em.
Qed.

(** Called one after the other, a second call finds the model and loads
    nothing. *)
Lemma get_model_sequential_once (s s' : api_index.state) (m : Model) :
  api_index.get_model s = (Ok m, s') ->
  api_index.get_model s' = (Ok m, s') /\
  (api_index.loads s' <= S (api_index.loads s))%nat.
Proof.
  unfold api_index.get_model. destruct (api_index._model s) as [m0|] eqn:Em.
  - intros [= <- <-]. rewrite Em. split; [reflexivity|lia].
  - destruct (torch_hub_load (api_index.hub s)) as [[m1|e] h]; [|discriminate].
    intros [= <- <-]. cbn. split; [reflexivity|lia].
Qed.
End GetModel.

(** C5 fails on the code: two requests that both test [_model is None]
    before either has assigned it both call [torch.hub.load].  With the stub
    hub, whose [n]-th load returns model [n], the schedule below ends with
    two loads and the two callers holding different models. *)
Theorem get_model_race :
  let threads : list (api_index.pc (torch := Stub.torch)) :=
    [api_index.AtCheck; api_index.AtCheck] in
  let schedule := [0; 1; 0; 0; 0; 0; 1; 1; 1; 1]%nat in
  let final := api_index.run schedule (threads, Stub.cold) in
  fst final = [api_index.Returned (Ok (Some (0%nat : @Model Stub.torch)));
               api_index.Returned (Ok (Some (1%nat : @Model Stub.torch)))] /\
  api_index.loads (snd final) = 2%nat.
Proof. cbv zeta. split; reflexivity. Qed.

(** ** Paths *)

Lemma split_sep_nonempty (p : string) : os.split_sep p <> [].
Proof.
  induction p as [|c p IH]; cbn [os.split_sep]; [discriminate|].
  destruct (Ascii.eqb c "/"); [discriminate|].
  destruct (os.split_sep p); discriminate.
Qed.

Lemma split_sep_name (n : string) : contains_sep n = false -> os.split_sep n = [n].
Proof.
  induction n as [|c n IH]; cbn [os.split_sep contains_sep]; [reflexivity|].
  intros [Hc Hn]%orb_false_iff. rewrite Hc, (IH Hn). reflexivity.
Qed.

Lemma split_sep_components (p : string) :
  Forall (fun c => contains_sep c = false) (os.split_sep p).
Proof.
  induction p as [|c p IH]; cbn [os.split_sep].
  - constructor; [reflexivity|constructor].
  - destruct (Ascii.eqb c "/") eqn:Ec.
    + constructor; [reflexivity|exact IH].
    + destruct (os.split_sep p) as [|seg rest].
      * constructor; [|constructor]. cbn [contains_sep]. now rewrite Ec.
      * apply Forall_cons in IH as [Hseg Hrest].
        constructor; [|exact Hrest]. cbn [contains_sep]. now rewrite Ec, Hseg.
Qed.

Lemma valid_name_inv (n : string) :
  valid_name n = true ->
  String.eqb n "" = false /\ String.eqb n "." = false /\ String.eqb n ".." = false /\
  contains_sep n = false.
Proof.
  unfold valid_name. rewrite !andb_true_iff, !negb_true_iff. tauto.
Qed.

Lemma startswith_contains (n : string) : contains_sep n = false -> os.startswith_sep n = false.
Proof.
  destruct n as [|c n]; [reflexivity|]. cbn [contains_sep os.startswith_sep].
  now intros [Hc _]%orb_false_iff.
Qed.

(** A name that starts with the prefix of the archive names is none of the
    special components. *)
Lemma archive_name_not_special (rest : string) :
  let n := "classified_images_" +:+ rest in
  String.eqb n "" = false /\ String.eqb n "." = false /\ String.eqb n ".." = false /\
  os.startswith_sep n = false.
Proof. cbv zeta. repeat split. Qed.

Lemma child_name_spec (k p : list string) (n : string) :
  os.child_name k p = Some n <-> p = (k ++ [n])%list.
Proof.
  revert p. induction k as [|a k IH]; intros p.
  - destruct p as [|b [|b' p]]; cbn; split; intros E; try discriminate; congruence.
  - destruct p as [|b p]; cbn [os.child_name app].
    + split; intros E; discriminate.
    + destruct (String.eqb_spec a b) as [->|Hab].
      * rewrite IH. split; intros E; congruence.
      * split; intros E; [discriminate|congruence].
Qed.

Lemma elem_of_children (fs : filesystem) (k : list string) (n : string) (e : entry) :
  (n, e) ∈ os.children fs k <-> entries fs !! (k ++ [n])%list = Some e.
Proof.
  unfold os.children. rewrite list_elem_of_omap. split.
  - intros ([p e'] & Hin & Hc). apply elem_of_map_to_list in Hin. cbn [fst snd] in Hc.
    destruct (os.child_name k p) as [n'|] eqn:En; [|discriminate].
    injection Hc as -> ->. apply child_name_spec in En. now subst p.
  - intros Hl. exists ((k ++ [n])%list, e). split; [now apply elem_of_map_to_list|].
    cbn [fst snd]. now rewrite (proj2 (child_name_spec k _ n) eq_refl).
Qed.

Lemma NoDup_omap_inj {A B} (f : A -> option B) (l : list A) :
  (forall x y z, x ∈ l -> y ∈ l -> f x = Some z -> f y = Some z -> x = y) ->
  NoDup l -> NoDup (omap f l).
Proof.
  intros Hinj Hnd. induction Hnd as [|x l Hx Hl IH]; [constructor|].
  assert (IH' : NoDup (omap f l)).
  { apply IH. intros y y' z Hy Hy'. apply Hinj; now right. }
  simpl. destruct (f x) as [z|] eqn:Ez; [|exact IH'].
  constructor; [|exact IH'].
  rewrite list_elem_of_omap. intros (y & Hy & Ey). apply Hx.
  rewrite (Hinj x y z); [exact Hy|now left|now right|exact Ez|exact Ey].
Qed.

Lemma NoDup_children_names (fs : filesystem) (k : list string) :
  NoDup (map fst (os.children fs k)).
Proof.
  unfold os.children. rewrite map_fmap, list_fmap_omap.
  apply NoDup_omap_inj; [|apply NoDup_map_to_list].
  intros [p e] [p' e'] n Hin Hin'. cbn [fst snd].
  destruct (os.child_name k p) as [a|] eqn:Ea; [|discriminate].
  destruct (os.child_name k p') as [a'|] eqn:Ea'; [|discriminate].
  cbn. intros [= ->] [= ->].
  apply child_name_spec in Ea, Ea'. subst p p'.
  apply elem_of_map_to_list in Hin, Hin'. congruence.
Qed.

Lemma resolve_output (fs : filesystem) :
  os.resolve fs backend_app.OUTPUT_DIR =
  match entries fs !! cwd fs with
  | Some Dir => match entries fs !! output_root fs with
                | Some _ => Some (output_root fs)
                | None => None
                end
  | _ => None
  end.
Proof. reflexivity. Qed.

Lemma isdir_output (fs : filesystem) :
  os.path_isdir fs backend_app.OUTPUT_DIR = true <->
  entries fs !! cwd fs = Some Dir /\ entries fs !! output_root fs = Some Dir.
Proof.
  unfold os.path_isdir, os.stat. rewrite resolve_output.
  destruct (entries fs !! cwd fs) as [[|]|]; [|destruct (entries fs !! output_root fs) as [[|]|] eqn:E; try rewrite E|];
    split; try discriminate; try (intros [? ?]; discriminate); auto.
Qed.

Lemma path_join_output (n : string) :
  os.startswith_sep n = false ->
  os.path_join backend_app.OUTPUT_DIR n = "classified_images/" +:+ n.
Proof. unfold os.path_join. now intros ->. Qed.

Lemma resolve_under_output (fs : filesystem) (n : string) :
  os.resolve fs ("classified_images/" +:+ n) =
  match entries fs !! cwd fs with
  | Some Dir => os.walk_components (entries fs) (output_root fs) (os.split_sep n)
  | _ => None
  end.
Proof. reflexivity. Qed.

Lemma walk_name (m : gmap (list string) entry) (cur : list string) (n : string) :
  valid_name n = true ->
  os.walk_components m cur (os.split_sep n) =
  match m !! cur with
  | Some Dir => match m !! (cur ++ [n])%list with
                | Some _ => Some (cur ++ [n])%list
                | None => None
                end
  | _ => None
  end.
Proof.
  intros (H0 & H1 & H2 & Hs)%valid_name_inv. rewrite (split_sep_name _ Hs).
  cbn [os.walk_components]. now rewrite H0, H1, H2.
Qed.

Lemma isdir_session (fs : filesystem) (n : string) :
  valid_name n = true -> os.path_isdir fs backend_app.OUTPUT_DIR = true ->
  os.path_isdir fs (os.path_join backend_app.OUTPUT_DIR n) = true <-> is_session fs n.
Proof.
  intros Hn [Hcwd Hout]%isdir_output. unfold is_session.
  pose proof (valid_name_inv _ Hn) as (_ & _ & _ & Hs).
  rewrite (path_join_output _ (startswith_contains _ Hs)).
  unfold os.path_isdir, os.stat. rewrite resolve_under_output, Hcwd, (walk_name _ _ _ Hn), Hout.
  destruct (entries fs !! (output_root fs ++ [n])%list) as [[|]|] eqn:E;
    try rewrite E; split; congruence.
Qed.

Lemma wf_valid_last (fs : filesystem) (k : list string) (n : string) (e : entry) :
  wf fs -> entries fs !! (k ++ [n])%list = Some e -> valid_name n = true.
Proof.
  intros Hwf Hl. unfold wf in Hwf. rewrite map_Forall_lookup in Hwf.
  specialize (Hwf _ _ Hl). cbv beta in Hwf.
  apply Forall_app in Hwf as [_ Hn]. inversion Hn; subst. assumption.
Qed.

(** What [list_sessions] answers when the output directory is there. *)
Lemma list_sessions_spec `{pil : PIL} {host : Host} (fs : filesystem) :
  wf fs -> os.path_isdir fs backend_app.OUTPUT_DIR = true ->
  exists l,
    backend_app.list_sessions fs = (Ok (jsonify (JsonSessions l) 200), fs) /\
    NoDup l /\ forall n, n ∈ l <-> is_session fs n.
Proof.
  intros Hwf Hdir. pose proof Hdir as [Hcwd Hout]%isdir_output.
  unfold backend_app.list_sessions. rewrite bind_get_state.
  assert (Hex : os.path_exists fs backend_app.OUTPUT_DIR = true).
  { unfold os.path_exists, os.stat. now rewrite resolve_output, Hcwd, Hout, Hout. }
  rewrite Hex.
  assert (Hls : os.listdir fs backend_app.OUTPUT_DIR
                = Ok (map fst (os.children fs (output_root fs)))).
  { unfold os.listdir. now rewrite resolve_output, Hcwd, Hout, Hout. }
  rewrite (bind_lift_Ok _ _ _ _ Hls). eexists. split; [reflexivity|]. split.
  - apply NoDup_filter, NoDup_children_names.
  - intros n. rewrite list_elem_of_filter, map_fmap, list_elem_of_fmap. split.
    + intros (Hisdir & [n' e] & -> & Hin). cbn [fst] in *.
      apply elem_of_children in Hin.
      apply isdir_session; eauto using wf_valid_last.
    + intros Hs. pose proof Hs as Hl. unfold is_session in Hl. split.
      * apply isdir_session; eauto using wf_valid_last.
      * exists (n, Dir). split; [reflexivity|]. now apply elem_of_children.
Qed.

(** Without an output directory the list is empty. *)
Lemma list_sessions_absent `{pil : PIL} {host : Host} (fs : filesystem) :
  os.path_exists fs backend_app.OUTPUT_DIR = false ->
  backend_app.list_sessions fs = (Ok (jsonify (JsonSessions []) 200), fs).
Proof. unfold backend_app.list_sessions. rewrite bind_get_state. now intros ->. Qed.

(** ** Writing the archive *)

Lemma walk_cons_inv (m : gmap (list string) entry) cur c rest k :
  os.walk_components m cur (c :: rest) = Some k -> m !! cur = Some Dir.
Proof.
  cbn [os.walk_components]. destruct (m !! cur) as [[|]|]; [discriminate|reflexivity|discriminate].
Qed.

Lemma walk_result_exists (m : gmap (list string) entry) comps : forall cur k,
  os.walk_components m cur comps = Some k -> is_Some (m !! k).
Proof.
  induction comps as [|c rest IH]; intros cur k; cbn [os.walk_components].
  - destruct (m !! cur) eqn:E; [|discriminate]. intros [= <-]. rewrite E. eauto.
  - destruct (m !! cur) as [[|]|]; try discriminate.
    destruct (_ || _); [apply IH|]. destruct (String.eqb c ".."); apply IH.
Qed.

Lemma split_sep_under_output (z : string) :
  os.split_sep ("classified_images/" +:+ z) = "classified_images" :: os.split_sep z.
Proof. reflexivity. Qed.

Lemma write_file_inv (p : string) (data : list byte) (fs fs1 : filesystem) :
  os.write_file p data fs = (Ok tt, fs1) ->
  exists k, os.resolve_new fs p = Some k /\ entries fs !! k <> Some Dir /\
            fs1 = {| entries := <[k := File data]> (entries fs); cwd := cwd fs |}.
Proof.
  unfold os.write_file. destruct (os.resolve_new fs p) as [k|]; [|discriminate].
  destruct (entries fs !! k) as [[|]|] eqn:E; try discriminate;
    intros [= <-]; exists k; rewrite E; repeat split; discriminate.
Qed.

(** The key a new file gets is made of entry names. *)
Lemma resolve_new_valid (fs : filesystem) (p : string) (k : list string) :
  wf fs -> os.resolve_new fs p = Some k -> Forall (fun n => valid_name n = true) k.
Proof.
  intros Hwf. unfold os.resolve_new.
  destruct (last (os.split_sep p)) as [n|] eqn:El; [|discriminate].
  destruct (String.eqb n "" || String.eqb n "." || String.eqb n "..") eqn:Esp; [discriminate|].
  destruct (os.walk_components _ _ _) as [k0|] eqn:Ew; [|discriminate].
  destruct (entries fs !! k0) as [[|]|] eqn:Ek; try discriminate. intros [= <-].
  apply Forall_app. split.
  - unfold wf in Hwf. rewrite map_Forall_lookup in Hwf. exact (Hwf _ _ Ek).
  - constructor; [|constructor]. unfold valid_name.
    apply orb_false_iff in Esp as [[E0 E1]%orb_false_iff E2]. rewrite E0, E1, E2. cbn [negb andb].
    apply negb_true_iff. apply last_Some_elem_of in El.
    pose proof (split_sep_components p) as Hall. rewrite Forall_forall in Hall. auto.
Qed.

(** A file can be created under the output directory, at any depth, only
    if the output directory is there. *)
Lemma resolve_new_under_output (fs : filesystem) (z : string) (k : list string) :
  os.resolve_new fs ("classified_images/" +:+ z) = Some k ->
  os.path_isdir fs backend_app.OUTPUT_DIR = true.
Proof.
  unfold os.resolve_new. rewrite split_sep_under_output.
  destruct (os.split_sep z) as [|c rest] eqn:Ez; [now apply split_sep_nonempty in Ez|].
  change (last ("classified_images" :: c :: rest)) with (last (c :: rest)).
  destruct (last (c :: rest)) as [n|]; [|discriminate].
  destruct (_ || _); [discriminate|].
  change (removelast ("classified_images" :: c :: rest))
    with ("classified_images" :: removelast (c :: rest)).
  change (os.startswith_sep ("classified_images/" +:+ z)) with false. cbv iota.
  destruct (os.walk_components _ _ _) as [k0|] eqn:Ew; [|discriminate].
  destruct (entries fs !! k0) as [[|]|] eqn:Ek; try discriminate. intros _.
  apply isdir_output. pose proof (walk_cons_inv _ _ _ _ _ Ew) as Hcwd. split; [exact Hcwd|].
  cbn [os.walk_components] in Ew. rewrite Hcwd in Ew.
  change (os.walk_components (entries fs) (output_root fs) (removelast (c :: rest)) = Some k0)
    in Ew.
  destruct (removelast (c :: rest)) as [|c' rest'] eqn:Er.
  - cbn [os.walk_components] in Ew.
    destruct (entries fs !! output_root fs) eqn:E; [|discriminate].
    injection Ew as <-. congruence.
  - exact (walk_cons_inv _ _ _ _ _ Ew).
Qed.

Lemma insert_file_same_dirs (fs : filesystem) (k : list string) (data : list byte) :
  entries fs !! k <> Some Dir ->
  same_dirs fs {| entries := <[k := File data]> (entries fs); cwd := cwd fs |}.
Proof.
  intros Hk. split; [reflexivity|]. intros p. cbn [entries].
  destruct (decide (k = p)) as [->|Hne].
  - rewrite lookup_insert_eq. split; [contradiction|discriminate].
  - now rewrite lookup_insert_ne.
Qed.

Lemma same_dirs_trans (fs1 fs2 fs3 : filesystem) :
  same_dirs fs1 fs2 -> same_dirs fs2 fs3 -> same_dirs fs1 fs3.
Proof.
  intros [Hc1 H1] [Hc2 H2]. split; [congruence|]. intros p. now rewrite H1.
Qed.

Lemma same_dirs_sessions (fs fs' : filesystem) (n : string) :
  same_dirs fs fs' -> is_session fs n <-> is_session fs' n.
Proof. intros [Hc Hd]. unfold is_session, output_root. rewrite Hc. apply Hd. Qed.

Lemma same_dirs_isdir_output (fs fs' : filesystem) :
  same_dirs fs fs' ->
  os.path_isdir fs backend_app.OUTPUT_DIR = true ->
  os.path_isdir fs' backend_app.OUTPUT_DIR = true.
Proof.
  intros [Hc Hd]. rewrite !isdir_output. unfold output_root. rewrite <- Hc, <- !Hd. tauto.
Qed.

Lemma wf_insert_file (fs : filesystem) (k : list string) (data : list byte) :
  wf fs -> Forall (fun n => valid_name n = true) k ->
  wf {| entries := <[k := File data]> (entries fs); cwd := cwd fs |}.
Proof. intros Hwf Hk. unfold wf. cbn [entries]. now apply map_Forall_insert_2. Qed.

(** Writing a file keeps the file system well formed and its directories
    as they were. *)
Lemma write_file_keeps (p : string) (data : list byte) (fs fs1 : filesystem) :
  wf fs -> os.write_file p data fs = (Ok tt, fs1) -> wf fs1 /\ same_dirs fs fs1.
Proof.
  intros Hwf (k & Hk & Hnd & ->)%write_file_inv. split.
  - apply wf_insert_file; eauto using resolve_new_valid.
  - now apply insert_file_same_dirs.
Qed.

Lemma walk_output (fs : filesystem) :
  os.walk_components (entries fs) (cwd fs) ["classified_images"] =
  match entries fs !! cwd fs with
  | Some Dir => match entries fs !! output_root fs with
                | Some _ => Some (output_root fs)
                | None => None
                end
  | _ => None
  end.
Proof. reflexivity. Qed.

Lemma resolve_new_archive_name (fs : filesystem) (n : string) :
  valid_name n = true -> os.path_isdir fs backend_app.OUTPUT_DIR = true ->
  os.resolve_new fs ("classified_images/" +:+ n) = Some (output_root fs ++ [n])%list.
Proof.
  intros Hn [Hcwd Hout]%isdir_output.
  pose proof (valid_name_inv _ Hn) as (H0 & H1 & H2 & Hs).
  unfold os.resolve_new. rewrite split_sep_under_output, (split_sep_name _ Hs).
  change (last ["classified_images"; n]) with (Some n).
  change (removelast ["classified_images"; n]) with ["classified_images"].
  change (os.startswith_sep ("classified_images/" +:+ n)) with false.
  cbv beta iota. rewrite H0, H1, H2. cbn [orb].
  now rewrite walk_output, Hcwd, Hout, Hout.
Qed.

Section Download.
Context `{pil : PIL} {host : Host}.

Lemma download_inv (sid : string) (fs fs' : filesystem) (r : response) :
  backend_app.download sid fs = (Ok r, fs') ->
  (os.path_exists fs (os.path_join backend_app.OUTPUT_DIR sid) = false /\
   r = jsonify (JsonError "Session not found") 404 /\ fs' = fs) \/
  (os.path_exists fs (os.path_join backend_app.OUTPUT_DIR sid) = true /\
   let zip_filename := "classified_images_" +:+ sid +:+ ".zip" in
   let zip_path := os.path_join backend_app.OUTPUT_DIR zip_filename in
   exists fs1 members data,
     os.write_file zip_path [] fs = (Ok tt, fs1) /\
     os.write_file zip_path (ZipFile_bytes members) fs1 = (Ok tt, fs') /\
     r = jsonify (Attachment zip_filename data) 200).
Proof.
  unfold backend_app.download. rewrite bind_get_state. cbv zeta.
  destruct (os.path_exists fs (os.path_join backend_app.OUTPUT_DIR sid)); cbn [negb].
  - intros H. right. split; [reflexivity|]. bind_inv H.
    unfold ret in H. injection H as <- <-.
    repeat match goal with u : unit |- _ => destruct u end. eauto 10.
  - intros [= <- <-]. left. auto.
Qed.

(** An unknown path means 404 and nothing written. *)
Lemma download_missing (sid : string) (fs : filesystem) :
  os.path_exists fs (os.path_join backend_app.OUTPUT_DIR sid) = false ->
  backend_app.download sid fs = (Ok (jsonify (JsonError "Session not found") 404), fs).
Proof. unfold backend_app.download. rewrite bind_get_state. now intros ->. Qed.

(** After a download that answered 200 the file system is well formed and
    has the directories it had. *)
Lemma download_keeps (sid : string) (fs fs' : filesystem) (r : response) :
  wf fs -> backend_app.download sid fs = (Ok r, fs') -> status r = 200%nat ->
  wf fs' /\ same_dirs fs fs' /\ os.path_isdir fs backend_app.OUTPUT_DIR = true /\
  ~ is_session fs ("classified_images_" +:+ sid +:+ ".zip").
Proof.
  intros Hwf Hd Hst. apply download_inv in Hd as [(_ & -> & _)|(_ & Hd)]; [discriminate Hst|].
  cbv zeta in Hd. destruct Hd as (fs1 & members & data & Hw1 & Hw2 & _).
  destruct (write_file_keeps _ _ _ _ Hwf Hw1) as [Hwf1 Hsd1].
  destruct (write_file_keeps _ _ _ _ Hwf1 Hw2) as [Hwf2 Hsd2].
  split; [exact Hwf2|]. split; [eapply same_dirs_trans; eassumption|].
  apply write_file_inv in Hw1 as (k & Hk & Hnd & _).
  destruct (archive_name_not_special (sid +:+ ".zip")) as (_ & _ & _ & Hst').
  rewrite (path_join_output _ Hst') in Hk.
  pose proof (resolve_new_under_output _ _ _ Hk) as Hdir.
  split; [exact Hdir|]. intros Hs. unfold is_session in Hs.
  pose proof (wf_valid_last _ _ _ _ Hwf Hs) as Hvalid.
  rewrite (resolve_new_archive_name _ _ Hvalid Hdir) in Hk. injection Hk as <-.
  contradiction.
Qed.

End Download.

(** C10: on a well-formed file system whose output directory is there,
    [list_sessions] answers with each name of a directory directly under the
    output directory, once, and with nothing else; without an output
    directory it answers with the empty list; and after a download that
    answered 200 the list holds the same directories as before, the archive
    that was written not among them. *)
Theorem list_sessions_lists_directories `{pil : PIL} {host : Host} (fs : filesystem) :
  wf fs ->
  (os.path_isdir fs backend_app.OUTPUT_DIR = true ->
   exists l,
     backend_app.list_sessions fs = (Ok (jsonify (JsonSessions l) 200), fs) /\
     NoDup l /\ forall n, n ∈ l <-> is_session fs n) /\
  (os.path_exists fs backend_app.OUTPUT_DIR = false ->
   backend_app.list_sessions fs = (Ok (jsonify (JsonSessions []) 200), fs)) /\
  (forall sid r fs',
     backend_app.download sid fs = (Ok r, fs') -> status r = 200%nat ->
     exists l',
       backend_app.list_sessions fs' = (Ok (jsonify (JsonSessions l') 200), fs') /\
       ~ ("classified_images_" +:+ sid +:+ ".zip") ∈ l' /\
       forall n, n ∈ l' <-> is_session fs n).
Proof.
  intros Hwf. split; [|split].
  - now apply list_sessions_spec.
  - apply list_sessions_absent.
  - intros sid r fs' Hd Hst.
    destruct (download_keeps _ _ _ _ Hwf Hd Hst) as (Hwf' & Hsd & Hdir & Hzip).
    destruct (list_sessions_spec fs' Hwf' (same_dirs_isdir_output _ _ Hsd Hdir))
      as (l' & Hl & _ & Hmem).
    exists l'. split; [exact Hl|].
    assert (Hiff : forall n, n ∈ l' <-> is_session fs n).
    { intros n. rewrite Hmem. symmetry. now apply same_dirs_sessions. }
    split; [|exact Hiff]. intros Hin. apply Hzip, Hiff, Hin.
Qed.

Lemma wf_classified : wf Stub.classified.
Proof.
  unfold wf. apply map_Forall_to_list. vm_compute. repeat constructor.
Qed.

Lemma list_sessions_lists_directories_witness :
  (exists l,
     backend_app.list_sessions Stub.classified
       = (Ok (jsonify (JsonSessions l) 200), Stub.classified) /\
     NoDup l /\ forall n, n ∈ l <-> is_session Stub.classified n) /\
  (exists l',
     backend_app.list_sessions Stub.served
       = (Ok (jsonify (JsonSessions l') 200), Stub.served) /\
     ~ ("classified_images_" +:+ Stub.now +:+ ".zip") ∈ l' /\
     forall n, n ∈ l' <-> is_session Stub.classified n).
Proof.
  pose proof (list_sessions_lists_directories (host := Stub.host)
                Stub.classified wf_classified) as (Hlist & _ & Hafter).
  split.
  - apply Hlist. vm_compute. reflexivity.
  - apply (Hafter Stub.now
             (jsonify (Attachment ("classified_images_" +:+ Stub.now +:+ ".zip")
                                  (Stub.black32 ++ Stub.white2)) 200)
             Stub.served); [vm_compute|]; reflexivity.
Defined.

(** C9 fails on the code.  Once the archive of a session has been written
    into the output directory, its file name is a session id for which no
    session directory exists, yet [download] finds the path, writes an empty
    archive and answers 200. *)
Theorem download_of_archive_name :
  let sid := "classified_images_20240101_120000.zip" in
  let session_dir := os.path_join backend_app.OUTPUT_DIR sid in
  os.path_isdir Stub.served session_dir = false /\
  os.stat Stub.served session_dir
    = Some (File (Stub.encode (Stub.Rgb (32%nat, 32%nat) x00 x00 x00)
                  ++ Stub.encode (Stub.Rgb (2%nat, 2%nat) xff xff xff))) /\
  fst (backend_app.download (host := Stub.host) sid Stub.served)
    = Ok (jsonify (Attachment
                     "classified_images_classified_images_20240101_120000.zip.zip" [])
                  200).
Proof. cbv zeta. split; [|split]; vm_compute; reflexivity. Qed.

(* ===================================================================== *)
(** * Further properties of the handlers *)
(* ===================================================================== *)

(** ** The answers of [predict] *)

(** X1: both [predict] views always answer, never raise: with 400 and the
    message [No images provided], the state untouched, exactly when the
    request has no part under [images]; with 200 and a batch otherwise, the
    batch carrying the session id in [backend/app.py] and none in
    [api/index.py]. *)
Theorem predict_status `{pil : PIL} {host : Host} {torch : Torch}
    (model : Model) (req : request) :
  (forall now fs, exists r fs',
     backend_app.predict model now req fs = (Ok r, fs') /\
     ((no_images req /\ r = jsonify (JsonError "No images provided") 400 /\ fs' = fs) \/
      (~ no_images req /\ status r = 200%nat /\
       exists batch, payload r = JsonBatch batch /\ session_id batch = Some now))) /\
  (forall s, exists r s',
     api_index.predict req s = (Ok r, s') /\
     ((no_images req /\ r = jsonify (JsonError "No images provided") 400 /\ s' = s) \/
      (~ no_images req /\ status r = 200%nat /\
       exists batch, payload r = JsonBatch batch /\ session_id batch = None))).
Proof.
  split.
  - intros now fs. pose proof (backend_predict_spec model now req fs) as Hs.
    unfold no_images. destruct (files req !! "images") as [[|file fl]|].
    + eexists _, _. split; [exact Hs|]. left. auto.
    + destruct Hs as (rs & fs' & Hp & _). eexists _, _. split; [exact Hp|].
      right. split; [intros [?|?]; discriminate|]. split; [reflexivity|].
      eexists. split; reflexivity.
    + eexists _, _. split; [exact Hs|]. left. auto.
  - intros s. pose proof (api_predict_spec req s) as Hs.
    unfold no_images. destruct (files req !! "images") as [[|file fl]|].
    + eexists _, _. split; [exact Hs|]. left. auto.
    + destruct Hs as (rs & s' & Hp & _). eexists _, _. split; [exact Hp|].
      right. split; [intros [?|?]; discriminate|]. split; [reflexivity|].
      eexists. split; reflexivity.
    + eexists _, _. split; [exact Hs|]. left. auto.
Qed.

(** ** The counts by class *)

Lemma tally_lookup rs : forall counts c,
  tally rs counts !! c =
  if String.eqb c "error" then counts !! c
  else match class_count c rs with
       | O => counts !! c
       | S n => Some (default 0 (counts !! c) + S n)%nat
       end.
Proof.
  induction rs as [|r rs IH]; intros counts c.
  - cbn. now destruct (String.eqb c "error").
  - change (tally (r :: rs) counts) with
      (tally rs (if negb (String.eqb (class r) "error")
                 then count_class (class r) counts else counts)).
    rewrite IH. destruct (String.eqb_spec c "error") as [->|Hc].
    + destruct (String.eqb_spec (class r) "error") as [E|E]; cbn [negb]; [reflexivity|].
      unfold count_class. now rewrite lookup_insert_ne.
    + unfold class_count. rewrite filter_cons.
      destruct (decide (class r = c)) as [<-|D].
      * apply String.eqb_neq in Hc. rewrite Hc. cbn [negb length].
        unfold count_class. rewrite lookup_insert_eq. cbn [default from_option id].
        destruct (length (filter _ rs)); f_equal; lia.
      * destruct (String.eqb_spec (class r) "error") as [E|E]; cbn [negb]; [reflexivity|].
        unfold count_class. now rewrite lookup_insert_ne.
Qed.

Lemma class_count_pos c rs :
  (0 < class_count c rs)%nat -> exists r, r ∈ rs /\ class r = c.
Proof.
  unfold class_count. intros Hpos.
  destruct (filter (fun r => class r = c) rs) as [|r l] eqn:E; [cbn in Hpos; lia|].
  assert (r ∈ filter (fun r => class r = c) rs) as Hin by (rewrite E; left).
  apply list_elem_of_filter in Hin as [Hc Hin]. eauto.
Qed.

Lemma backend_predict_image_class `{pil : PIL} {host : Host} {torch : Torch}
    (model : Model) b f sid fs r fs' :
  backend_app.predict_image model b f sid fs = (Ok r, fs') ->
  class r = "error" \/ In (class r) CIFAR10_CLASSES.
Proof.
  unfold backend_app.predict_image, try_except.
  destruct (backend_app.classify model b f sid fs) as [[r0|e] s1] eqn:E.
  - intros [= <- <-]. right. now apply backend_classify_success in E as (_ & H & _).
  - intros [= <- <-]. now left.
Qed.

Lemma api_predict_image_class `{pil : PIL} {host : Host} {torch : Torch} b f s r s' :
  api_index.predict_image b f s = (Ok r, s') ->
  class r = "error" \/ In (class r) CIFAR10_CLASSES.
Proof.
  unfold api_index.predict_image, try_except.
  destruct (api_index.classify b f s) as [[r0|e] s1] eqn:E.
  - intros [= <- <-]. right. now apply api_classify_success in E as (_ & H & _).
  - intros [= <- <-]. now left.
Qed.

Lemma tally_counts (rs : list ClassificationResult) :
  Forall (fun r => class r = "error" \/ In (class r) CIFAR10_CLASSES) rs ->
  forall c n, tally rs ∅ !! c = Some n <->
              In c CIFAR10_CLASSES /\ (0 < n)%nat /\ n = class_count c rs.
Proof.
  intros Hlab c n. rewrite tally_lookup, lookup_empty. cbn [default from_option id].
  split.
  - destruct (String.eqb_spec c "error") as [->|Hc]; [discriminate|].
    destruct (class_count c rs) as [|k] eqn:E; [discriminate|]. intros [= <-].
    split; [|lia].
    destruct (class_count_pos c rs) as (r & Hin & Hr); [lia|].
    rewrite Forall_forall in Hlab. destruct (Hlab r Hin) as [He|Hl]; congruence.
  - intros (Hin & Hpos & ->). pose proof (label_not_error c Hin) as Hne.
    apply String.eqb_neq in Hne. rewrite Hne.
    destruct (class_count c rs); [lia|reflexivity].
Qed.

Lemma Forall2_right {A B} (R : A -> B -> Prop) (Q : B -> Prop) l k :
  (forall a b, R a b -> Q b) -> Forall2 R l k -> Forall Q k.
Proof. intros HR H. induction H; constructor; eauto. Qed.

(** X2: in the batch either [predict] view answers with, [class_counts]
    has a key exactly for the labels that occur among the results, every key
    is one of the ten labels, and the value under a key is the number of
    results of that class. *)
Theorem class_counts_per_class `{pil : PIL} {host : Host} {torch : Torch} (model : Model) :
  (forall now req fs batch fs',
     backend_app.predict model now req fs = (Ok (jsonify (JsonBatch batch) 200), fs') ->
     forall c n, class_counts batch !! c = Some n <->
                 In c CIFAR10_CLASSES /\ (0 < n)%nat /\ n = class_count c (results batch)) /\
  (forall req s batch s',
     api_index.predict req s = (Ok (jsonify (JsonBatch batch) 200), s') ->
     forall c n, class_counts batch !! c = Some n <->
                 In c CIFAR10_CLASSES /\ (0 < n)%nat /\ n = class_count c (results batch)).
Proof.
  split.
  - intros now req fs batch fs' Hp. pose proof (backend_predict_spec model now req fs) as Hs.
    unfold jsonify in Hp, Hs.
    destruct (files req !! "images") as [[|file fl]|]; try congruence.
    destruct Hs as (rs & fs1 & Hp' & _ & _ & Heach).
    rewrite Hp' in Hp. injection Hp as <- <-. cbn [class_counts results].
    apply tally_counts. eapply Forall2_right; [|exact Heach].
    intros a b (s0 & s1 & H). eapply backend_predict_image_class, H.
  - intros req s batch s' Hp. pose proof (api_predict_spec req s) as Hs.
    unfold jsonify in Hp, Hs.
    destruct (files req !! "images") as [[|file fl]|]; try congruence.
    destruct Hs as (rs & s1 & Hp' & _ & _ & Heach).
    rewrite Hp' in Hp. injection Hp as <- <-. cbn [class_counts results].
    apply tally_counts. eapply Forall2_right; [|exact Heach].
    intros a b (s0 & s2 & H). eapply api_predict_image_class, H.
Qed.

Lemma class_counts_per_class_witness :
  let rs := [ error_result "junk.txt"
                (Exception "UnidentifiedImageError" "cannot identify image file");
              {| filename := "cat.jpg"; class := "cat"; confidence := None; error := None;
                 saved_path := Some "classified_images/20240101_120000/cat/cat.jpg" |};
              {| filename := "dog.png"; class := "dog"; confidence := None; error := None;
                 saved_path := Some "classified_images/20240101_120000/dog/dog.png" |} ] in
  tally rs ∅ !! "cat" = Some 1%nat <->
  In "cat" CIFAR10_CLASSES /\ (0 < 1)%nat /\ 1%nat = class_count "cat" rs.
Proof.
  intros rs.
  apply (proj1 (class_counts_per_class (host := Stub.host) (torch := Stub.torch) 0%nat)
           Stub.now Stub.upload Stub.fresh
           {| results := rs; session_id := Some Stub.now; class_counts := tally rs ∅;
              total_images := 3 |}
           Stub.classified).
  reflexivity.
Defined.

(** ** What [predict_image] of [backend/app.py] writes *)

Section BackendWrites.
Context `{pil : PIL} {host : Host} {torch : Torch} (model : Model).

(** The outcome of the [try] block, statement by statement. *)
Lemma backend_classify_cases b f sid fs :
  (exists e, backend_app.classify model b f sid fs = (Raise e, fs)) \/
  exists image input_tensor output predicted_idx predicted_class,
    backend_app.input_tensor b = Ok (image, input_tensor) /\
    Model_call model (unsqueeze0 input_tensor) = Ok output /\
    torch_max_item output = Ok predicted_idx /\
    labelOf predicted_idx = Ok predicted_class /\
    let class_dir :=
      os.path_join (os.path_join backend_app.OUTPUT_DIR sid) predicted_class in
    (exists e fs1,
       os_makedirs class_dir fs = (Raise e, fs1) /\
       backend_app.classify model b f sid fs = (Raise e, fs1)) \/
    (exists fs1 e fs2,
       os_makedirs class_dir fs = (Ok tt, fs1) /\
       Image_save image (os.path_join class_dir f) fs1 = (Raise e, fs2) /\
       backend_app.classify model b f sid fs = (Raise e, fs2)) \/
    (exists fs1 fs2,
       os_makedirs class_dir fs = (Ok tt, fs1) /\
       Image_save image (os.path_join class_dir f) fs1 = (Ok tt, fs2) /\
       backend_app.classify model b f sid fs
       = (Ok {| filename := f; class := predicted_class; confidence := None;
                error := None; saved_path := Some (os.path_join class_dir f) |}, fs2)).
Proof.
  unfold backend_app.classify.
  destruct (backend_app.input_tensor b) as [[image t]|e] eqn:Hit;
    [|left; exists e; reflexivity].
  rewrite (bind_lift_Ok _ _ _ _ eq_refl). cbv beta zeta. cbn [fst snd].
  destruct (Model_call model (unsqueeze0 t)) as [output|e] eqn:Hout;
    [|left; exists e; reflexivity].
  rewrite (bind_lift_Ok _ _ _ _ eq_refl). cbv beta zeta.
  destruct (torch_max_item output) as [idx|e] eqn:Hidx;
    [|left; exists e; reflexivity].
  rewrite (bind_lift_Ok _ _ _ _ eq_refl). cbv beta zeta.
  destruct (list_getitem CIFAR10_CLASSES idx) as [c|e] eqn:Hc;
    [|left; exists e; reflexivity].
  rewrite (bind_lift_Ok _ _ _ _ eq_refl). cbv beta zeta.
  right. exists image, t, output, idx, c. repeat (split; [first [reflexivity|assumption]|]).
  cbv zeta.
  destruct (os_makedirs (os.path_join (os.path_join backend_app.OUTPUT_DIR sid) c) fs)
    as [[[]|e] fs1] eqn:Hmk.
  - rewrite (bind_Ok _ _ _ _ _ Hmk). cbv beta zeta.
    destruct (Image_save image
                (os.path_join (os.path_join (os.path_join backend_app.OUTPUT_DIR sid) c) f)
                fs1) as [[[]|e] fs2] eqn:Hsv.
    + right. right. exists fs1, fs2. rewrite (bind_Ok _ _ _ _ _ Hsv). auto.
    + right. left. exists fs1, e, fs2. rewrite (bind_Raise _ _ _ _ _ Hsv). auto.
  - left. exists e, fs1. rewrite (bind_Raise _ _ _ _ _ Hmk). auto.
Qed.

End BackendWrites.

(** X3: [predict_image] of [backend/app.py] touches the file system only
    once a label has been predicted: unless the upload was decoded,
    preprocessed, run through the network and given a label, the file system
    is left as it was; and then what has changed is what [os.makedirs] of the
    class directory did, and what [image.save] did after it. *)
Theorem backend_writes_after_label `{pil : PIL} {host : Host} {torch : Torch}
    (model : Model) (b : list byte) (f sid : string) (fs fs' : filesystem)
    (r : ClassificationResult) :
  backend_app.predict_image model b f sid fs = (Ok r, fs') ->
  fs' = fs \/
  exists image input_tensor output predicted_idx predicted_class,
    backend_app.input_tensor b = Ok (image, input_tensor) /\
    Model_call model (unsqueeze0 input_tensor) = Ok output /\
    torch_max_item output = Ok predicted_idx /\
    labelOf predicted_idx = Ok predicted_class /\
    exists made fs1,
      os_makedirs (os.path_join (os.path_join backend_app.OUTPUT_DIR sid) predicted_class)
                  fs = (made, fs1) /\
      (fs' = fs1 \/
       exists saved,
         made = Ok tt /\
         Image_save image
           (os.path_join
              (os.path_join (os.path_join backend_app.OUTPUT_DIR sid) predicted_class) f)
           fs1 = (saved, fs')).
Proof.
  unfold backend_app.predict_image, try_except. intros Hp.
  destruct (backend_classify_cases model b f sid fs)
    as [[e Hc]|(image & t & output & idx & c & Hit & Hout & Hidx & Hlab & Hrest)].
  - rewrite Hc in Hp. injection Hp as _ <-. now left.
  - right. exists image, t, output, idx, c. repeat (split; [assumption|]).
    cbv zeta in Hrest.
    destruct Hrest as [(e & fs1 & Hmk & Hc)|[(fs1 & e & fs2 & Hmk & Hsv & Hc)
                                            |(fs1 & fs2 & Hmk & Hsv & Hc)]];
      rewrite Hc in Hp; injection Hp as _ <-; eauto 10.
Qed.

Lemma backend_writes_after_label_witness :
  snd (backend_app.predict_image (host := Stub.host) (torch := Stub.torch) 0%nat
         [x00] "junk.txt" Stub.now Stub.fresh) = Stub.fresh.
Proof.
  destruct (backend_writes_after_label (host := Stub.host) (torch := Stub.torch) 0%nat
              [x00] "junk.txt" Stub.now Stub.fresh Stub.fresh
              (error_result "junk.txt"
                 (Exception "UnidentifiedImageError" "cannot identify image file"))
              eq_refl) as [_|_]; reflexivity.
Defined.

(** X4: a result of [predict_image] of [backend/app.py] that is no error
    entry means the picture was saved: the upload decoded to a picture,
    which (converted to RGB, not resized) was saved under the class
    directory of the session, both [os.makedirs] and [image.save] returning;
    [saved_path] is the path it was saved at and [class] one of the ten
    labels. *)
Theorem backend_success_saved `{pil : PIL} {host : Host} {torch : Torch}
    (model : Model) (b : list byte) (f sid : string) (fs fs' : filesystem)
    (r : ClassificationResult) :
  backend_app.predict_image model b f sid fs = (Ok r, fs') ->
  class r <> "error" ->
  exists image fs1,
    opened_rgb b = Ok image /\ Image_mode image = "RGB" /\
    In (class r) CIFAR10_CLASSES /\
    let class_dir := os.path_join (os.path_join backend_app.OUTPUT_DIR sid) (class r) in
    os_makedirs class_dir fs = (Ok tt, fs1) /\
    Image_save image (os.path_join class_dir f) fs1 = (Ok tt, fs') /\
    r = {| filename := f; class := class r; confidence := None; error := None;
           saved_path := Some (os.path_join class_dir f) |}.
Proof.
  unfold backend_app.predict_image, try_except. intros Hp Hne.
  destruct (backend_classify_cases model b f sid fs)
    as [[e Hc]|(image & t & output & idx & c & Hit & Hout & Hidx & Hlab & Hrest)].
  { rewrite Hc in Hp. injection Hp as <- _. now contradiction Hne. }
  cbv zeta in Hrest.
  destruct Hrest as [(e & fs1 & Hmk & Hc)|[(fs1 & e & fs2 & Hmk & Hsv & Hc)
                                          |(fs1 & fs2 & Hmk & Hsv & Hc)]];
    rewrite Hc in Hp; injection Hp as <- <-; try now contradiction Hne.
  cbn [class]. exists image, fs1.
  unfold backend_app.input_tensor in Hit.
  destruct (opened_rgb b) as [image'|e] eqn:Hop; [|discriminate]. cbn [result_bind] in Hit.
  destruct (backend_app.transform image') as [t'|e]; [|discriminate].
  cbn [result_bind] in Hit. injection Hit as -> ->.
  split; [reflexivity|]. split; [now apply (opened_rgb_mode b)|].
  split; [now apply (list_getitem_In _ idx)|]. cbv zeta. auto.
Qed.

Lemma backend_success_saved_witness :
  exists image fs1,
    opened_rgb (pil := Stub.pil) Stub.black32 = Ok image /\ Image_mode image = "RGB" /\
    In "cat" CIFAR10_CLASSES /\
    os_makedirs (Host := Stub.host) "classified_images/20240101_120000/cat" Stub.fresh
      = (Ok tt, fs1) /\
    Image_save (Host := Stub.host) image "classified_images/20240101_120000/cat/cat.jpg" fs1
      = (Ok tt, snd (backend_app.predict_image (host := Stub.host) (torch := Stub.torch)
                       0%nat Stub.black32 "cat.jpg" Stub.now Stub.fresh)).
Proof.
  destruct (backend_success_saved (host := Stub.host) (torch := Stub.torch) 0%nat
              Stub.black32 "cat.jpg" Stub.now Stub.fresh
              (snd (backend_app.predict_image (host := Stub.host) (torch := Stub.torch)
                      0%nat Stub.black32 "cat.jpg" Stub.now Stub.fresh))
              {| filename := "cat.jpg"; class := "cat"; confidence := None; error := None;
                 saved_path := Some "classified_images/20240101_120000/cat/cat.jpg" |})
    as (image & fs1 & H1 & H2 & H3 & H4 & H5 & _).
  - reflexivity.
  - discriminate.
  - exists image, fs1. auto.
Defined.

(** ** Joined paths *)

Lemma append_cons (c : ascii) (a b : string) : String c a +:+ b = String c (a +:+ b).
Proof. reflexivity. Qed.

Lemma append_assoc (a b c : string) : (a +:+ b) +:+ c = a +:+ (b +:+ c).
Proof. induction a as [|x a IH]; [reflexivity|]. rewrite !append_cons. now f_equal. Qed.

Lemma append_nonempty (a n : string) : String.eqb n "" = false -> String.eqb (a +:+ n) "" = false.
Proof. destruct a; [easy|reflexivity]. Qed.

Lemma endswith_sep_name (n : string) : contains_sep n = false -> os.endswith_sep n = false.
Proof.
  induction n as [|c n IH]; [reflexivity|]. cbn [contains_sep os.endswith_sep].
  intros [Hc Hn]%orb_false_elim. destruct n; [exact Hc|now apply IH].
Qed.

Lemma endswith_sep_append (a n : string) :
  String.eqb n "" = false -> contains_sep n = false -> os.endswith_sep (a +:+ n) = false.
Proof.
  intros Hne Hn. induction a as [|c a IH]; [now apply endswith_sep_name|].
  rewrite append_cons. cbn [os.endswith_sep].
  destruct (a +:+ n) eqn:E; [|exact IH].
  destruct a; [change (n = "") in E; subst n|rewrite append_cons in E]; discriminate.
Qed.

Lemma startswith_sep_append (a b : string) :
  String.eqb a "" = false -> os.startswith_sep (a +:+ b) = os.startswith_sep a.
Proof. destruct a; [discriminate|reflexivity]. Qed.

(** Joining a name to a path that does not end in a separator. *)
Lemma path_join_name (a n : string) :
  valid_name n = true -> String.eqb a "" = false -> os.endswith_sep a = false ->
  os.path_join a n = a +:+ "/" +:+ n.
Proof.
  intros (_ & _ & _ & Hn)%valid_name_inv Ha He. unfold os.path_join.
  now rewrite (startswith_contains n Hn), Ha, He.
Qed.

Lemma path_join_name_ends (a n : string) :
  valid_name n = true ->
  String.eqb (a +:+ "/" +:+ n) "" = false /\ os.endswith_sep (a +:+ "/" +:+ n) = false.
Proof.
  intros (Hne & _ & _ & Hn)%valid_name_inv. split.
  - apply append_nonempty. reflexivity.
  - rewrite <- append_assoc. now apply endswith_sep_append.
Qed.

Lemma label_valid_name (c : string) : In c CIFAR10_CLASSES -> valid_name c = true.
Proof. cbn. intros H. repeat (destruct H as [<-|H]; [reflexivity|]). contradiction. Qed.

(** X5: the file name of the upload is joined to the class directory as it
    is (the handler does not sanitise it).  For a name without a leading
    separator [saved_path] is [classified_images/<session>/<class>/<name>];
    a name that begins with [/] replaces the whole path, so the picture is
    saved at that absolute path, outside the output directory. *)
Theorem saved_path_of_filename `{pil : PIL} {host : Host} {torch : Torch}
    (model : Model) (b : list byte) (f sid : string) (fs fs' : filesystem)
    (r : ClassificationResult) :
  backend_app.predict_image model b f sid fs = (Ok r, fs') ->
  class r <> "error" -> valid_name sid = true ->
  (os.startswith_sep f = false ->
   saved_path r
   = Some ("classified_images/" +:+ sid +:+ "/" +:+ class r +:+ "/" +:+ f)) /\
  (os.startswith_sep f = true ->
   saved_path r = Some f /\
   exists image fs1, opened_rgb b = Ok image /\ Image_save image f fs1 = (Ok tt, fs')).
Proof.
  unfold backend_app.predict_image, try_except. intros Hp Hne Hsid.
  destruct (backend_classify_cases model b f sid fs)
    as [[e Hc]|(image & t & output & idx & c & Hit & Hout & Hidx & Hlab & Hrest)].
  { rewrite Hc in Hp. injection Hp as <- _. now contradiction Hne. }
  cbv zeta in Hrest.
  destruct Hrest as [(e & fs1 & Hmk & Hc)|[(fs1 & e & fs2 & Hmk & Hsv & Hc)
                                          |(fs1 & fs2 & Hmk & Hsv & Hc)]];
    rewrite Hc in Hp; injection Hp as <- <-; try now contradiction Hne.
  cbn [class saved_path]. split.
  - intros Hf. f_equal. unfold os.path_join at 1. rewrite Hf.
    pose proof (valid_name_inv sid Hsid) as (_ & _ & _ & Hs).
    rewrite (path_join_output sid (startswith_contains sid Hs)).
    assert (valid_name c = true) as Hcv
      by (apply label_valid_name, (list_getitem_In _ idx); exact Hlab).
    change "classified_images/" with ("classified_images" +:+ "/").
    rewrite (append_assoc "classified_images" "/" sid).
    destruct (path_join_name_ends "classified_images" sid Hsid) as [H1 H2].
    rewrite (path_join_name _ c Hcv H1 H2).
    destruct (path_join_name_ends ("classified_images" +:+ "/" +:+ sid) c Hcv) as [H3 H4].
    rewrite H3, H4. cbn [orb]. now rewrite !append_assoc.
  - intros Hf. unfold os.path_join at 1 in Hsv. unfold os.path_join at 1.
    rewrite Hf in Hsv |- *. split; [reflexivity|].
    exists image, fs1. split; [|exact Hsv].
    unfold backend_app.input_tensor in Hit.
    destruct (opened_rgb b) as [image'|e] eqn:Hop; [|discriminate].
    cbn [result_bind] in Hit.
    destruct (backend_app.transform image') as [t'|e]; [|discriminate].
    cbn [result_bind] in Hit. now injection Hit as -> ->.
Qed.

Lemma saved_path_of_filename_witness :
  saved_path {| filename := "/cat.jpg"; class := "cat"; confidence := None; error := None;
                saved_path := Some "/cat.jpg" |} = Some "/cat.jpg" /\
  exists image fs1,
    opened_rgb (pil := Stub.pil) Stub.black32 = Ok image /\
    Image_save (Host := Stub.host) image "/cat.jpg" fs1
    = (Ok tt, snd (backend_app.predict_image (host := Stub.host) (torch := Stub.torch)
                     0%nat Stub.black32 "/cat.jpg" Stub.now Stub.fresh)).
Proof.
  apply (saved_path_of_filename (host := Stub.host) (torch := Stub.torch) 0%nat
           Stub.black32 "/cat.jpg" Stub.now Stub.fresh
           (snd (backend_app.predict_image (host := Stub.host) (torch := Stub.torch)
                   0%nat Stub.black32 "/cat.jpg" Stub.now Stub.fresh))
           {| filename := "/cat.jpg"; class := "cat"; confidence := None; error := None;
              saved_path := Some "/cat.jpg" |}).
  - reflexivity.
  - discriminate.
  - reflexivity.
  - reflexivity.
Defined.

(** ** Preprocessing of an upload *)


(** ** The model handle within one request *)

Section LoopInvariant.
Context {S : Type} (predict_image : list byte -> string -> M S ClassificationResult).
Context (Inv : S -> list ClassificationResult -> Prop).
Hypothesis Inv_step : forall b f s rs r s',
  Inv s rs -> predict_image b f s = (Ok r, s') -> Inv s' (rs ++ [r])%list.

(** What every iteration keeps, the loop keeps. *)
Lemma predict_loop_invariant files : forall results counts s rc s',
  Inv s results ->
  predict_loop predict_image files results counts s = (Ok rc, s') ->
  Inv s' (fst rc).
Proof.
  induction files as [|file files IH]; intros results counts s rc s' Hinv.
  - cbn [predict_loop]. unfold ret. now intros [= <- <-].
  - cbn [predict_loop]. destruct (String.eqb (FileStorage.filename file) "").
    + now apply IH.
    + intros (r & s1 & Hr & Hloop)%bind_Ok_inv. cbv beta zeta in Hloop.
      eapply IH; [|exact Hloop]. eapply Inv_step; eassumption.
Qed.

End LoopInvariant.

Section ApiState.
Context `{pil : PIL} {host : Host} {torch : Torch}.

Lemma get_model_state (s : api_index.state) x s1 :
  api_index.get_model s = (x, s1) ->
  (is_Some (api_index._model s) -> s1 = s) /\
  (api_index.loads s <= api_index.loads s1 <= S (api_index.loads s))%nat /\
  (api_index._model s1 = None -> exists e, x = Raise e).
Proof.
  unfold api_index.get_model. destruct (api_index._model s) as [m|] eqn:Hm.
  - intros [= <- <-]. split; [reflexivity|]. split; [lia|]. congruence.
  - destruct (torch_hub_load (api_index.hub s)) as [[m|e] h]; intros [= <- <-];
      cbn [api_index._model api_index.loads].
    + split; [now intros [? [=]]|]. split; [lia|discriminate].
    + split; [now intros [? [=]]|]. split; [lia|eauto].
Qed.

Lemma api_predict_image_state b f s r s' :
  api_index.predict_image b f s = (Ok r, s') ->
  (is_Some (api_index._model s) -> s' = s) /\
  (api_index.loads s <= api_index.loads s' <= S (api_index.loads s))%nat /\
  (api_index._model s' = None -> class r = "error").
Proof.
  unfold api_index.predict_image, try_except, api_index.classify.
  destruct (api_index.input_tensor b) as [it|e].
  2:{ rewrite (bind_lift_Raise _ _ _ _ eq_refl). unfold ret. intros [= <- <-].
      split; [reflexivity|]. split; [lia|reflexivity]. }
  rewrite (bind_lift_Ok _ _ _ _ eq_refl). cbv beta zeta.
  destruct (api_index.get_model s) as [[model|e] s1] eqn:G;
    pose proof (get_model_state s _ s1 G) as (Hwarm & Hloads & Hnone).
  2:{ rewrite (bind_Raise _ _ _ _ _ G). unfold ret. intros [= <- <-]. auto. }
  rewrite (bind_Ok _ _ _ _ _ G).
  assert (api_index._model s1 = None -> class r = "error") as Hcold
    by (intros [e [=]]%Hnone).
  repeat match goal with
         | |- context [bind (lift ?x) _ _] =>
             destruct x;
             [rewrite (bind_lift_Ok _ _ _ _ eq_refl); cbv beta zeta
             |rewrite (bind_lift_Raise _ _ _ _ eq_refl)]
         end;
    unfold ret; intros [= <- <-]; auto.
Qed.

End ApiState.

(** X7: what [predict] of [api/index.py] does to the model handle, requests
    being served one after another.  An instance that holds a model is left
    exactly as it was: no call of [torch.hub.load].  Otherwise
    [torch.hub.load] is called at most once for each result of the batch,
    and an instance that still holds no model afterwards has classified
    nothing: every result is an error entry. *)
Theorem api_predict_model_handle `{pil : PIL} {host : Host} {torch : Torch}
    (req : request) (s s' : api_index.state) (r : response) :
  api_index.predict req s = (Ok r, s') ->
  (is_Some (api_index._model s) -> s' = s) /\
  (api_index.loads s <= api_index.loads s')%nat /\
  forall batch, payload r = JsonBatch batch ->
    (api_index.loads s' <= api_index.loads s + total_images batch)%nat /\
    (api_index._model s' = None ->
     Forall (fun x => class x = "error") (results batch)).
Proof.
  unfold api_index.predict.
  destruct (files req !! "images") as [fl|].
  2:{ unfold ret. intros [= <- <-]. split; [reflexivity|]. split; [lia|]. discriminate. }
  destruct (length fl =? 0)%nat.
  { unfold ret. intros [= <- <-]. split; [reflexivity|]. split; [lia|]. discriminate. }
  intros (rc & s1 & Hloop & Hret)%bind_Ok_inv. unfold ret in Hret.
  injection Hret as <- <-.
  pose (Inv := fun (x : api_index.state) (rs : list ClassificationResult) =>
                 (is_Some (api_index._model s) -> x = s) /\
                 (api_index.loads s <= api_index.loads x <= api_index.loads s + length rs)%nat /\
                 (api_index._model x = None -> Forall (fun y => class y = "error") rs)).
  assert (Inv s1 (fst rc)) as (Hwarm & Hloads & Hcold).
  { apply (predict_loop_invariant api_index.predict_image Inv) with (3 := Hloop).
    - intros b f x rs y x' (Hw & Hl & Hc) Hp.
      apply api_predict_image_state in Hp as (Hw' & Hl' & Hc').
      split; [|split].
      + intros Hs. pose proof (Hw Hs) as ->. auto.
      + rewrite length_app. cbn [length]. lia.
      + intros Hn. apply Forall_app. split; [|constructor; auto].
        apply Hc. destruct (api_index._model x) as [m|] eqn:E; [|reflexivity].
        rewrite (Hw' (ex_intro _ m eq_refl)) in Hn. congruence.
    - split; [reflexivity|]. split; [cbn [length]; lia|constructor]. }
  split; [exact Hwarm|]. split; [lia|].
  intros batch [= <-]. cbn [total_images results]. split; [lia|exact Hcold].
Qed.

Lemma api_predict_model_handle_witness :
  let warm := @api_index.Build_state Stub.torch (Some 0%nat) 1%nat 1%nat in
  let req := {| files := <["images" := [ {| FileStorage.filename := "cat.jpg";
                                            FileStorage.stream := Stub.black32 |} ]]> ∅ |} in
  snd (api_index.predict (host := Stub.host) req warm) = warm /\
  (api_index.loads (snd (api_index.predict (host := Stub.host) req warm)) <= 1 + 1)%nat.
Proof.
  intros warm req.
  destruct (api_predict_model_handle (host := Stub.host) (torch := Stub.torch) req warm
              (snd (api_index.predict (host := Stub.host) req warm))
              (jsonify (JsonBatch
                 {| results := [ {| filename := "cat.jpg"; class := "cat";
                                    confidence := Some (F64.mul (F64.literal 9 1) (F64.of_Z 100));
                                    error := None; saved_path := None |} ];
                    session_id := None;
                    class_counts := <["cat" := 1%nat]> ∅;
                    total_images := 1 |}) 200))
    as (Hwarm & _ & Hbatch).
  - vm_compute. reflexivity.
  - split.
    + apply Hwarm. vm_compute. eauto.
    + apply (Hbatch _ eq_refl).
Defined.

(** ** The two sets of constants *)

Lemma affine_script_service (c : nat) (b : byte) :
  (c < 3)%nat ->
  F32.eqb (affine cifar_mean script_std c (scaled b))
          (affine cifar_mean service_std c (scaled b)) = false /\
  SFltb (SFabs (affine cifar_mean script_std c (scaled b)))
        (SFabs (affine cifar_mean service_std c (scaled b))) = true.
Proof.
  intros Hc. destruct c as [|[|[|c]]]; [| | |lia];
    destruct b; vm_compute; split; reflexivity.
Qed.

Lemma affine_service_range (c : nat) (b : byte) :
  (c < 3)%nat ->
  F32.leb (affine cifar_mean service_std c F32.zero)
          (affine cifar_mean service_std c (scaled b)) = true /\
  F32.leb (affine cifar_mean service_std c (scaled b))
          (affine cifar_mean service_std c F32.one) = true.
Proof.
  intros Hc. destruct c as [|[|[|c]]]; [| | |lia];
    destruct b; vm_compute; split; reflexivity.
Qed.

(** X8: [main.py] and the two services never agree on a tensor entry.
    For every RGB picture all three pipelines return a tensor, and at every
    position the entry [main.py] computes differs from the entry the services
    compute, and is the smaller of the two in absolute value. *)
Theorem script_and_service_disagree `{pil : PIL} (pic : Image) :
  Image_mode pic = "RGB" ->
  exists t t',
    main_script.transform pic = Ok t /\
    backend_app.transform pic = Ok t' /\ api_index.transform pic = Ok t' /\
    forall c y x, (c < 3)%nat -> (y < 32)%nat -> (x < 32)%nat ->
      exists v v',
        tensor_get t c y x = Some v /\ tensor_get t' c y x = Some v' /\
        F32.eqb v v' = false /\ SFltb (SFabs v) (SFabs v') = true.
Proof.
  intros Hmode.
  destruct (pipeline_correct cifar_mean script_std pic eq_refl eq_refl
              script_std_nonzero Hmode) as (_ & t & Ht & _ & Hget).
  destruct (pipeline_correct cifar_mean service_std pic eq_refl eq_refl
              service_std_nonzero Hmode) as (_ & t' & Ht' & _ & Hget').
  exists t, t'. repeat (split; [assumption|]).
  intros c y x Hc Hy Hx.
  destruct (Hget c y x Hc Hy Hx) as (_ & _ & Hv).
  destruct (Hget' c y x Hc Hy Hx) as (_ & _ & Hv').
  eexists _, _. split; [exact Hv|]. split; [exact Hv'|].
  now apply affine_script_service.
Qed.

Lemma script_and_service_disagree_witness :
  exists t t',
    main_script.transform (pil := Stub.pil) (Stub.Rgb (2%nat, 2%nat) xff xff xff) = Ok t /\
    backend_app.transform (pil := Stub.pil) (Stub.Rgb (2%nat, 2%nat) xff xff xff) = Ok t' /\
    exists v v',
      tensor_get t 0 0 0 = Some v /\ tensor_get t' 0 0 0 = Some v' /\
      F32.eqb v v' = false.
Proof.
  destruct (script_and_service_disagree (pil := Stub.pil)
              (Stub.Rgb (2%nat, 2%nat) xff xff xff) eq_refl)
    as (t & t' & Ht & Ht' & _ & Hall).
  exists t, t'. split; [exact Ht|]. split; [exact Ht'|].
  destruct (Hall 0%nat 0%nat 0%nat) as (v & v' & Hv & Hv' & Hne & _); [lia..|].
  eauto.
Defined.

(** X9: the tensor the services give to the network is bounded.  For
    every RGB picture, every entry of channel [c] lies between
    [(0 - mean[c]) / std[c]] and [(1 - mean[c]) / std[c]], the values of a
    black and of a white pixel; so no entry is infinite or not a number. *)
Theorem service_tensor_range `{pil : PIL} (pic : Image) :
  Image_mode pic = "RGB" ->
  exists t,
    backend_app.transform pic = Ok t /\ api_index.transform pic = Ok t /\
    forall c y x, (c < 3)%nat -> (y < 32)%nat -> (x < 32)%nat ->
      exists v,
        tensor_get t c y x = Some v /\
        F32.leb (affine cifar_mean service_std c F32.zero) v = true /\
        F32.leb v (affine cifar_mean service_std c F32.one) = true.
Proof.
  intros Hmode.
  destruct (pipeline_correct cifar_mean service_std pic eq_refl eq_refl
              service_std_nonzero Hmode) as (_ & t & Ht & _ & Hget).
  exists t. repeat (split; [assumption|]).
  intros c y x Hc Hy Hx. destruct (Hget c y x Hc Hy Hx) as (_ & _ & Hv).
  eexists. split; [exact Hv|]. now apply affine_service_range.
Qed.

Lemma service_tensor_range_witness :
  exists t,
    backend_app.transform (pil := Stub.pil) (Stub.Rgb (2%nat, 2%nat) xff xff xff) = Ok t /\
    exists v,
      tensor_get t 2 31 31 = Some v /\
      F32.leb (affine cifar_mean service_std 2 F32.zero) v = true /\
      F32.leb v (affine cifar_mean service_std 2 F32.one) = true.
Proof.
  destruct (service_tensor_range (pil := Stub.pil)
              (Stub.Rgb (2%nat, 2%nat) xff xff xff) eq_refl) as (t & Ht & _ & Hall).
  exists t. split; [exact Ht|]. apply Hall; lia.
Defined.

(** ** [get_model()] under every schedule *)

Section Threads.
Context `{torch : Torch}.

Lemma step_keeps_model (p : api_index.pc) (s : api_index.state) :
  is_Some (api_index._model s) -> is_Some (api_index._model (snd (api_index.step p s))).
Proof.
  intros [m Hm]. destruct p; cbn [api_index.step]; rewrite ?Hm; cbn; eauto.
  destruct (torch_hub_load (api_index.hub s)) as [[m'|e] h]; cbn; eauto.
Qed.

Lemma pc_ok_mono (s s' : api_index.state) (p : api_index.pc) :
  (is_Some (api_index._model s) -> is_Some (api_index._model s')) ->
  pc_ok s p -> pc_ok s' p.
Proof. destruct p as [| | | | |[[m|]|e]]; cbn; auto. Qed.

Lemma step_pc_ok (p : api_index.pc) (s : api_index.state) :
  pc_ok s p -> pc_ok (snd (api_index.step p s)) (fst (api_index.step p s)).
Proof.
  destruct p as [| |m| | |r]; cbn [api_index.step pc_ok].
  - destruct (api_index._model s) eqn:E; cbn; [rewrite E|]; eauto.
  - destruct (torch_hub_load (api_index.hub s)) as [[m'|e] h]; cbn; auto.
  - cbn. eauto.
  - intros [m Hm]. cbn. rewrite Hm. cbn. eauto.
  - intros [m Hm]. cbn. now rewrite Hm.
  - cbn. auto.
Qed.

Lemma step_thread_pc_ok (c : api_index.config) (i : nat) :
  Forall (pc_ok (snd c)) (fst c) ->
  Forall (pc_ok (snd (api_index.step_thread c i))) (fst (api_index.step_thread c i)).
Proof.
  intros Hc. unfold api_index.step_thread.
  destruct (fst c !! i) as [p|] eqn:Hp; [|exact Hc]. cbn [fst snd].
  apply Forall_insert.
  - eapply Forall_impl; [exact Hc|]. intros q. apply pc_ok_mono, step_keeps_model.
  - apply step_pc_ok. rewrite Forall_lookup in Hc. now apply (Hc i).
Qed.

Lemma run_pc_ok (schedule : list nat) : forall c,
  Forall (pc_ok (snd c)) (fst c) ->
  Forall (pc_ok (snd (api_index.run schedule c))) (fst (api_index.run schedule c)).
Proof.
  unfold api_index.run. induction schedule as [|i schedule IH]; intros c Hc; [exact Hc|].
  cbn [foldl]. now apply IH, step_thread_pc_ok.
Qed.

(** The calls of [torch.hub.load] made so far, and those that may still
    come, never grow together. *)
Lemma sum_list_with_insert {A} (f : A -> nat) (l : list A) (i : nat) (x y : A) :
  l !! i = Some x ->
  (sum_list_with f (<[i := y]> l) + f x = sum_list_with f l + f y)%nat.
Proof.
  revert i. induction l as [|a l IH]; intros [|i] H; try discriminate.
  - injection H as ->.
    change (f y + sum_list_with f l + f x = f x + sum_list_with f l + f y)%nat. lia.
  - specialize (IH i H).
    change (f a + sum_list_with f (<[i := y]> l) + f x
            = f a + sum_list_with f l + f y)%nat.
    lia.
Qed.

Lemma step_may_load (p : api_index.pc) (s : api_index.state) :
  (api_index.loads (snd (api_index.step p s)) + may_load (fst (api_index.step p s))
   <= api_index.loads s + may_load p)%nat.
Proof.
  destruct p; cbn [api_index.step may_load].
  - destruct (api_index._model s); cbn; lia.
  - destruct (torch_hub_load (api_index.hub s)) as [[m'|e] h]; cbn; lia.
  - cbn. lia.
  - cbn. lia.
  - cbn. lia.
  - cbn. lia.
Qed.

Lemma step_thread_may_load (c : api_index.config) (i : nat) :
  (api_index.loads (snd (api_index.step_thread c i))
   + sum_list_with may_load (fst (api_index.step_thread c i))
   <= api_index.loads (snd c) + sum_list_with may_load (fst c))%nat.
Proof.
  unfold api_index.step_thread.
  destruct (fst c !! i) as [p|] eqn:Hp; [|lia]. cbn [fst snd].
  pose proof (sum_list_with_insert may_load (fst c) i p
                (fst (api_index.step p (snd c))) Hp).
  pose proof (step_may_load p (snd c)). lia.
Qed.

Lemma run_may_load (schedule : list nat) : forall c,
  (api_index.loads (snd (api_index.run schedule c))
   + sum_list_with may_load (fst (api_index.run schedule c))
   <= api_index.loads (snd c) + sum_list_with may_load (fst c))%nat.
Proof.
  unfold api_index.run. induction schedule as [|i schedule IH]; intros c; [cbn; lia|].
  cbn [foldl]. pose proof (IH (api_index.step_thread c i)).
  pose proof (step_thread_may_load c i). lia.
Qed.

Lemma Forall_repeat {A} (P : A -> Prop) (x : A) (n : nat) : P x -> Forall P (repeat x n).
Proof. intros Hx. induction n; cbn [repeat]; constructor; auto. Qed.

Lemma may_load_repeat (n : nat) :
  sum_list_with may_load (repeat api_index.AtCheck n) = n.
Proof.
  induction n as [|n IH]; [reflexivity|].
  change (S (sum_list_with may_load (repeat api_index.AtCheck n)) = S n). now f_equal.
Qed.

Lemma step_thread_warm (s : api_index.state) (ps : list api_index.pc) (i : nat) :
  is_Some (api_index._model s) -> Forall (pc_warm s) ps ->
  snd (api_index.step_thread (ps, s) i) = s /\
  Forall (pc_warm s) (fst (api_index.step_thread (ps, s) i)).
Proof.
  intros [m Hm] Hps. unfold api_index.step_thread. cbn [fst snd].
  destruct (ps !! i) as [p|] eqn:Hp; [|auto]. cbn [fst snd].
  rewrite Forall_lookup in Hps. pose proof (Hps i p Hp) as [->|[->| ->]];
    cbn [api_index.step]; rewrite ?Hm; cbn [fst snd];
    (split; [reflexivity|]); apply Forall_insert; try (now apply Forall_lookup);
    unfold pc_warm; rewrite ?Hm; auto.
Qed.

Lemma run_warm (schedule : list nat) (s : api_index.state) : forall ps,
  is_Some (api_index._model s) -> Forall (pc_warm s) ps ->
  snd (api_index.run schedule (ps, s)) = s /\
  Forall (pc_warm s) (fst (api_index.run schedule (ps, s))).
Proof.
  unfold api_index.run. induction schedule as [|i schedule IH]; intros ps Hs Hps; [auto|].
  cbn [foldl]. destruct (step_thread_warm s ps i Hs Hps) as [E Hps'].
  destruct (api_index.step_thread (ps, s) i) as [ps' s']. cbn [fst snd] in E, Hps'.
  subst s'. now apply IH.
Qed.

End Threads.

(** X10: however the threads that call [get_model()] are interleaved, and
    whatever the global holds when they start, no call returns [None]: a
    caller gets a model, or the exception of [torch.hub.load]. *)
Theorem get_model_never_returns_None `{torch : Torch} (n : nat) (s : api_index.state)
    (schedule : list nat) :
  Forall returned_model
    (fst (api_index.run schedule (repeat api_index.AtCheck n, s))).
Proof.
  pose proof (run_pc_ok schedule (repeat api_index.AtCheck n, s)) as H.
  eapply Forall_impl; [apply H|].
  - cbn [fst snd]. now apply Forall_repeat.
  - intros [| | | | |[[m|]|e]]; cbn; auto.
Qed.

(** X11: however [n] concurrent calls of [get_model()] are interleaved,
    [torch.hub.load] is called at most [n] times, once per caller at worst.
    If the global holds a model when they start, it is not called at all:
    the state is left as it was and every call that has returned has returned
    that model. *)
Theorem get_model_loads_bounded `{torch : Torch} (n : nat) (s : api_index.state)
    (schedule : list nat) :
  (api_index.loads (snd (api_index.run schedule (repeat api_index.AtCheck n, s)))
   <= api_index.loads s + n)%nat /\
  (is_Some (api_index._model s) ->
   snd (api_index.run schedule (repeat api_index.AtCheck n, s)) = s /\
   forall i r,
     fst (api_index.run schedule (repeat api_index.AtCheck n, s)) !! i
     = Some (api_index.Returned r) ->
     r = Ok (api_index._model s)).
Proof.
  split.
  - pose proof (run_may_load schedule (repeat api_index.AtCheck n, s)) as H.
    cbn [fst snd] in H.
    rewrite may_load_repeat in H. lia.
  - intros Hs.
    destruct (run_warm schedule s (repeat api_index.AtCheck n) Hs) as [E Hps].
    { apply Forall_repeat. now left. }
    split; [exact E|]. intros i r Hi. rewrite Forall_lookup in Hps.
    destruct (Hps i _ Hi) as [?|[?|[= ->]]]; [discriminate..|reflexivity].
Qed.

Lemma get_model_loads_bounded_witness :
  let warm := @api_index.Build_state Stub.torch (Some 7%nat) 1%nat 1%nat in
  let final := api_index.run [0; 1; 0; 1; 1; 0]%nat
                 ([api_index.AtCheck; api_index.AtCheck], warm) in
  snd final = warm /\
  forall i r, fst final !! i = Some (api_index.Returned r) -> r = Ok (Some 7%nat).
Proof.
  intros warm final.
  apply (proj2 (get_model_loads_bounded (torch := Stub.torch) 2 warm
                  [0; 1; 0; 1; 1; 0]%nat)).
  cbn. eauto.
Defined.

(** ** [list_sessions] *)

(** X12: [list_sessions] never changes the file system.  It answers 200
    with an empty list when nothing is at the output path; when a regular
    file is there, [os.listdir] raises [NotADirectoryError], which the view
    does not catch; and when a directory is there it answers 200 with names
    taken from that directory. *)
Theorem list_sessions_outcome (fs : filesystem) :
  snd (backend_app.list_sessions fs) = fs /\
  match os.stat fs backend_app.OUTPUT_DIR with
  | None => fst (backend_app.list_sessions fs) = Ok (jsonify (JsonSessions []) 200)
  | Some (File _) =>
      fst (backend_app.list_sessions fs)
      = Raise (Exception "NotADirectoryError" backend_app.OUTPUT_DIR)
  | Some Dir =>
      exists names l,
        os.listdir fs backend_app.OUTPUT_DIR = Ok names /\
        fst (backend_app.list_sessions fs) = Ok (jsonify (JsonSessions l) 200) /\
        l ⊆ names
  end.
Proof.
  unfold backend_app.list_sessions. rewrite bind_get_state.
  unfold os.path_exists, os.listdir, os.stat.
  destruct (os.resolve fs backend_app.OUTPUT_DIR) as [k|]; [|split; reflexivity].
  destruct (entries fs !! k) as [[data|]|]; [split; reflexivity| |split; reflexivity].
  rewrite (bind_lift_Ok _ _ _ _ eq_refl). split; [reflexivity|].
  eexists _, _. split; [reflexivity|]. split; [reflexivity|].
  intros n Hn. now apply list_elem_of_filter in Hn as [_ Hn].
Qed.

(** ** What [download] writes *)

Lemma walk_components_grows (m m' : gmap (list string) entry) (comps : list string) :
  (forall p, m !! p = Some Dir -> m' !! p = Some Dir) ->
  (forall p, is_Some (m !! p) -> is_Some (m' !! p)) ->
  forall cur k, os.walk_components m cur comps = Some k ->
                os.walk_components m' cur comps = Some k.
Proof.
  intros Hdir Hex. induction comps as [|c rest IH]; intros cur k; cbn [os.walk_components].
  - destruct (m !! cur) eqn:E; [|discriminate]. intros [= <-].
    destruct (Hex cur (mk_is_Some _ _ E)) as [e' ->]. reflexivity.
  - destruct (m !! cur) as [[|]|] eqn:E; try discriminate. rewrite (Hdir _ E).
    destruct (_ || _); [apply IH|]. destruct (String.eqb c ".."); apply IH.
Qed.

Lemma resolve_new_grows (fs fs' : filesystem) (p : string) (k : list string) :
  grows fs fs' -> os.resolve_new fs p = Some k -> os.resolve_new fs' p = Some k.
Proof.
  intros (Hcwd & Hdir & Hex). unfold os.resolve_new. rewrite <- Hcwd.
  destruct (last (os.split_sep p)) as [n|]; [|discriminate].
  destruct (_ || _); [discriminate|].
  destruct (os.walk_components (entries fs) _ _) as [k0|] eqn:Ew; [|discriminate].
  rewrite (walk_components_grows _ _ _ Hdir Hex _ _ Ew).
  destruct (entries fs !! k0) as [[|]|] eqn:Ek; try discriminate.
  now rewrite (Hdir _ Ek).
Qed.

Lemma path_exists_grows (fs fs' : filesystem) (p : string) :
  grows fs fs' -> os.path_exists fs p = true -> os.path_exists fs' p = true.
Proof.
  intros (Hcwd & Hdir & Hex). unfold os.path_exists, os.stat, os.resolve. rewrite <- Hcwd.
  destruct (String.eqb p ""); [discriminate|].
  destruct (os.walk_components (entries fs) _ _) as [k|] eqn:Ew; [|discriminate].
  rewrite (walk_components_grows _ _ _ Hdir Hex _ _ Ew).
  destruct (entries fs !! k) eqn:Ek; [|discriminate].
  now destruct (Hex k (mk_is_Some _ _ Ek)) as [e' ->].
Qed.

Lemma insert_file_grows (fs : filesystem) (k : list string) (data : list byte) :
  entries fs !! k <> Some Dir ->
  grows fs {| entries := <[k := File data]> (entries fs); cwd := cwd fs |}.
Proof.
  intros Hk. split; [reflexivity|]. cbn [entries]. split; intros p.
  - intros Hp. rewrite lookup_insert_ne; [exact Hp|]. congruence.
  - intros Hp. destruct (decide (k = p)) as [->|Hne].
    + rewrite lookup_insert_eq. eauto.
    + now rewrite lookup_insert_ne.
Qed.

(** Walking a path that does not end here. *)
Lemma walk_components_app (m : gmap (list string) entry) (xs ys : list string) :
  ys <> [] -> forall cur,
  os.walk_components m cur (xs ++ ys) =
  match os.walk_components m cur xs with
  | Some k => os.walk_components m k ys
  | None => None
  end.
Proof.
  intros Hys. induction xs as [|c xs IH]; intros cur.
  - cbn [app]. destruct ys as [|y ys]; [contradiction|].
    cbn [os.walk_components]. destruct (m !! cur) as [e|] eqn:E; [|reflexivity].
    cbv beta iota. now rewrite E.
  - cbn [app os.walk_components]. destruct (m !! cur) as [[|]|]; try reflexivity.
    destruct (_ || _); [apply IH|]. destruct (String.eqb c ".."); apply IH.
Qed.

(** The path a file was created at is the path it is found at. *)
Lemma resolve_of_resolve_new (fs : filesystem) (p : string) (k : list string) :
  os.resolve_new fs p = Some k -> is_Some (entries fs !! k) -> os.resolve fs p = Some k.
Proof.
  unfold os.resolve_new, os.resolve. intros Hn Hk.
  destruct (last (os.split_sep p)) as [n|] eqn:El; [|discriminate].
  destruct (String.eqb_spec p "") as [->|_]; [cbn in El; injection El as <-; discriminate|].
  destruct (String.eqb n "" || String.eqb n "." || String.eqb n "..") eqn:Esp; [discriminate|].
  apply orb_false_iff in Esp as [Esp E2].
  assert (os.split_sep p = removelast (os.split_sep p) ++ [n])%list as Hsplit.
  { destruct (os.split_sep p) as [|c l] using rev_ind; [discriminate|].
    rewrite last_snoc in El. injection El as ->. now rewrite removelast_last. }
  rewrite Hsplit. rewrite walk_components_app by discriminate.
  destruct (os.walk_components (entries fs) _ (removelast _)) as [k0|]; [|discriminate].
  destruct (entries fs !! k0) as [[|]|] eqn:Ek; try discriminate.
  injection Hn as <-. cbn [os.walk_components]. rewrite Ek, Esp, E2.
  now destruct Hk as [e ->].
Qed.

(** A file written twice at the same path, then read. *)
Lemma written_twice (p : string) (d1 d2 data : list byte) (fs fs1 fs2 : filesystem) :
  os.write_file p d1 fs = (Ok tt, fs1) ->
  os.write_file p d2 fs1 = (Ok tt, fs2) ->
  os.read_file fs2 p = Ok data ->
  exists k,
    os.resolve_new fs p = Some k /\ entries fs !! k <> Some Dir /\
    fs1 = {| entries := <[k := File d1]> (entries fs); cwd := cwd fs |} /\
    fs2 = {| entries := <[k := File d2]> (entries fs); cwd := cwd fs |} /\
    data = d2.
Proof.
  intros (k & Hk & Hnd & ->)%write_file_inv Hw2 Hr.
  pose proof (resolve_new_grows _ _ _ _ (insert_file_grows fs k d1 Hnd) Hk) as Hk1.
  apply write_file_inv in Hw2 as (k' & Hk' & _ & ->).
  rewrite Hk1 in Hk'. injection Hk' as <-. cbn [entries cwd] in Hr |- *.
  rewrite insert_insert_eq in Hr |- *.
  exists k. repeat (split; [first [assumption|reflexivity]|]).
  assert (os.resolve {| entries := <[k := File d2]> (entries fs); cwd := cwd fs |} p
          = Some k) as Hres.
  { apply resolve_of_resolve_new.
    - apply (resolve_new_grows fs); [|exact Hk]. now apply insert_file_grows.
    - cbn [entries]. rewrite lookup_insert_eq. eexists. reflexivity. }
  unfold os.read_file, os.stat in Hr. rewrite Hres in Hr.
  cbn [entries] in Hr. rewrite lookup_insert_eq in Hr. now injection Hr as <-.
Qed.

Section DownloadEffect.
Context `{pil : PIL} {host : Host}.

(** The statements of a download that answered, one by one. *)
Lemma download_steps (sid : string) (fs fs' : filesystem) (r : response) :
  backend_app.download sid fs = (Ok r, fs') ->
  (os.path_exists fs (os.path_join backend_app.OUTPUT_DIR sid) = false /\
   r = jsonify (JsonError "Session not found") 404 /\ fs' = fs) \/
  (os.path_exists fs (os.path_join backend_app.OUTPUT_DIR sid) = true /\
   exists fs1 members data,
     os.write_file (os.path_join backend_app.OUTPUT_DIR
                      ("classified_images_" +:+ sid +:+ ".zip")) [] fs = (Ok tt, fs1) /\
     backend_app.archive_members fs1 (os.path_join backend_app.OUTPUT_DIR sid)
       = Ok members /\
     os.write_file (os.path_join backend_app.OUTPUT_DIR
                      ("classified_images_" +:+ sid +:+ ".zip"))
                   (ZipFile_bytes members) fs1 = (Ok tt, fs') /\
     os.read_file fs' (os.path_join backend_app.OUTPUT_DIR
                         ("classified_images_" +:+ sid +:+ ".zip")) = Ok data /\
     r = jsonify (Attachment ("classified_images_" +:+ sid +:+ ".zip") data) 200).
Proof.
  unfold backend_app.download. rewrite bind_get_state. cbv zeta.
  destruct (os.path_exists fs (os.path_join backend_app.OUTPUT_DIR sid)); cbn [negb].
  - intros H. right. split; [reflexivity|].
    apply bind_Ok_inv in H as ([] & fs1 & Hw1 & H). rewrite bind_get_state in H.
    apply bind_Ok_inv in H as (members & s & [Hm ->]%lift_Ok_inv & H).
    apply bind_Ok_inv in H as ([] & fs2 & Hw2 & H). rewrite bind_get_state in H.
    apply bind_Ok_inv in H as (data & s & [Hr ->]%lift_Ok_inv & H).
    unfold ret in H. injection H as <- <-. eauto 10.
  - intros [= <- <-]. left. auto.
Qed.

(** The same, in terms of the entry that is written. *)
Lemma download_written (sid : string) (fs fs' : filesystem) (r : response) :
  backend_app.download sid fs = (Ok r, fs') -> status r = 200%nat ->
  exists k members,
    os.path_exists fs (os.path_join backend_app.OUTPUT_DIR sid) = true /\
    os.resolve_new fs (os.path_join backend_app.OUTPUT_DIR
                         ("classified_images_" +:+ sid +:+ ".zip")) = Some k /\
    entries fs !! k <> Some Dir /\
    backend_app.archive_members
      {| entries := <[k := File []]> (entries fs); cwd := cwd fs |}
      (os.path_join backend_app.OUTPUT_DIR sid) = Ok members /\
    fs' = {| entries := <[k := File (ZipFile_bytes members)]> (entries fs);
             cwd := cwd fs |} /\
    r = jsonify (Attachment ("classified_images_" +:+ sid +:+ ".zip")
                            (ZipFile_bytes members)) 200.
Proof.
  intros Hd Hst.
  apply download_steps in Hd as [(_ & -> & _)|(Hex & fs1 & members & data & Hw1 & Hm & Hw2
                                                & Hr & ->)]; [discriminate Hst|].
  destruct (written_twice _ _ _ _ _ _ _ Hw1 Hw2 Hr) as (k & Hk & Hnd & -> & -> & ->).
  exists k, members. auto 10.
Qed.

End DownloadEffect.

(** X13: whatever the session id, a download that answers changes at most
    one entry of the file system.  With 404 nothing is written.  With 200
    the archive is created or replaced, at a path that held no directory; it
    holds the bytes that are sent; and every other file and every directory
    is as before. *)
Theorem download_writes_archive_only `{pil : PIL} {host : Host}
    (sid : string) (fs fs' : filesystem) (r : response) :
  backend_app.download sid fs = (Ok r, fs') ->
  (r = jsonify (JsonError "Session not found") 404 /\ fs' = fs) \/
  exists k data,
    r = jsonify (Attachment ("classified_images_" +:+ sid +:+ ".zip") data) 200 /\
    entries fs !! k <> Some Dir /\
    entries fs' !! k = Some (File data) /\
    os.read_file fs' (os.path_join backend_app.OUTPUT_DIR
                        ("classified_images_" +:+ sid +:+ ".zip")) = Ok data /\
    cwd fs' = cwd fs /\
    forall p, p <> k -> entries fs' !! p = entries fs !! p.
Proof.
  intros Hd. pose proof Hd as Hsteps.
  apply download_steps in Hsteps
    as [(_ & -> & ->)|(_ & fs1 & members & data & _ & _ & _ & Hr & Hresp)]; [now left|].
  right. destruct (download_written sid fs fs' r Hd) as (k & ms & _ & _ & Hnd & _ & -> & ->).
  { now rewrite Hresp. }
  exists k, (ZipFile_bytes ms). split; [reflexivity|]. split; [exact Hnd|].
  cbn [entries cwd]. split; [apply lookup_insert_eq|].
  injection Hresp as <-. split; [exact Hr|]. split; [reflexivity|].
  intros p Hp. now apply lookup_insert_ne.
Qed.

Lemma download_writes_archive_only_witness :
  exists k data,
    entries stored_session !! k <> Some Dir /\
    entries archived_session !! k = Some (File data) /\
    forall p, p <> k -> entries archived_session !! p = entries stored_session !! p.
Proof.
  destruct (download_writes_archive_only (host := Stub.host) Stub.now stored_session
              archived_session
              (jsonify (Attachment ("classified_images_" +:+ Stub.now +:+ ".zip")
                                   (Stub.black32 ++ Stub.white2)) 200))
    as [[H _]|(k & data & _ & H1 & H2 & _ & _ & H3)].
  - reflexivity.
  - discriminate H.
  - exists k, data. auto.
Defined.

(** X14: for a plain session id, downloading a session twice gives the same
    answer twice, and the second download leaves the file system as the
    first left it.  With a plain id the archive lies beside the session
    directory, not below it: it is no member of itself, and the files that
    are its members are not touched by a download. *)
Theorem download_idempotent `{pil : PIL} {host : Host}
    (sid : string) (fs fs' : filesystem) (r : response) :
  valid_name sid = true ->
  backend_app.download sid fs = (Ok r, fs') ->
  backend_app.download sid fs' = (Ok r, fs').
Proof.
  intros _ Hd. pose proof Hd as Hsteps.
  apply download_steps in Hsteps
    as [(Hex & -> & ->)|(_ & fs1 & members & data & Hw1 & Hm & Hw2 & Hr & Hresp)];
    [exact Hd|].
  destruct (download_written sid fs fs' r Hd) as (k & ms & Hex & Hk & Hnd & _ & Hfs' & _).
  { now rewrite Hresp. }
  pose proof Hw1 as Hw1'. apply write_file_inv in Hw1' as (k1 & Hk1 & _ & Hfs1).
  rewrite Hk in Hk1. injection Hk1 as <-.
  assert (grows fs fs') as Hg by (rewrite Hfs'; now apply insert_file_grows).
  unfold backend_app.download. rewrite bind_get_state. cbv zeta.
  rewrite (path_exists_grows _ _ _ Hg Hex). cbn [negb].
  assert (os.write_file
            (os.path_join backend_app.OUTPUT_DIR ("classified_images_" +:+ sid +:+ ".zip"))
            [] fs' = (Ok tt, fs1)) as Hw.
  { unfold os.write_file. rewrite (resolve_new_grows _ _ _ _ Hg Hk).
    rewrite Hfs', Hfs1. cbn [entries cwd]. rewrite lookup_insert_eq.
    now rewrite insert_insert_eq. }
  rewrite (bind_Ok _ _ _ _ _ Hw). rewrite bind_get_state.
  rewrite (bind_lift_Ok _ _ _ _ Hm). rewrite (bind_Ok _ _ _ _ _ Hw2).
  rewrite bind_get_state. rewrite (bind_lift_Ok _ _ _ _ Hr). now rewrite Hresp.
Qed.

Lemma download_idempotent_witness :
  backend_app.download (host := Stub.host) Stub.now archived_session
  = (Ok (jsonify (Attachment ("classified_images_" +:+ Stub.now +:+ ".zip")
                             (Stub.black32 ++ Stub.white2)) 200), archived_session).
Proof.
  apply (download_idempotent (host := Stub.host) Stub.now stored_session).
  - reflexivity.
  - reflexivity.
Defined.

(** ** Paths made of names *)

Lemma split_sep_join (a b : string) :
  os.split_sep (a +:+ "/" +:+ b) = (os.split_sep a ++ os.split_sep b)%list.
Proof.
  induction a as [|c a IH]; [reflexivity|].
  rewrite append_cons. cbn [os.split_sep]. rewrite IH.
  destruct (Ascii.eqb c "/"); [reflexivity|].
  destruct (os.split_sep a) as [|seg rest] eqn:E; [now apply split_sep_nonempty in E|].
  reflexivity.
Qed.

(** Joining names to a path, one after the other. *)
Lemma foldl_path_join (rel : list string) : forall top,
  Forall (fun n => valid_name n = true) rel ->
  String.eqb top "" = false -> os.endswith_sep top = false ->
  os.split_sep (foldl os.path_join top rel) = (os.split_sep top ++ rel)%list /\
  os.startswith_sep (foldl os.path_join top rel) = os.startswith_sep top /\
  String.eqb (foldl os.path_join top rel) "" = false.
Proof.
  induction rel as [|n rel IH]; intros top Hv Hne Hend; cbn [foldl].
  - now rewrite app_nil_r.
  - apply Forall_cons in Hv as [Hn Hv].
    rewrite (path_join_name top n Hn Hne Hend).
    destruct (path_join_name_ends top n Hn) as [Hne' Hend'].
    destruct (IH _ Hv Hne' Hend') as (Hs & Hst & Hnon).
    rewrite Hs, Hst, split_sep_join.
    pose proof (valid_name_inv n Hn) as (_ & _ & _ & Hsep).
    rewrite (split_sep_name n Hsep), <- app_assoc.
    split; [reflexivity|]. split; [|exact Hnon]. now apply startswith_sep_append.
Qed.

(** The same path, written with separators. *)
Lemma foldl_path_join_concat (rel : list string) : forall a n,
  Forall (fun n => valid_name n = true) (n :: rel) ->
  String.eqb a "" = false -> os.endswith_sep a = false ->
  foldl os.path_join a (n :: rel) = a +:+ "/" +:+ String.concat "/" (n :: rel).
Proof.
  induction rel as [|m rel IH]; intros a n Hv Hne Hend;
    apply Forall_cons in Hv as [Hn Hv].
  - cbn [foldl String.concat]. now apply path_join_name.
  - change (foldl os.path_join a (n :: m :: rel))
      with (foldl os.path_join (os.path_join a n) (m :: rel)).
    rewrite (path_join_name a n Hn Hne Hend).
    destruct (path_join_name_ends a n Hn) as [Hne' Hend'].
    rewrite (IH _ m Hv Hne' Hend').
    change (String.concat "/" (n :: m :: rel))
      with (n +:+ "/" +:+ String.concat "/" (m :: rel)).
    now rewrite !append_assoc.
Qed.

Lemma relative_name (c : string) (rel : list string) :
  Forall (fun n => valid_name n = true) (c :: rel) ->
  foldl os.path_join c rel = String.concat "/" (c :: rel).
Proof.
  intros Hv. pose proof Hv as [Hc Hrel]%Forall_cons.
  destruct rel as [|n rel]; [reflexivity|].
  pose proof (valid_name_inv c Hc) as (Hne & _ & _ & Hsep).
  now rewrite (foldl_path_join_concat rel c n Hrel Hne (endswith_sep_name c Hsep)).
Qed.

Lemma normpath_names (comps : list string) : forall acc,
  Forall (fun n => valid_name n = true) comps ->
  foldl (fun acc c =>
           if String.eqb c "" || String.eqb c "." then acc
           else if String.eqb c ".." then removelast acc
           else (acc ++ [c])%list) acc comps = (acc ++ comps)%list.
Proof.
  induction comps as [|c comps IH]; intros acc Hv; cbn [foldl].
  - now rewrite app_nil_r.
  - apply Forall_cons in Hv as [Hc Hv].
    pose proof (valid_name_inv c Hc) as (E0 & E1 & E2 & _). rewrite E0, E1, E2. cbn [orb].
    now rewrite (IH _ Hv), <- app_assoc.
Qed.

Lemma common_prefix_length_app (a b : list string) :
  os.common_prefix_length a (a ++ b) = length a.
Proof.
  induction a as [|x a IH]; cbn [app os.common_prefix_length length].
  - now destruct b.
  - now rewrite String.eqb_refl, IH.
Qed.

Lemma strip_prefix_spec (k p rel : list string) :
  os.strip_prefix k p = Some rel <-> p = (k ++ rel)%list.
Proof.
  revert p. induction k as [|a k IH]; intros p; cbn [os.strip_prefix app].
  - split; [now intros [= ->]|now intros ->].
  - destruct p as [|b p]; [split; discriminate|].
    destruct (String.eqb_spec a b) as [->|Hne].
    + rewrite IH. split; [now intros ->|now intros [= ->]].
    + split; [discriminate|]. intros [= -> _]. contradiction.
Qed.

(** [relpath] of a path below its start, both made of names. *)
Lemma relpath_below (fs : filesystem) (p top : string) (c : string) (rel : list string) :
  os.startswith_sep top = false -> os.startswith_sep p = false ->
  Forall (fun n => valid_name n = true) (cwd fs ++ os.split_sep top) ->
  Forall (fun n => valid_name n = true) (c :: rel) ->
  os.split_sep p = (os.split_sep top ++ c :: rel)%list ->
  os.path_relpath fs p top = String.concat "/" (c :: rel).
Proof.
  intros Htop Hp Hstart Hrel Hsplit.
  unfold os.path_relpath, os.abspath_components, os.normpath_components.
  rewrite Htop, Hp, Hsplit.
  rewrite (normpath_names _ [] Hstart). cbn [app].
  rewrite app_assoc.
  rewrite (normpath_names _ [] (proj2 (Forall_app _ _ _) (conj Hstart Hrel))). cbn [app].
  rewrite common_prefix_length_app, Nat.sub_diag, drop_app_length. cbn [repeat app].
  now apply relative_name.
Qed.

(** ** Paths in a closed file system *)

Lemma closed_prefix (fs : filesystem) :
  closed fs -> forall rel k, rel <> [] ->
  is_Some (entries fs !! (k ++ rel)%list) -> entries fs !! k = Some Dir.
Proof.
  intros Hc rel. induction rel as [|n rel IH] using rev_ind; intros k Hne [e He];
    [contradiction|].
  rewrite app_assoc in He. apply Hc in He.
  destruct (decide (rel = [])) as [->|Hrel]; [now rewrite app_nil_r in He|].
  apply IH; eauto.
Qed.

(** A path made of names resolves to the entry of those names. *)
Lemma walk_components_names (fs : filesystem) (comps : list string) :
  closed fs -> forall cur,
  Forall (fun n => valid_name n = true) comps ->
  is_Some (entries fs !! (cur ++ comps)%list) ->
  os.walk_components (entries fs) cur comps = Some (cur ++ comps)%list.
Proof.
  intros Hc. induction comps as [|c rest IH]; intros cur Hv Hex; cbn [os.walk_components].
  - rewrite app_nil_r in *. now destruct Hex as [e ->].
  - rewrite (closed_prefix fs Hc (c :: rest) cur) by (discriminate || assumption).
    apply Forall_cons in Hv as [Hcv Hv].
    pose proof (valid_name_inv c Hcv) as (E0 & E1 & E2 & _). rewrite E0, E1, E2. cbn [orb].
    rewrite (IH (cur ++ [c])%list Hv); rewrite <- app_assoc; [reflexivity|exact Hex].
Qed.

Lemma read_file_resolved (fs : filesystem) (p : string) (k : list string) (d : list byte) :
  os.resolve fs p = Some k -> entries fs !! k = Some (File d) -> os.read_file fs p = Ok d.
Proof. unfold os.read_file, os.stat. now intros -> ->. Qed.

(** ** The members of the archive *)

(** The paths [download] hands to [zipf.write]: the files directly under
    the directories at or below the top. *)
Lemma walked_files (fs : filesystem) (top : string) (k : list string) (fp : string) :
  os.resolve fs top = Some k ->
  In fp (flat_map (fun rdf => map (fun file => os.path_join (fst (fst rdf)) file) (snd rdf))
                  (os.walk fs top)) <->
  exists rel file d,
    entries fs !! (k ++ rel)%list = Some Dir /\
    entries fs !! ((k ++ rel) ++ [file])%list = Some (File d) /\
    fp = os.path_join (foldl os.path_join top rel) file.
Proof.
  intros Hk. unfold os.walk. rewrite Hk, in_flat_map. split.
  - intros (rdf & Hrdf & Hfp).
    apply list_elem_of_In, list_elem_of_omap in Hrdf as ([kd e] & Hpe & HF).
    apply elem_of_map_to_list in Hpe. cbn [fst snd] in HF.
    destruct e; [discriminate|].
    destruct (os.strip_prefix k kd) as [rel|] eqn:Erel; [|discriminate].
    apply strip_prefix_spec in Erel as ->. injection HF as <-. cbn [fst snd] in Hfp.
    apply in_map_iff in Hfp as (file & <- & Hfile).
    apply in_map_iff in Hfile as ([file' e'] & Hf & Hin). cbn [fst] in Hf. subst file'.
    apply list_elem_of_In, list_elem_of_filter in Hin as [Hnd Hin]. cbn [snd] in Hnd.
    apply elem_of_children in Hin. destruct e' as [d|]; [|discriminate].
    exists rel, file, d. auto.
  - intros (rel & file & d & Hdir & Hfile & ->).
    eexists (_, _, _). split.
    + apply list_elem_of_In, list_elem_of_omap. exists ((k ++ rel)%list, Dir).
      split; [now apply elem_of_map_to_list|].
      cbn [fst snd]. now rewrite (proj2 (strip_prefix_spec k (k ++ rel) rel) eq_refl).
    + cbn [fst snd]. apply in_map. apply in_map_iff. exists (file, File d).
      split; [reflexivity|].
      apply list_elem_of_In, list_elem_of_filter. split; [reflexivity|].
      now apply elem_of_children.
Qed.

(** Reading them one by one. *)
Lemma archive_fold (fs : filesystem) (dir : string) (fps : list string) :
  Forall (fun fp => exists d, os.read_file fs fp = Ok d) fps ->
  exists members,
    foldr (fun fp acc =>
             result_bind (os.read_file fs fp) (fun data =>
             result_bind acc (fun members =>
             Ok ((os.path_relpath fs fp dir, data) :: members))))
          (Ok []) fps = Ok members /\
    Forall2 (fun fp md => os.read_file fs fp = Ok (snd md) /\
                          fst md = os.path_relpath fs fp dir) fps members.
Proof.
  induction 1 as [|fp fps [d Hd] _ (members & Hm & Hall)]; cbn [foldr].
  - exists []. split; [reflexivity|constructor].
  - exists ((os.path_relpath fs fp dir, d) :: members). rewrite Hd, Hm. cbn [result_bind].
    split; [reflexivity|]. constructor; [split; [exact Hd|reflexivity]|exact Hall].
Qed.

Section Session.
Context (fs : filesystem) (sid : string).
Hypothesis Hwf : wf fs.
Hypothesis Hclosed : closed fs.
Hypothesis Hsid : valid_name sid = true.
Hypothesis Hexists : is_Some (entries fs !! (output_root fs ++ [sid])%list).

Lemma session_root_dir :
  entries fs !! cwd fs = Some Dir /\ entries fs !! output_root fs = Some Dir.
Proof.
  assert (entries fs !! output_root fs = Some Dir) as Hroot
    by (apply (closed_prefix fs Hclosed [sid]); [discriminate|exact Hexists]).
  split; [|exact Hroot]. apply (closed_prefix fs Hclosed [backend_app.OUTPUT_DIR]);
    [discriminate|]. unfold output_root in Hroot. rewrite Hroot. eauto.
Qed.

Lemma session_names :
  Forall (fun n => valid_name n = true) (cwd fs ++ ["classified_images"; sid]).
Proof.
  destruct session_root_dir as [Hcwd _]. apply Forall_app. split.
  - unfold wf in Hwf. rewrite map_Forall_lookup in Hwf. exact (Hwf _ _ Hcwd).
  - repeat constructor. exact Hsid.
Qed.

Lemma session_top :
  os.split_sep ("classified_images/" +:+ sid) = ["classified_images"; sid] /\
  os.endswith_sep ("classified_images/" +:+ sid) = false.
Proof.
  pose proof (valid_name_inv sid Hsid) as (_ & _ & _ & Hsep). split.
  - now rewrite split_sep_under_output, (split_sep_name sid Hsep).
  - apply (path_join_name_ends "classified_images" sid Hsid).
Qed.

(** A path of names below the session directory resolves to the entry of
    those names. *)
Lemma resolve_below (rel : list string) :
  is_Some (entries fs !! ((output_root fs ++ [sid]) ++ rel)%list) ->
  Forall (fun n => valid_name n = true) rel ->
  os.resolve fs (foldl os.path_join ("classified_images/" +:+ sid) rel)
  = Some ((output_root fs ++ [sid]) ++ rel)%list.
Proof.
  intros Hex Hrel. destruct session_top as [Hsplit Hend].
  destruct (foldl_path_join rel ("classified_images/" +:+ sid) Hrel eq_refl Hend)
    as (Hs & Hst & Hne).
  unfold os.resolve. rewrite Hne, Hst, Hs, Hsplit.
  change (os.startswith_sep ("classified_images/" +:+ sid)) with false. cbv iota.
  assert ((output_root fs ++ [sid]) ++ rel
          = cwd fs ++ (["classified_images"; sid] ++ rel))%list as E
    by (unfold output_root, backend_app.OUTPUT_DIR; now rewrite <- !app_assoc).
  rewrite E in Hex |- *. apply walk_components_names; [exact Hclosed| |exact Hex].
  apply Forall_app. split; [|exact Hrel]. repeat constructor. exact Hsid.
Qed.

Lemma resolve_session :
  os.resolve fs ("classified_images/" +:+ sid) = Some (output_root fs ++ [sid])%list.
Proof.
  pose proof (resolve_below []) as H. cbn [foldl] in H. rewrite app_nil_r in H.
  apply H; [exact Hexists|constructor].
Qed.

(** A file below the session directory, as [download] reads and names it. *)
Lemma session_file (rel : list string) (file : string) (d : list byte) :
  entries fs !! (((output_root fs ++ [sid]) ++ rel) ++ [file])%list = Some (File d) ->
  os.read_file fs (os.path_join (foldl os.path_join ("classified_images/" +:+ sid) rel) file)
  = Ok d /\
  os.path_relpath fs
    (os.path_join (foldl os.path_join ("classified_images/" +:+ sid) rel) file)
    ("classified_images/" +:+ sid)
  = String.concat "/" (rel ++ [file]).
Proof.
  intros Hfile. rewrite <- foldl_snoc.
  assert (Forall (fun n => valid_name n = true) (rel ++ [file])) as Hrel.
  { unfold wf in Hwf. rewrite map_Forall_lookup in Hwf.
    pose proof (Hwf _ _ Hfile) as Hall. rewrite <- app_assoc in Hall.
    now apply Forall_app in Hall as [_ Hall]. }
  rewrite <- app_assoc in Hfile.
  destruct session_top as [Hsplit Hend].
  destruct (foldl_path_join (rel ++ [file]) ("classified_images/" +:+ sid) Hrel eq_refl Hend)
    as (Hs & Hst & Hne).
  split.
  - apply (read_file_resolved _ _ _ _ (resolve_below _ (mk_is_Some _ _ Hfile) Hrel) Hfile).
  - destruct (rel ++ [file])%list as [|c rest] eqn:E; [now destruct rel|].
    apply relpath_below; try assumption; try reflexivity.
    rewrite Hsplit. exact session_names.
Qed.

Lemma archive_members_spec :
  exists members,
    backend_app.archive_members fs ("classified_images/" +:+ sid) = Ok members /\
    forall name data,
      (name, data) ∈ members <-> file_below fs (output_root fs ++ [sid]) name data.
Proof.
  unfold backend_app.archive_members.
  destruct (archive_fold fs ("classified_images/" +:+ sid)
              (flat_map (fun rdf => map (fun file => os.path_join (fst (fst rdf)) file)
                                        (snd rdf))
                        (os.walk fs ("classified_images/" +:+ sid))))
    as (members & Hm & Hall).
  { apply Forall_forall. intros fp Hfp%list_elem_of_In.
    apply (walked_files fs _ _ fp resolve_session) in Hfp as (rel & file & d & _ & Hf & ->).
    exists d. now apply session_file. }
  exists members. split; [exact Hm|]. intros name data. split.
  - intros [i Hi]%list_elem_of_lookup_1.
    destruct (Forall2_lookup_r _ _ _ _ _ Hall Hi) as (fp & Hfp & Hread & Hname).
    cbn [fst snd] in Hread, Hname.
    apply list_elem_of_lookup_2, list_elem_of_In in Hfp.
    apply (walked_files fs _ _ fp resolve_session) in Hfp as (rel & file & d & _ & Hf & ->).
    destruct (session_file rel file d Hf) as [Hread' Hname'].
    rewrite Hread' in Hread. injection Hread as ->.
    exists (rel ++ [file])%list. split; [now destruct rel|].
    split; [now rewrite app_assoc|]. now rewrite Hname, Hname'.
  - intros (rel' & Hne & Hf & ->).
    destruct rel' as [|file rel _] using rev_ind; [contradiction|].
    rewrite app_assoc in Hf.
    pose proof (Hclosed _ _ _ Hf) as Hdir.
    destruct (session_file rel file data Hf) as [Hread Hname].
    assert (In (os.path_join (foldl os.path_join ("classified_images/" +:+ sid) rel) file)
               (flat_map (fun rdf => map (fun file => os.path_join (fst (fst rdf)) file)
                                         (snd rdf))
                         (os.walk fs ("classified_images/" +:+ sid)))) as Hfp
      by (apply (walked_files fs _ _ _ resolve_session); eauto 10).
    apply list_elem_of_In, list_elem_of_lookup_1 in Hfp as [i Hi].
    destruct (Forall2_lookup_l _ _ _ _ _ Hall Hi) as ([n d] & Hmd & Hread' & Hname').
    cbn [fst snd] in Hread', Hname'. rewrite Hread in Hread'. injection Hread' as <-.
    rewrite Hname in Hname'. subst n. now apply list_elem_of_lookup_2 in Hmd.
Qed.

End Session.

(** A path written with separators has its names as components. *)
Lemma split_sep_concat (l : list string) :
  l <> [] -> Forall (fun n => valid_name n = true) l ->
  os.split_sep (String.concat "/" l) = l.
Proof.
  induction l as [|x l IH]; [contradiction|]. intros _ [Hx Hl]%Forall_cons.
  pose proof (valid_name_inv x Hx) as (_ & _ & _ & Hsep).
  destruct l as [|y l]; [now apply split_sep_name|].
  change (String.concat "/" (x :: y :: l)) with (x +:+ "/" +:+ String.concat "/" (y :: l)).
  rewrite split_sep_join, (split_sep_name x Hsep), IH by (discriminate || assumption).
  reflexivity.
Qed.

Lemma NoDup_fst_filter {A B} (P : A * B -> Prop) `{forall x, Decision (P x)}
    (l : list (A * B)) :
  NoDup (map fst l) -> NoDup (map fst (filter P l)).
Proof.
  induction l as [|a l IH]; [trivial|]. cbn [map]. intros [Ha Hl]%NoDup_cons.
  rewrite filter_cons. destruct (decide (P a)); [|now apply IH].
  cbn [map]. apply NoDup_cons. split; [|now apply IH].
  intros Hin. apply Ha. apply list_elem_of_In, in_map_iff in Hin as (x & Hx & Hin).
  apply list_elem_of_In, list_elem_of_filter in Hin as [_ Hin].
  apply list_elem_of_In, in_map_iff. exists x. split; [exact Hx|now apply list_elem_of_In].
Qed.

Lemma Forall2_map_fst {A B C} (h : A -> B) (R : A -> B * C -> Prop)
    (l : list A) (k : list (B * C)) :
  (forall a md, R a md -> fst md = h a) -> Forall2 R l k -> map fst k = map h l.
Proof.
  intros HR H. induction H as [|a md l k Hr _ IH]; [reflexivity|].
  cbn [map]. now rewrite IH, (HR _ _ Hr).
Qed.

Section SessionNames.
Context (fs : filesystem) (sid : string).
Hypothesis Hwf : wf fs.
Hypothesis Hclosed : closed fs.
Hypothesis Hsid : valid_name sid = true.
Hypothesis Hexists : is_Some (entries fs !! (output_root fs ++ [sid])%list).

(** The components of the path of an entry below the session directory. *)
Lemma split_sep_below (rel : list string) (e : entry) :
  entries fs !! ((output_root fs ++ [sid]) ++ rel)%list = Some e ->
  os.split_sep (foldl os.path_join ("classified_images/" +:+ sid) rel)
  = (["classified_images"; sid] ++ rel)%list.
Proof.
  intros He. destruct (session_top sid Hsid) as [Hsplit Hend].
  assert (Forall (fun n => valid_name n = true) rel) as Hrel.
  { unfold wf in Hwf. rewrite map_Forall_lookup in Hwf.
    pose proof (Hwf _ _ He) as Hall. now apply Forall_app in Hall as [_ Hall]. }
  destruct (foldl_path_join rel ("classified_images/" +:+ sid) Hrel eq_refl Hend)
    as (Hs & _). now rewrite Hs, Hsplit.
Qed.

(** A triple [os.walk] yields belongs to a directory at or below the
    session directory. *)
Lemma walk_entry (rdf : string * list string * list string) :
  rdf ∈ os.walk fs ("classified_images/" +:+ sid) ->
  exists rel,
    entries fs !! ((output_root fs ++ [sid]) ++ rel)%list = Some Dir /\
    rdf = (foldl os.path_join ("classified_images/" +:+ sid) rel,
           map fst (filter (fun ne => os.is_dir (snd ne) = true)
                           (os.children fs ((output_root fs ++ [sid]) ++ rel))),
           map fst (filter (fun ne => os.is_dir (snd ne) = false)
                           (os.children fs ((output_root fs ++ [sid]) ++ rel)))).
Proof.
  unfold os.walk. rewrite (resolve_session fs sid) by assumption.
  intros ([kd e] & Hpe & HF)%list_elem_of_omap.
  apply elem_of_map_to_list in Hpe. cbn [fst snd] in HF.
  destruct e; [discriminate|].
  destruct (os.strip_prefix (output_root fs ++ [sid]) kd) as [rel|] eqn:Erel; [|discriminate].
  apply strip_prefix_spec in Erel as ->. injection HF as <-. eauto.
Qed.

Lemma walk_NoDup : NoDup (os.walk fs ("classified_images/" +:+ sid)).
Proof.
  unfold os.walk. rewrite (resolve_session fs sid) by assumption.
  apply NoDup_omap_inj; [|apply NoDup_map_to_list].
  intros [kx ex] [ky ey] z Hx Hy. cbn [fst snd].
  apply elem_of_map_to_list in Hx, Hy.
  destruct ex; [discriminate|]. destruct ey; [discriminate|].
  destruct (os.strip_prefix _ kx) as [relx|] eqn:Ex; [|discriminate].
  destruct (os.strip_prefix _ ky) as [rely|] eqn:Ey; [|discriminate].
  apply strip_prefix_spec in Ex as ->. apply strip_prefix_spec in Ey as ->.
  intros [= <-] [= E _ _]. f_equal. f_equal.
  apply (f_equal os.split_sep) in E.
  rewrite (split_sep_below _ _ Hx), (split_sep_below _ _ Hy) in E.
  now apply app_inv_head in E.
Qed.

(** The components of a path [download] hands to [zipf.write]. *)
Lemma split_sep_file (rel : list string) (file : string) :
  file ∈ map fst (filter (fun ne => os.is_dir (snd ne) = false)
                         (os.children fs ((output_root fs ++ [sid]) ++ rel))) ->
  os.split_sep (os.path_join (foldl os.path_join ("classified_images/" +:+ sid) rel) file)
  = (["classified_images"; sid] ++ rel ++ [file])%list.
Proof.
  intros Hin. apply list_elem_of_In, in_map_iff in Hin as ([file' e] & Hf & Hin).
  cbn [fst] in Hf. subst file'.
  apply list_elem_of_In, list_elem_of_filter in Hin as [_ Hin].
  apply elem_of_children in Hin.
  rewrite <- foldl_snoc. rewrite <- app_assoc in Hin. apply (split_sep_below _ _ Hin).
Qed.

(** [os.walk] visits every directory once, and [download] meets every
    file once. *)
Lemma walked_files_NoDup :
  NoDup (flat_map (fun rdf => map (fun file => os.path_join (fst (fst rdf)) file) (snd rdf))
                  (os.walk fs ("classified_images/" +:+ sid))).
Proof.
  change (NoDup (os.walk fs ("classified_images/" +:+ sid)
                 ≫= fun rdf => map (fun file => os.path_join (fst (fst rdf)) file)
                                    (snd rdf))).
  apply NoDup_bind; [| |exact walk_NoDup].
  - intros x1 x2 y (r1 & _ & ->)%walk_entry (r2 & _ & ->)%walk_entry. cbn [fst snd].
    intros (f1 & <- & Hf1%list_elem_of_In)%list_elem_of_In%in_map_iff
           (f2 & E & Hf2%list_elem_of_In)%list_elem_of_In%in_map_iff.
    apply (f_equal os.split_sep) in E.
    rewrite (split_sep_file _ _ Hf1), (split_sep_file _ _ Hf2) in E.
    apply app_inv_head in E. now apply app_inj_tail in E as [-> _].
  - intros rdf (rel & _ & ->)%walk_entry. cbn [fst snd].
    rewrite map_fmap. apply NoDup_fmap_2_strong.
    + intros f1 f2 Hf1 Hf2 E. apply (f_equal os.split_sep) in E.
      rewrite (split_sep_file _ _ Hf1), (split_sep_file _ _ Hf2) in E.
      apply app_inv_head in E. now apply app_inj_tail in E as [_ ->].
    + apply NoDup_fst_filter, NoDup_children_names.
Qed.

(** So no two members of the archive have the same name. *)
Lemma archive_names_NoDup (members : list (string * list byte)) :
  Forall2 (fun fp md =>
             os.read_file fs fp = Ok (snd md) /\
             fst md = os.path_relpath fs fp ("classified_images/" +:+ sid))
          (flat_map (fun rdf => map (fun file => os.path_join (fst (fst rdf)) file) (snd rdf))
                    (os.walk fs ("classified_images/" +:+ sid)))
          members ->
  NoDup (map fst members).
Proof.
  intros Hall.
  assert (map fst members
          = map (fun fp => os.path_relpath fs fp ("classified_images/" +:+ sid))
                (flat_map (fun rdf => map (fun file => os.path_join (fst (fst rdf)) file)
                                          (snd rdf))
                          (os.walk fs ("classified_images/" +:+ sid)))) as ->.
  { eapply Forall2_map_fst; [|exact Hall]. now intros a md [_ H]. }
  rewrite map_fmap. apply NoDup_fmap_2_strong; [|exact walked_files_NoDup].
  intros fp1 fp2 Hfp1%list_elem_of_In Hfp2%list_elem_of_In.
  apply (walked_files fs _ _ _ (resolve_session fs sid Hclosed Hsid Hexists)) in Hfp1
    as (rel1 & file1 & d1 & _ & Hf1 & ->).
  apply (walked_files fs _ _ _ (resolve_session fs sid Hclosed Hsid Hexists)) in Hfp2
    as (rel2 & file2 & d2 & _ & Hf2 & ->).
  destruct (session_file fs sid Hwf Hclosed Hsid Hexists rel1 file1 d1 Hf1) as [_ ->].
  destruct (session_file fs sid Hwf Hclosed Hsid Hexists rel2 file2 d2 Hf2) as [_ ->].
  intros E. apply (f_equal os.split_sep) in E.
  unfold wf in Hwf. rewrite map_Forall_lookup in Hwf.
  rewrite !split_sep_concat in E.
  - apply app_inj_tail in E as [-> ->]. reflexivity.
  - now destruct rel2.
  - pose proof (Hwf _ _ Hf2) as Hall2. rewrite <- app_assoc in Hall2.
    now apply Forall_app in Hall2 as [_ Hall2].
  - now destruct rel1.
  - pose proof (Hwf _ _ Hf1) as Hall1. rewrite <- app_assoc in Hall1.
    now apply Forall_app in Hall1 as [_ Hall1].
Qed.

End SessionNames.

(** The archive has one member for each file. *)
Lemma archive_members_NoDup (fs : filesystem) (sid : string)
    (members : list (string * list byte)) :
  wf fs -> closed fs -> valid_name sid = true ->
  is_Some (entries fs !! (output_root fs ++ [sid])%list) ->
  backend_app.archive_members fs ("classified_images/" +:+ sid) = Ok members ->
  NoDup (map fst members).
Proof.
  intros Hwf Hclosed Hsid Hexists. unfold backend_app.archive_members.
  destruct (archive_fold fs ("classified_images/" +:+ sid)
              (flat_map (fun rdf => map (fun file => os.path_join (fst (fst rdf)) file)
                                        (snd rdf))
                        (os.walk fs ("classified_images/" +:+ sid))))
    as (members' & Hm & Hall).
  { apply Forall_forall. intros fp Hfp%list_elem_of_In.
    apply (walked_files fs _ _ fp (resolve_session fs sid Hclosed Hsid Hexists)) in Hfp
      as (rel & file & d & _ & Hf & ->).
    exists d. now apply session_file. }
  rewrite Hm. intros [= <-]. now apply (archive_names_NoDup fs sid).
Qed.

(** ** [download] of a name in the output directory *)

Lemma contains_sep_append (a b : string) :
  contains_sep (a +:+ b) = contains_sep a || contains_sep b.
Proof.
  induction a as [|c a IH]; [reflexivity|].
  rewrite append_cons. cbn [contains_sep]. now rewrite IH, orb_assoc.
Qed.

Lemma archive_name_valid (sid : string) :
  valid_name sid = true -> valid_name ("classified_images_" +:+ sid +:+ ".zip") = true.
Proof.
  intros (_ & _ & _ & Hsep)%valid_name_inv. unfold valid_name.
  destruct (archive_name_not_special (sid +:+ ".zip")) as (-> & -> & -> & _).
  now rewrite !contains_sep_append, Hsep.
Qed.

(** Creating a file in a directory keeps the file system closed. *)
Lemma closed_insert_file (fs : filesystem) (k : list string) (n : string) (d : list byte) :
  closed fs -> entries fs !! k = Some Dir -> entries fs !! (k ++ [n])%list <> Some Dir ->
  closed {| entries := <[(k ++ [n])%list := File d]> (entries fs); cwd := cwd fs |}.
Proof.
  intros Hc Hk Hnd k' n' e. cbn [entries]. intros He.
  assert (forall p, entries fs !! p = Some Dir ->
                    <[(k ++ [n])%list := File d]> (entries fs) !! p = Some Dir) as Hdir
    by (intros p Hp; rewrite lookup_insert_ne; [exact Hp|congruence]).
  apply Hdir. destruct (decide (k ++ [n] = k' ++ [n'])%list) as [E|E].
  - now apply app_inj_tail in E as [<- _].
  - rewrite lookup_insert_ne in He by exact E. eapply Hc, He.
Qed.

Section DownloadExisting.
Context `{pil : PIL} {host : Host}.

(** What [download] does for a name under which something is stored. *)
Lemma download_existing (fs : filesystem) (sid : string) :
  wf fs -> closed fs -> valid_name sid = true ->
  is_Some (entries fs !! (output_root fs ++ [sid])%list) ->
  entries fs !! (output_root fs ++ ["classified_images_" +:+ sid +:+ ".zip"])%list
    <> Some Dir ->
  exists members,
    backend_app.download sid fs
    = (Ok (jsonify (Attachment ("classified_images_" +:+ sid +:+ ".zip")
                               (ZipFile_bytes members)) 200),
       {| entries := <[(output_root fs ++ ["classified_images_" +:+ sid +:+ ".zip"])%list
                       := File (ZipFile_bytes members)]> (entries fs);
          cwd := cwd fs |}) /\
    NoDup (map fst members) /\
    forall name data,
      (name, data) ∈ members <-> file_below fs (output_root fs ++ [sid]) name data.
Proof.
  intros Hwf Hclosed Hsid Hex Hnd.
  set (zn := "classified_images_" +:+ sid +:+ ".zip") in *.
  set (kz := (output_root fs ++ [zn])%list) in *.
  pose proof (archive_name_valid sid Hsid) as Hzn. fold zn in Hzn.
  destruct (session_root_dir fs sid Hclosed Hex) as [Hcwd Hroot].
  pose proof (proj2 (isdir_output fs) (conj Hcwd Hroot)) as Hisdir.
  pose proof (valid_name_inv sid Hsid) as (_ & _ & _ & Hsep).
  pose proof (valid_name_inv zn Hzn) as (_ & _ & _ & Hzsep).
  pose proof (path_join_output sid (startswith_contains sid Hsep)) as Hdirpath.
  pose proof (path_join_output zn (startswith_contains zn Hzsep)) as Hzippath.
  (* the session path exists *)
  assert (os.path_exists fs ("classified_images/" +:+ sid) = true) as Hpe.
  { unfold os.path_exists, os.stat.
    rewrite (resolve_session fs sid) by assumption. now destruct Hex as [e ->]. }
  (* the archive is created *)
  pose proof (resolve_new_archive_name fs zn Hzn Hisdir) as Hkz. fold kz in Hkz.
  set (fs1 := {| entries := <[kz := File []]> (entries fs); cwd := cwd fs |}).
  assert (os.write_file ("classified_images/" +:+ zn) [] fs = (Ok tt, fs1)) as Hw1.
  { unfold os.write_file. rewrite Hkz.
    destruct (entries fs !! kz) as [[|]|]; [reflexivity|contradiction|reflexivity]. }
  pose proof (insert_file_grows fs kz [] Hnd) as Hg1. fold fs1 in Hg1.
  (* the session is read in the file system that holds the empty archive *)
  assert (wf fs1) as Hwf1.
  { apply wf_insert_file; [exact Hwf|]. apply Forall_app. split.
    - unfold wf in Hwf. rewrite map_Forall_lookup in Hwf. exact (Hwf _ _ Hroot).
    - repeat constructor. exact Hzn. }
  assert (closed fs1) as Hclosed1 by (now apply closed_insert_file).
  assert (is_Some (entries fs1 !! (output_root fs1 ++ [sid])%list)) as Hex1
    by (apply Hg1; exact Hex).
  destruct (archive_members_spec fs1 sid Hwf1 Hclosed1 Hsid Hex1) as (members & Hm & Hmem).
  (* the archive is written and read back *)
  set (zb := ZipFile_bytes members).
  set (fs2 := {| entries := <[kz := File zb]> (entries fs); cwd := cwd fs |}).
  assert (os.write_file ("classified_images/" +:+ zn) zb fs1 = (Ok tt, fs2)) as Hw2.
  { unfold os.write_file. rewrite (resolve_new_grows _ _ _ _ Hg1 Hkz).
    unfold fs1, fs2. cbn [entries cwd]. now rewrite lookup_insert_eq, insert_insert_eq. }
  assert (os.read_file fs2 ("classified_images/" +:+ zn) = Ok zb) as Hr.
  { apply (read_file_resolved _ _ kz); [|apply lookup_insert_eq].
    apply resolve_of_resolve_new; [|cbn [entries fs2]; rewrite lookup_insert_eq; eauto].
    apply (resolve_new_grows fs); [|exact Hkz]. now apply insert_file_grows. }
  exists members. split; [|split].
  - unfold backend_app.download. rewrite bind_get_state. cbv zeta.
    fold zn. rewrite Hdirpath, Hzippath, Hpe. cbn [negb].
    rewrite (bind_Ok _ _ _ _ _ Hw1), bind_get_state, (bind_lift_Ok _ _ _ _ Hm).
    rewrite (bind_Ok _ _ _ _ _ Hw2), bind_get_state, (bind_lift_Ok _ _ _ _ Hr).
    reflexivity.
  - exact (archive_members_NoDup fs1 sid members Hwf1 Hclosed1 Hsid Hex1 Hm).
  - intros name data. rewrite Hmem. unfold file_below.
    split; intros (rel & Hne & Hf & ->); exists rel; (split; [exact Hne|]);
      (split; [|reflexivity]);
      [rewrite <- Hf; symmetry|rewrite <- Hf];
      apply lookup_insert_ne; unfold kz, output_root; cbn [cwd fs1];
      rewrite <- !app_assoc; intros E; apply app_inv_head in E;
      injection E as _ E; (destruct rel; [contradiction|discriminate]).
Qed.

End DownloadExisting.

Lemma closed_check (fs : filesystem) :
  map_Forall (fun k _ => match k with
                         | [] => True
                         | _ :: _ => entries fs !! removelast k = Some Dir
                         end) (entries fs) ->
  closed fs.
Proof.
  intros H k n e He. rewrite map_Forall_lookup in H. specialize (H _ _ He).
  destruct (k ++ [n])%list eqn:E; [now destruct k|].
  now rewrite <- E, removelast_last in H.
Qed.

Lemma wf_stored_session : wf stored_session.
Proof. unfold wf. apply map_Forall_to_list. vm_compute. repeat constructor. Qed.

Lemma closed_stored_session : closed stored_session.
Proof. apply closed_check, map_Forall_to_list. vm_compute. repeat constructor. Qed.

(** They are the file systems the stub host leaves after the upload and
    after its download. *)
Lemma stored_session_classified :
  stored_session = Stub.classified /\ archived_session = Stub.served.
Proof. split; reflexivity. Qed.

(** X15: downloading a name under which something is stored in the output
    directory (the archive path not being a directory) writes the archive
    and changes nothing else in the file system.  The archive is built from
    the files below that entry and from nothing else, each taken once: no two
    members have the same name, and a pair of a name and contents is a member
    exactly when a file with those contents lies below the entry and the name
    is its path from there, the names joined by [/].  When the view answers,
    it answers 200 with this archive as the attachment. *)
Theorem download_archive_contents `{pil : PIL} {host : Host}
    (fs : filesystem) (sid : string) :
  wf fs -> closed fs -> valid_name sid = true ->
  is_Some (entries fs !! (output_root fs ++ [sid])%list) ->
  entries fs !! (output_root fs ++ ["classified_images_" +:+ sid +:+ ".zip"])%list
    <> Some Dir ->
  exists members,
    snd (backend_app.download sid fs)
    = {| entries := <[(output_root fs ++ ["classified_images_" +:+ sid +:+ ".zip"])%list
                      := File (ZipFile_bytes members)]> (entries fs);
         cwd := cwd fs |} /\
    (forall r, fst (backend_app.download sid fs) = Ok r ->
               r = jsonify (Attachment ("classified_images_" +:+ sid +:+ ".zip")
                                       (ZipFile_bytes members)) 200) /\
    NoDup (map fst members) /\
    forall name data,
      (name, data) ∈ members <-> file_below fs (output_root fs ++ [sid]) name data.
Proof.
  intros Hwf Hclosed Hsid Hex Hnd.
  destruct (download_existing fs sid Hwf Hclosed Hsid Hex Hnd) as (members & Hd & Hnodup & Hmem).
  exists members. rewrite Hd. cbn [fst snd]. split; [reflexivity|].
  split; [now intros r [= <-]|]. split; assumption.
Qed.

Lemma download_archive_contents_witness :
  exists members,
    snd (backend_app.download (host := Stub.host) Stub.now stored_session)
    = {| entries := <[(output_root stored_session
                         ++ ["classified_images_" +:+ Stub.now +:+ ".zip"])%list
                      := File (ZipFile_bytes (Host := Stub.host) members)]>
                      (entries stored_session);
         cwd := cwd stored_session |} /\
    (forall r, fst (backend_app.download (host := Stub.host) Stub.now stored_session) = Ok r ->
               r = jsonify (Attachment ("classified_images_" +:+ Stub.now +:+ ".zip")
                                       (ZipFile_bytes (Host := Stub.host) members)) 200) /\
    NoDup (map fst members) /\
    forall name data,
      (name, data) ∈ members
      <-> file_below stored_session (output_root stored_session ++ [Stub.now]) name data.
Proof.
  apply (download_archive_contents (host := Stub.host) stored_session Stub.now).
  - exact wf_stored_session.
  - exact closed_stored_session.
  - reflexivity.
  - vm_compute. eauto.
  - vm_compute. discriminate.
Defined.

(** X16: [download] tests that the path exists, not that it is a
    directory.  For the name of a regular file in the output directory, such
    as an archive an earlier download left there, it does not answer 404: it
    writes an archive without members, and when the view answers, it answers
    200 with that archive. *)
Theorem download_of_file_name `{pil : PIL} {host : Host}
    (fs : filesystem) (sid : string) (d : list byte) :
  wf fs -> closed fs -> valid_name sid = true ->
  entries fs !! (output_root fs ++ [sid])%list = Some (File d) ->
  entries fs !! (output_root fs ++ ["classified_images_" +:+ sid +:+ ".zip"])%list
    <> Some Dir ->
  fst (backend_app.download sid fs) <> Ok (jsonify (JsonError "Session not found") 404) /\
  snd (backend_app.download sid fs)
  = {| entries := <[(output_root fs ++ ["classified_images_" +:+ sid +:+ ".zip"])%list
                    := File (ZipFile_bytes [])]> (entries fs);
       cwd := cwd fs |} /\
  (forall r, fst (backend_app.download sid fs) = Ok r ->
             r = jsonify (Attachment ("classified_images_" +:+ sid +:+ ".zip")
                                     (ZipFile_bytes [])) 200).
Proof.
  intros Hwf Hclosed Hsid Hfile Hnd.
  destruct (download_existing fs sid Hwf Hclosed Hsid (mk_is_Some _ _ Hfile) Hnd)
    as (members & -> & _ & Hmem).
  assert (members = []) as ->.
  { destruct members as [|[name data] members]; [reflexivity|].
    destruct (proj1 (Hmem name data)) as (rel & Hne & Hf & _); [left|].
    pose proof (closed_prefix fs Hclosed rel _ Hne (mk_is_Some _ _ Hf)). congruence. }
  cbn [fst snd]. split; [discriminate|]. split; [reflexivity|]. now intros r [= <-].
Qed.

Lemma download_of_file_name_witness :
  fst (backend_app.download (host := Stub.host) "classified_images_20240101_120000.zip"
         archived_session)
  <> Ok (jsonify (JsonError "Session not found") 404) /\
  snd (backend_app.download (host := Stub.host) "classified_images_20240101_120000.zip"
         archived_session)
  = {| entries :=
         <[(output_root archived_session
              ++ ["classified_images_classified_images_20240101_120000.zip.zip"])%list
           := File (ZipFile_bytes (Host := Stub.host) [])]> (entries archived_session);
       cwd := cwd archived_session |}.
Proof.
  destruct (download_of_file_name (host := Stub.host) archived_session
              "classified_images_20240101_120000.zip" (Stub.black32 ++ Stub.white2))
    as (H1 & H2 & _).
  - apply wf_insert_file; [exact wf_stored_session|]. now repeat constructor.
  - apply (closed_insert_file stored_session ["classified_images"]);
      [exact closed_stored_session|reflexivity|vm_compute; discriminate].
  - reflexivity.
  - reflexivity.
  - vm_compute. discriminate.
  - split; [exact H1|exact H2].
Defined.

(** X17: with the output directory in place, [download] of a name answers
    404 exactly when nothing is stored under that name in the output
    directory, and then it leaves the file system as it was. *)
Theorem download_not_found `{pil : PIL} {host : Host} (fs : filesystem) (sid : string) :
  valid_name sid = true -> os.path_isdir fs backend_app.OUTPUT_DIR = true ->
  backend_app.download sid fs = (Ok (jsonify (JsonError "Session not found") 404), fs)
  <-> entries fs !! (output_root fs ++ [sid])%list = None.
Proof.
  intros Hsid Hisdir.
  pose proof (valid_name_inv sid Hsid) as (_ & _ & _ & Hsep).
  apply isdir_output in Hisdir as [Hcwd Hroot].
  assert (os.path_exists fs (os.path_join backend_app.OUTPUT_DIR sid)
          = match entries fs !! (output_root fs ++ [sid])%list with
            | Some _ => true
            | None => false
            end) as Hpe.
  { rewrite (path_join_output sid (startswith_contains sid Hsep)).
    unfold os.path_exists, os.stat. rewrite resolve_under_output, Hcwd.
    rewrite (walk_name _ _ _ Hsid), Hroot.
    now destruct (entries fs !! (output_root fs ++ [sid])%list) as [e|] eqn:E; rewrite ?E. }
  split.
  - intros Hd. apply download_steps in Hd as [(Hne & _)|(_ & ? & ? & ? & _ & _ & _ & _ & [=])].
    rewrite Hpe in Hne.
    now destruct (entries fs !! (output_root fs ++ [sid])%list).
  - intros Hnone. apply download_missing. now rewrite Hpe, Hnone.
Qed.

Lemma download_not_found_witness :
  backend_app.download (host := Stub.host) "20231231_235959" stored_session
  = (Ok (jsonify (JsonError "Session not found") 404), stored_session).
Proof.
  apply (download_not_found (host := Stub.host) stored_session "20231231_235959");
    reflexivity.
Defined.

(** ** From [predict] to [list_sessions] and [download] *)

(** [mkdir -p] of a path made of names: every directory on the path is
    there afterwards, what was there is unchanged, and what is new is a
    directory on the path. *)
Lemma mkdirs_names (comps : list string) : forall m cur m',
  Forall (fun n => valid_name n = true) comps ->
  m !! cur = Some Dir ->
  Stub.mkdirs m cur comps = Ok m' ->
  (forall pre suf, comps = (pre ++ suf)%list -> m' !! (cur ++ pre)%list = Some Dir) /\
  (forall p e, m !! p = Some e -> m' !! p = Some e) /\
  (forall p, m' !! p = m !! p \/
             (m' !! p = Some Dir /\
              exists pre suf, pre <> [] /\ comps = (pre ++ suf)%list /\ p = (cur ++ pre)%list)).
Proof.
  induction comps as [|c rest IH]; intros m cur m' Hv Hcur; cbn [Stub.mkdirs].
  - intros [= <-]. split; [|split; [auto|auto]].
    intros pre suf E. symmetry in E. apply app_eq_nil in E as [-> _].
    now rewrite app_nil_r.
  - apply Forall_cons in Hv as [Hc Hv].
    pose proof (valid_name_inv c Hc) as (E0 & E1 & E2 & _). rewrite E0, E1, E2. cbn [orb].
    destruct (m !! (cur ++ [c])%list) as [[d|]|] eqn:Ek; [discriminate| |].
    + intros Hm. destruct (IH m (cur ++ [c])%list m' Hv Ek Hm) as (Hpre & Hmono & Hnew).
      split; [|split; [exact Hmono|]].
      * intros [|c' pre] suf E; [rewrite app_nil_r; now apply Hmono|].
        injection E as <- E. specialize (Hpre pre suf E).
        now rewrite <- app_assoc in Hpre.
      * intros p. destruct (Hnew p) as [Hp|(Hp & pre & suf & Hne & -> & ->)]; [now left|].
        right. split; [exact Hp|]. exists (c :: pre), suf.
        split; [discriminate|]. split; [reflexivity|]. now rewrite <- app_assoc.
    + intros Hm.
      destruct (IH (<[(cur ++ [c])%list := Dir]> m) (cur ++ [c])%list m' Hv
                  (lookup_insert_eq _ _ _) Hm) as (Hpre & Hmono & Hnew).
      assert (forall p e, m !! p = Some e -> m' !! p = Some e) as Hmono'.
      { intros p e Hp. apply Hmono. rewrite lookup_insert_ne; [exact Hp|]. congruence. }
      split; [|split; [exact Hmono'|]].
      * intros [|c' pre] suf E; [rewrite app_nil_r; now apply Hmono'|].
        injection E as <- E. specialize (Hpre pre suf E).
        now rewrite <- app_assoc in Hpre.
      * intros p. destruct (Hnew p) as [Hp|(Hp & pre & suf & Hne & -> & ->)].
        -- destruct (decide (p = cur ++ [c])%list) as [->|Hpk].
           ++ right. rewrite lookup_insert_eq in Hp. split; [exact Hp|].
              exists [c], rest. split; [discriminate|]. split; reflexivity.
           ++ left. now rewrite lookup_insert_ne in Hp.
        -- right. split; [exact Hp|]. exists (c :: pre), suf.
           split; [discriminate|]. split; [reflexivity|]. now rewrite <- app_assoc.
Qed.

(** The parent of a file that can be created is a directory. *)
Lemma resolve_new_parent (fs : filesystem) (p : string) (k : list string) :
  os.resolve_new fs p = Some k ->
  exists k0 n, k = (k0 ++ [n])%list /\ entries fs !! k0 = Some Dir.
Proof.
  unfold os.resolve_new.
  destruct (last (os.split_sep p)) as [n|]; [|discriminate].
  destruct (_ || _); [discriminate|].
  destruct (os.walk_components _ _ _) as [k0|]; [|discriminate].
  destruct (entries fs !! k0) as [[|]|] eqn:Ek; try discriminate.
  intros [= <-]. eauto.
Qed.

Lemma length_append (a b : string) :
  String.length (a +:+ b) = (String.length a + String.length b)%nat.
Proof.
  induction a as [|c a IH]; [reflexivity|].
  rewrite append_cons. cbn [String.length]. now rewrite IH.
Qed.

Lemma archive_name_differs (now : string) : "classified_images_" +:+ now +:+ ".zip" <> now.
Proof.
  intros E. apply (f_equal String.length) in E. rewrite !length_append in E.
  cbn [String.length] in E. lia.
Qed.

(** [mkdir -p] keeps a file system well formed and closed. *)
Lemma mkdirs_keeps (fs0 : filesystem) (comps : list string) (m' : gmap (list string) entry) :
  wf fs0 -> closed fs0 -> entries fs0 !! cwd fs0 = Some Dir ->
  Forall (fun n => valid_name n = true) comps ->
  Stub.mkdirs (entries fs0) (cwd fs0) comps = Ok m' ->
  wf {| entries := m'; cwd := cwd fs0 |} /\ closed {| entries := m'; cwd := cwd fs0 |}.
Proof.
  intros Hwf Hclosed Hcwd Hv Hm.
  destruct (mkdirs_names comps _ _ _ Hv Hcwd Hm) as (Hpre & Hmono & Hnew).
  pose proof Hwf as Hwf'. unfold wf in Hwf'. rewrite map_Forall_lookup in Hwf'.
  split.
  - unfold wf. cbn [entries]. apply map_Forall_lookup. intros p e Hp.
    destruct (Hnew p) as [E|(_ & pre & suf & _ & -> & ->)].
    + rewrite E in Hp. exact (Hwf' _ _ Hp).
    + apply Forall_app. split; [exact (Hwf' _ _ Hcwd)|].
      now apply Forall_app in Hv as [Hv _].
  - intros k n e. cbn [entries]. intros Hp.
    destruct (Hnew (k ++ [n])%list) as [E|(_ & pre & suf & Hne & -> & E)].
    + rewrite E in Hp. eapply Hmono, Hclosed, Hp.
    + destruct pre as [|n' pre _] using rev_ind; [contradiction|].
      rewrite app_assoc in E. apply app_inj_tail in E as [-> _].
      apply (Hpre pre ([n'] ++ suf)%list). now rewrite app_assoc.
Qed.

Section Stored.
Context `{pil : PIL} {host : Host} {torch : Torch} (model : Model).
Context (fs : filesystem) (now : string).
Hypothesis Hhost : posix_host host.
Hypothesis Hnow : valid_name now = true.

Lemma session_paths (c f : string) :
  os.path_join (os.path_join backend_app.OUTPUT_DIR now) c
  = foldl os.path_join ("classified_images/" +:+ now) [c] /\
  os.path_join (os.path_join (os.path_join backend_app.OUTPUT_DIR now) c) f
  = foldl os.path_join ("classified_images/" +:+ now) [c; f].
Proof.
  pose proof (valid_name_inv now Hnow) as (_ & _ & _ & Hsep).
  rewrite (path_join_output now (startswith_contains now Hsep)). split; reflexivity.
Qed.

(** A result that is an error entry adds nothing to what is stored. *)
Lemma session_stored_error (fs0 : filesystem) (rs : list ClassificationResult)
    (r : ClassificationResult) :
  class r = "error" -> session_stored fs now fs0 rs ->
  session_stored fs now fs0 (rs ++ [r]).
Proof.
  intros Hr (Hwf & Hclosed & Hcwd & Hdir & Hzip & Hrs).
  repeat (split; [assumption|]).
  intros r' [Hin| ->%list_elem_of_singleton]%elem_of_app Hne; [now apply Hrs|contradiction].
Qed.

(** What [os.makedirs] of the class directory does to it. *)
Lemma session_stored_makedirs (fs0 fs1 : filesystem) (rs : list ClassificationResult)
    (c : string) :
  valid_name c = true -> session_stored fs now fs0 rs ->
  Stub.makedirs (foldl os.path_join ("classified_images/" +:+ now) [c]) fs0 = (Ok tt, fs1) ->
  session_stored fs now fs1 rs /\
  entries fs1 !! (output_root fs ++ [now])%list = Some Dir /\
  entries fs1 !! (output_root fs ++ [now; c])%list = Some Dir.
Proof.
  intros Hc (Hwf & Hclosed & Hcwd & Hdir & Hzip & Hrs). unfold Stub.makedirs.
  destruct (session_top now Hnow) as [Hsplit Hend].
  destruct (foldl_path_join [c] ("classified_images/" +:+ now)
              ltac:(repeat constructor; exact Hc) eq_refl Hend) as (Hs & Hst & _).
  rewrite Hst, Hs, Hsplit.
  change (os.startswith_sep ("classified_images/" +:+ now)) with false. cbv iota.
  cbn [app].
  assert (Forall (fun n => valid_name n = true) ["classified_images"; now; c]) as Hv
    by (repeat constructor; assumption).
  rewrite <- Hcwd in Hdir.
  destruct (Stub.mkdirs (entries fs0) (cwd fs0) ["classified_images"; now; c])
    as [m'|e] eqn:Hm; [|discriminate].
  intros [= <-].
  destruct (mkdirs_keeps fs0 _ m' Hwf Hclosed Hdir Hv Hm) as [Hwf1 Hclosed1].
  destruct (mkdirs_names _ _ _ _ Hv Hdir Hm) as (Hpre & Hmono & Hnew).
  unfold output_root, backend_app.OUTPUT_DIR. rewrite <- Hcwd, <- !app_assoc. cbn [app].
  split; [|split].
  - split; [exact Hwf1|]. split; [exact Hclosed1|]. split; [exact Hcwd|]. cbn [entries cwd].
    split; [rewrite <- Hcwd; now apply Hmono|]. split.
    + intros Hz. specialize (Hzip Hz). intros Hz1.
      unfold output_root, backend_app.OUTPUT_DIR in Hzip, Hz1.
      rewrite <- Hcwd, <- app_assoc in Hzip, Hz1. cbn [app] in Hzip, Hz1.
      destruct (Hnew (cwd fs0 ++ ["classified_images";
                                  "classified_images_" +:+ now +:+ ".zip"])%list)
        as [E|(_ & pre & suf & _ & Epre & E)]; [congruence|].
      apply app_inv_head in E. subst pre. injection Epre as Epre _.
      now apply (archive_name_differs now).
    + intros r Hr Hne. destruct (Hrs r Hr Hne) as [Hsess Hfile].
      split; [now apply Hmono|]. intros Hf. destruct (Hfile Hf) as [d Hd].
      exists d. now apply Hmono.
  - apply (Hpre ["classified_images"; now] [c]). reflexivity.
  - apply (Hpre ["classified_images"; now; c] []). reflexivity.
Qed.

(** What writing a file does to it. *)
Lemma session_stored_write (fs1 fs2 : filesystem) (rs : list ClassificationResult)
    (p : string) (data : list byte) :
  session_stored fs now fs1 rs -> os.write_file p data fs1 = (Ok tt, fs2) ->
  session_stored fs now fs2 rs /\
  (forall q, entries fs1 !! q = Some Dir -> entries fs2 !! q = Some Dir) /\
  (forall k, os.resolve_new fs1 p = Some k -> entries fs2 !! k = Some (File data)).
Proof.
  intros (Hwf & Hclosed & Hcwd & Hdir & Hzip & Hrs) Hw.
  pose proof (write_file_keeps _ _ _ _ Hwf Hw) as [Hwf2 _].
  apply write_file_inv in Hw as (k & Hk & Hnd & ->). cbn [entries cwd].
  destruct (resolve_new_parent _ _ _ Hk) as (k0 & n & -> & Hk0).
  assert (forall q, entries fs1 !! q = Some Dir ->
                    <[(k0 ++ [n])%list := File data]> (entries fs1) !! q = Some Dir) as Hkeep
    by (intros q Hq; rewrite lookup_insert_ne; [exact Hq|congruence]).
  split; [|split; [exact Hkeep|]].
  - split; [exact Hwf2|]. split; [now apply closed_insert_file|]. split; [exact Hcwd|].
    cbn [entries]. split; [now apply Hkeep|]. split.
    + intros Hz. specialize (Hzip Hz).
      destruct (decide (k0 ++ [n] = output_root fs
                                      ++ ["classified_images_" +:+ now +:+ ".zip"])%list)
        as [<-|Hne]; [now rewrite lookup_insert_eq|now rewrite lookup_insert_ne].
    + intros r Hr Hne. destruct (Hrs r Hr Hne) as [Hsess Hfile].
      split; [now apply Hkeep|]. intros Hf. destruct (Hfile Hf) as [d Hd].
      destruct (decide (k0 ++ [n] = output_root fs ++ [now; class r; filename r])%list)
        as [<-|Hne']; [rewrite lookup_insert_eq; eauto|rewrite lookup_insert_ne; eauto].
  - intros k Hk'. rewrite Hk in Hk'. injection Hk' as <-. apply lookup_insert_eq.
Qed.

(** Where a picture with a plain file name is saved. *)
Lemma saved_key (fs1 : filesystem) (c f : string) :
  closed fs1 -> cwd fs1 = cwd fs -> valid_name c = true -> valid_name f = true ->
  entries fs1 !! (output_root fs ++ [now; c])%list = Some Dir ->
  os.resolve_new fs1 (foldl os.path_join ("classified_images/" +:+ now) [c; f])
  = Some (output_root fs ++ [now; c; f])%list.
Proof.
  intros Hclosed Hcwd Hc Hf Hdir. unfold os.resolve_new.
  destruct (session_top now Hnow) as [Hsplit Hend].
  destruct (foldl_path_join [c; f] ("classified_images/" +:+ now)
              ltac:(repeat constructor; assumption) eq_refl Hend) as (Hs & Hst & _).
  rewrite Hst, Hs, Hsplit.
  change (os.startswith_sep ("classified_images/" +:+ now)) with false. cbv iota.
  change (["classified_images"; now] ++ [c; f])%list
    with (["classified_images"; now; c] ++ [f])%list.
  rewrite last_snoc, removelast_last.
  pose proof (valid_name_inv f Hf) as (E0 & E1 & E2 & _). rewrite E0, E1, E2. cbn [orb].
  unfold output_root, backend_app.OUTPUT_DIR in Hdir |- *.
  rewrite <- Hcwd, <- app_assoc in Hdir |- *. cbn [app] in Hdir |- *.
  rewrite (walk_components_names fs1 _ Hclosed (cwd fs1));
    [|repeat constructor; assumption|rewrite Hdir; eauto].
  rewrite Hdir. now rewrite <- app_assoc.
Qed.

(** One iteration of the loop. *)
Lemma predict_image_stored (b : list byte) (f : string) (fs0 : filesystem)
    (rs : list ClassificationResult) (r : ClassificationResult) (fs1 : filesystem) :
  session_stored fs now fs0 rs ->
  backend_app.predict_image model b f now fs0 = (Ok r, fs1) ->
  session_stored fs now fs1 (rs ++ [r]).
Proof.
  intros Hinv. unfold backend_app.predict_image, try_except.
  destruct Hhost as [Hmk Hsave].
  destruct (backend_classify_cases model b f now fs0)
    as [[e Hc]|(image & t & output & idx & c & Hit & Hout & Hidx & Hlab & Hrest)].
  { rewrite Hc. intros [= <- <-]. now apply session_stored_error. }
  cbv zeta in Hrest.
  assert (valid_name c = true) as Hcv
    by (apply label_valid_name, (list_getitem_In _ idx); exact Hlab).
  destruct (session_paths c f) as [Hdirpath Hsavepath].
  rewrite Hsavepath, Hdirpath, Hmk in Hrest.
  destruct Hrest as [(e & fs' & Hmkdir & Hc)|[(fs' & e & fs2 & Hmkdir & Hsv & Hc)
                                            |(fs' & fs2 & Hmkdir & Hsv & Hc)]];
    rewrite Hc; intros [= <- <-].
  - unfold Stub.makedirs in Hmkdir.
    destruct (Stub.mkdirs _ _ _); [discriminate|]. injection Hmkdir as _ <-.
    now apply session_stored_error.
  - destruct (session_stored_makedirs _ _ _ _ Hcv Hinv Hmkdir) as (Hinv' & _ & _).
    apply session_stored_error; [reflexivity|].
    destruct (Hsave image (foldl os.path_join ("classified_images/" +:+ now) [c; f]) fs')
      as [[data Hdata]|[e' Hraise]]; rewrite Hsv in *.
    + symmetry in Hdata. unfold os.write_file in Hdata.
      destruct (os.resolve_new fs' _) as [k|]; [|now injection Hdata as _ <-].
      destruct (entries fs' !! k) as [[|]|]; try discriminate. now injection Hdata as _ <-.
    + now injection Hraise as _ <-.
  - destruct (session_stored_makedirs _ _ _ _ Hcv Hinv Hmkdir) as (Hinv' & Hsess & Hclass).
    destruct (Hsave image (foldl os.path_join ("classified_images/" +:+ now) [c; f]) fs')
      as [[data Hdata]|[e' Hraise]]; [|rewrite Hsv in Hraise; discriminate].
    rewrite Hdata in Hsv.
    destruct (session_stored_write _ _ _ _ _ Hinv' Hsv) as (Hinv2 & Hkeep & Hwritten).
    pose proof Hinv' as (_ & Hclosed' & Hcwd' & _).
    destruct Hinv2 as (Hwf2 & Hclosed2 & Hcwd2 & Hdir2 & Hzip2 & Hrs2).
    repeat (split; [assumption|]).
    intros r' [Hin| ->%list_elem_of_singleton]%elem_of_app Hne; [now apply Hrs2|].
    cbn [class filename]. split; [now apply Hkeep|]. intros Hf.
    exists data. apply Hwritten. now apply saved_key.
Qed.

(** The whole request. *)
Lemma predict_stored (req : request) (batch : BatchResult) (fs' : filesystem) :
  wf fs -> closed fs -> entries fs !! cwd fs = Some Dir ->
  backend_app.predict model now req fs = (Ok (jsonify (JsonBatch batch) 200), fs') ->
  session_stored fs now fs' (results batch).
Proof.
  intros Hwf Hclosed Hcwd. unfold backend_app.predict.
  destruct (files req !! "images") as [fl|]; [|discriminate].
  destruct (length fl =? 0)%nat; [discriminate|].
  intros (rc & s1 & Hloop & Hret)%bind_Ok_inv. unfold ret in Hret.
  injection Hret as <- <-. cbn [results].
  apply (predict_loop_invariant
           (fun b f => backend_app.predict_image model b f now) (session_stored fs now))
    with (3 := Hloop).
  - intros b f s rs r s' Hinv Hp. eapply predict_image_stored; eassumption.
  - split; [exact Hwf|]. split; [exact Hclosed|]. split; [reflexivity|].
    split; [exact Hcwd|]. split; [auto|]. intros r Hr. now apply elem_of_nil in Hr.
Qed.

End Stored.

(** X18: on a host whose [os.makedirs] and [image.save] act on the file
    system, a session in which [predict] of [backend/app.py] classified at
    least one picture is listed by [list_sessions] afterwards, under the
    session id of the answer. *)
Theorem predict_then_list_sessions `{pil : PIL} {host : Host} {torch : Torch}
    (model : Model) (now : string) (req : request) (fs fs' : filesystem)
    (batch : BatchResult) :
  posix_host host -> valid_name now = true ->
  wf fs -> closed fs -> entries fs !! cwd fs = Some Dir ->
  backend_app.predict model now req fs = (Ok (jsonify (JsonBatch batch) 200), fs') ->
  (exists r, r ∈ results batch /\ class r <> "error") ->
  exists l,
    backend_app.list_sessions fs' = (Ok (jsonify (JsonSessions l) 200), fs') /\
    session_id batch = Some now /\ now ∈ l.
Proof.
  intros Hhost Hnow Hwf Hclosed Hcwd Hp (r & Hr & Hne).
  assert (session_id batch = Some now) as Hid.
  { pose proof (backend_predict_spec model now req fs) as Hs. unfold jsonify in Hp, Hs.
    destruct (files req !! "images") as [[|file fl]|]; try congruence.
    destruct Hs as (rs & fs1 & Hp' & _). rewrite Hp' in Hp. now injection Hp as <- _. }
  destruct (predict_stored model fs now Hhost Hnow req batch fs' Hwf Hclosed Hcwd Hp)
    as (Hwf' & Hclosed' & Hcwd' & Hdir' & _ & Hrs).
  destruct (Hrs r Hr Hne) as [Hsess _].
  assert (output_root fs' = output_root fs) as Hroot by (unfold output_root; now rewrite Hcwd').
  assert (os.path_isdir fs' backend_app.OUTPUT_DIR = true) as Hisdir.
  { apply isdir_output. rewrite Hroot, Hcwd'. split; [exact Hdir'|].
    apply (closed_prefix fs' Hclosed' [now]); [discriminate|]. rewrite Hsess. eauto. }
  destruct (list_sessions_spec fs' Hwf' Hisdir) as (l & Hl & _ & Hin).
  exists l. split; [exact Hl|]. split; [exact Hid|].
  apply Hin. unfold is_session. now rewrite Hroot.
Qed.

Lemma posix_stub_host : posix_host Stub.host.
Proof. split; [reflexivity|]. intros im p fs. left. eexists. reflexivity. Qed.

Lemma fresh_wf_closed : wf Stub.fresh /\ closed Stub.fresh.
Proof.
  split.
  - unfold wf. apply map_Forall_to_list. vm_compute. repeat constructor.
  - apply closed_check, map_Forall_to_list. vm_compute. repeat constructor.
Qed.

Lemma predict_then_list_sessions_witness :
  exists l,
    backend_app.list_sessions stored_session
    = (Ok (jsonify (JsonSessions l) 200), stored_session) /\
    Some Stub.now = Some Stub.now /\ Stub.now ∈ l.
Proof.
  apply (predict_then_list_sessions (host := Stub.host) (torch := Stub.torch) 0%nat
           Stub.now Stub.upload Stub.fresh stored_session
           {| results :=
                [ error_result "junk.txt"
                    (Exception "UnidentifiedImageError" "cannot identify image file");
                  {| filename := "cat.jpg"; class := "cat"; confidence := None;
                     error := None;
                     saved_path := Some "classified_images/20240101_120000/cat/cat.jpg" |};
                  {| filename := "dog.png"; class := "dog"; confidence := None;
                     error := None;
                     saved_path := Some "classified_images/20240101_120000/dog/dog.png" |} ];
              session_id := Some Stub.now;
              class_counts := <["dog" := 1%nat]> (<["cat" := 1%nat]> ∅);
              total_images := 3 |}).
  - exact posix_stub_host.
  - reflexivity.
  - exact (proj1 fresh_wf_closed).
  - exact (proj2 fresh_wf_closed).
  - reflexivity.
  - reflexivity.
  - eexists. split; [right; left|]. discriminate.
Defined.

(** X19: on such a host, the pictures [predict] of [backend/app.py] reports
    as classified are in the archive [download] builds for the session id of
    the answer.  If at least one picture of the request was classified, the
    download writes the archive of the session; for every result that is no
    error entry and whose file name is a plain name the archive has a member
    named [<class>/<filename>]; and when the view answers, it answers 200
    with this archive. *)
Theorem predict_then_download `{pil : PIL} {host : Host} {torch : Torch}
    (model : Model) (now : string) (req : request) (fs fs' : filesystem)
    (batch : BatchResult) :
  posix_host host -> valid_name now = true ->
  wf fs -> closed fs -> entries fs !! cwd fs = Some Dir ->
  entries fs !! (output_root fs ++ ["classified_images_" +:+ now +:+ ".zip"])%list
    <> Some Dir ->
  backend_app.predict model now req fs = (Ok (jsonify (JsonBatch batch) 200), fs') ->
  (exists r, r ∈ results batch /\ class r <> "error") ->
  exists members,
    snd (backend_app.download now fs')
    = {| entries := <[(output_root fs' ++ ["classified_images_" +:+ now +:+ ".zip"])%list
                      := File (ZipFile_bytes members)]> (entries fs');
         cwd := cwd fs' |} /\
    (forall a, fst (backend_app.download now fs') = Ok a ->
               a = jsonify (Attachment ("classified_images_" +:+ now +:+ ".zip")
                                       (ZipFile_bytes members)) 200) /\
    forall r, r ∈ results batch -> class r <> "error" ->
              valid_name (filename r) = true ->
              exists data, (class r +:+ "/" +:+ filename r, data) ∈ members.
Proof.
  intros Hhost Hnow Hwf Hclosed Hcwd Hzip Hp (r0 & Hr0 & Hne0).
  destruct (predict_stored model fs now Hhost Hnow req batch fs' Hwf Hclosed Hcwd Hp)
    as (Hwf' & Hclosed' & Hcwd' & Hdir' & Hzip' & Hrs).
  destruct (Hrs r0 Hr0 Hne0) as [Hsess _].
  assert (output_root fs' = output_root fs) as Hroot by (unfold output_root; now rewrite Hcwd').
  destruct (download_existing fs' now Hwf' Hclosed' Hnow) as (members & Hd & _ & Hmem).
  { rewrite Hroot, Hsess. eauto. }
  { rewrite Hroot. now apply Hzip'. }
  exists members. rewrite Hd. cbn [fst snd]. split; [reflexivity|].
  split; [now intros a [= <-]|].
  intros r Hr Hne Hf. destruct (Hrs r Hr Hne) as [_ Hfile].
  destruct (Hfile Hf) as [data Hdata]. exists data. apply Hmem.
  exists [class r; filename r]. split; [discriminate|]. split; [|reflexivity].
  now rewrite Hroot, <- app_assoc.
Qed.

Lemma predict_then_download_witness :
  exists members,
    snd (backend_app.download (host := Stub.host) Stub.now stored_session)
    = {| entries := <[(output_root stored_session
                         ++ ["classified_images_" +:+ Stub.now +:+ ".zip"])%list
                      := File (ZipFile_bytes (Host := Stub.host) members)]>
                      (entries stored_session);
         cwd := cwd stored_session |} /\
    exists data, ("cat" +:+ "/" +:+ "cat.jpg", data) ∈ members.
Proof.
  destruct (predict_then_download (host := Stub.host) (torch := Stub.torch) 0%nat
              Stub.now Stub.upload Stub.fresh stored_session
              {| results :=
                   [ error_result "junk.txt"
                       (Exception "UnidentifiedImageError" "cannot identify image file");
                     {| filename := "cat.jpg"; class := "cat"; confidence := None;
                        error := None;
                        saved_path := Some "classified_images/20240101_120000/cat/cat.jpg" |};
                     {| filename := "dog.png"; class := "dog"; confidence := None;
                        error := None;
                        saved_path := Some "classified_images/20240101_120000/dog/dog.png" |} ];
                 session_id := Some Stub.now;
                 class_counts := <["dog" := 1%nat]> (<["cat" := 1%nat]> ∅);
                 total_images := 3 |})
    as (members & Hd & _ & Hall).
  - exact posix_stub_host.
  - reflexivity.
  - exact (proj1 fresh_wf_closed).
  - exact (proj2 fresh_wf_closed).
  - reflexivity.
  - vm_compute. discriminate.
  - reflexivity.
  - eexists. split; [right; left|]. discriminate.
  - exists members. split; [exact Hd|].
    apply (Hall {| filename := "cat.jpg"; class := "cat"; confidence := None;
                   error := None;
                   saved_path := Some "classified_images/20240101_120000/cat/cat.jpg" |});
      [right; left|discriminate|reflexivity].
Defined.
